(** * Verification of the taxi-trip cleaning and transformation pipeline

  A shallow embedding of [load.py], [clean.py] and [transform.py]: the
  SQL statements the Python functions send to DuckDB are given a
  denotation over an explicit database state, and the Python control flow
  around them (sequencing, the loops, exceptions) is written in a small
  state-and-exception monad. *)

From Stdlib Require Import ZArith QArith Qcanon.
From stdpp Require Import base numbers option list sorting gmap strings.

Local Open Scope Z_scope.

(** ** SQL values *)

Module Sql.

(** SQL's three-valued logic: [None] is NULL (unknown). *)
Definition tri := option bool.

Definition and3 (a b : tri) : tri :=
  match a, b with
  | Some false, _ => Some false
  | _, Some false => Some false
  | Some true, Some true => Some true
  | _, _ => None
  end.

Definition or3 (a b : tri) : tri :=
  match a, b with
  | Some true, _ => Some true
  | _, Some true => Some true
  | Some false, Some false => Some false
  | _, _ => None
  end.

(** A WHERE clause keeps a row only when its condition is TRUE. *)
Definition holds (c : tri) : bool :=
  match c with Some true => true | _ => false end.

(** A comparison with a NULL operand is NULL. *)
Definition cmp {A B : Type} (f : A → B → bool) (x : option A) (y : option B) : tri :=
  match x, y with
  | Some a, Some b => Some (f a b)
  | _, _ => None
  end.

(** Strict scalar functions: a NULL argument gives NULL. *)
Definition lift1 {A B : Type} (f : A → B) (x : option A) : option B :=
  match x with Some a => Some (f a) | None => None end.

Definition lift2 {A B C : Type} (f : A → B → C) (x : option A) (y : option B) : option C :=
  match x, y with
  | Some a, Some b => Some (f a b)
  | _, _ => None
  end.

Definition is_null {A : Type} (x : option A) : bool :=
  match x with None => true | Some _ => false end.

Definition is_not_null {A : Type} (x : option A) : tri :=
  Some (negb (is_null x)).

(** Comparisons on DOUBLE literals and columns, on exact rationals. *)
Definition Qc_leb (x y : Qc) : bool := Qle_bool x y.
Definition Qc_ltb (x y : Qc) : bool := negb (Qle_bool y x).
Definition Qc_gtb (x y : Qc) : bool := Qc_ltb y x.
Definition Qc_eqb (x y : Qc) : bool := Qeq_bool x y.

(** [LIMIT n] and [OFFSET n] on an ordered result; the counts are BIGINT. *)
Fixpoint limit {A : Type} (n : Z) (l : list A) : list A :=
  match l with
  | [] => []
  | x :: l' => if n <=? 0 then [] else x :: limit (n - 1) l'
  end.

Fixpoint offset {A : Type} (n : Z) (l : list A) : list A :=
  match l with
  | [] => []
  | x :: l' => if n <=? 0 then l else offset (n - 1) l'
  end.

(** [COUNT( * )] of a result. *)
Definition count {A : Type} (l : list A) : Z := Z.of_nat (length l).

(** [MIN] and [MAX] skip NULLs and are NULL when nothing is left. *)
Definition agg_min (l : list (option Z)) : option Z :=
  match omap id l with
  | [] => None
  | x :: xs => Some (foldr Z.min x xs)
  end.

Definition agg_max (l : list (option Z)) : option Z :=
  match omap id l with
  | [] => None
  | x :: xs => Some (foldr Z.max x xs)
  end.

End Sql.

(** ** Calendar parts of a TIMESTAMP

  A TIMESTAMP is a count of microseconds since 1970-01-01 00:00:00 in the
  proleptic Gregorian calendar.  The date parts follow DuckDB's [EXTRACT]:
  HOUR in 0..23, DOW with Sunday = 0, MONTH in 1..12, WEEK the ISO-8601
  week number, YEAR the calendar year. *)

Module Calendar.

Definition MICROS_PER_SEC : Z := 1000000.
Definition MICROS_PER_HOUR : Z := 3600000000.
Definition MICROS_PER_DAY : Z := 86400000000.

Definition epoch_day (ts : Z) : Z := ts / MICROS_PER_DAY.

Definition extract_hour (ts : Z) : Z := (ts mod MICROS_PER_DAY) / MICROS_PER_HOUR.

(** 1970-01-01 was a Thursday. *)
Definition extract_dow (ts : Z) : Z := (epoch_day ts + 4) mod 7.

(** Day number within the 400-year era that starts on 0000-03-01. *)
Definition day_of_era (day : Z) : Z := (day + 719468) mod 146097.
Definition era (day : Z) : Z := (day + 719468) / 146097.

Definition year_of_era (doe : Z) : Z :=
  (doe - doe / 1460 + doe / 36524 - doe / 146096) / 365.

(** Day of the year that starts on 1 March, from 0. *)
Definition march_day (doe : Z) : Z :=
  let yoe := year_of_era doe in
  doe - (365 * yoe + yoe / 4 - yoe / 100).

(** Month of the year that starts in March, from 0 (March) to 11 (February). *)
Definition march_month (doe : Z) : Z := (5 * march_day doe + 2) / 153.

Definition month_of_day (day : Z) : Z :=
  let mp := march_month (day_of_era day) in
  if mp <? 10 then mp + 3 else mp - 9.

Definition year_of_day (day : Z) : Z :=
  let doe := day_of_era day in
  let y := year_of_era doe + era day * 400 in
  if month_of_day day <=? 2 then y + 1 else y.

Definition is_leap (y : Z) : bool :=
  ((y mod 4 =? 0) && negb (y mod 100 =? 0)) || (y mod 400 =? 0).

(** Day of the calendar year, from 0 (1 January). *)
Definition year_day (day : Z) : Z :=
  let md := march_day (day_of_era day) in
  if 306 <=? md then md - 306
  else md + 59 + (if is_leap (year_of_day day) then 1 else 0).

Definition extract_month (ts : Z) : Z := month_of_day (epoch_day ts).
Definition extract_year (ts : Z) : Z := year_of_day (epoch_day ts).

(** ISO-8601: a date belongs to the week of the Thursday of its
    Monday-to-Sunday week, numbered within that Thursday's year. *)
Definition iso_thursday (day : Z) : Z := day - (day + 3) mod 7 + 3.
Definition extract_week (ts : Z) : Z :=
  year_day (iso_thursday (epoch_day ts)) / 7 + 1.

End Calendar.


(** ** Data model *)

Module Model.

(** A DOUBLE computed by the engine: a finite number, taken as an exact
    rational, or one of the non-finite values (infinities, NaN). *)
Inductive double :=
  | Finite (q : Qc)
  | NonFinite.

(** The largest finite DOUBLE, (2^53 - 1) * 2^971. *)
Definition DBL_MAX : Qc := Qc_of_Z ((2 ^ 53 - 1) * 2 ^ 971).

(** The DOUBLE an arithmetic operation gives when its exact result is [q]:
    [q] itself within the range of DOUBLE (rounding is not modelled), a
    non-finite value beyond it. *)
Definition to_double (q : Qc) : double :=
  if Sql.Qc_leb (- DBL_MAX) q && Sql.Qc_leb q DBL_MAX then Finite q else NonFinite.

(** The six columns [transform_*_trips] adds. *)
Inductive DerivedCol :=
  | TripCo2Kgs | AvgMph | HourOfDay | DayOfWeek | WeekOfYear | MonthOfYear.

Definition all_derived_cols : list DerivedCol :=
  [TripCo2Kgs; AvgMph; HourOfDay; DayOfWeek; WeekOfYear; MonthOfYear].

(** One trip.  [pickup_datetime] and [dropoff_datetime] stand for the
    [tpep_*] columns of yellow trips and the [lpep_*] columns of green
    trips; [other_columns] for the source columns the pipeline never
    names.  Every column is nullable. *)
Record TripRow := mkTripRow {
  passenger_count : option Z;
  trip_distance : option Qc;
  pickup_datetime : option Z;
  dropoff_datetime : option Z;
  other_columns : list (option Z);
  trip_co2_kgs : option double;
  avg_mph : option double;
  hour_of_day : option Z;
  day_of_week : option Z;
  week_of_year : option Z;
  month_of_year : option Z
}.

(** A trip table: which derived columns its schema has, and its rows, each
    with the engine's [rowid]. *)
Record TripTable := mkTripTable {
  derived_cols : list DerivedCol;
  rows : list (Z * TripRow)
}.

Record EmissionRow := mkEmissionRow {
  vehicle_type : option string;
  co2_grams_per_mile : option Qc
}.

(** The database file: the trip tables by name, the [vehicle_emissions]
    table when it exists, and the engine setting that decides what a
    floating-point division by zero gives. *)
Record Database := mkDatabase {
  trip_tables : gmap string TripTable;
  vehicle_emissions : option (list EmissionRow);
  ieee_floating_point_ops : bool
}.

#[global] Instance double_eq_dec : EqDecision double.
Proof. solve_decision. Defined.
#[global] Instance DerivedCol_eq_dec : EqDecision DerivedCol.
Proof. solve_decision. Defined.
#[global] Instance TripRow_eq_dec : EqDecision TripRow.
Proof. solve_decision. Defined.
#[global] Instance TripTable_eq_dec : EqDecision TripTable.
Proof. solve_decision. Defined.
#[global] Instance EmissionRow_eq_dec : EqDecision EmissionRow.
Proof. solve_decision. Defined.

Definition rowids (t : TripTable) : list Z := (rows t).*1.
Definition records (t : TripTable) : list TripRow := (rows t).*2.

Definition with_rows (t : TripTable) (rs : list (Z * TripRow)) : TripTable :=
  mkTripTable (derived_cols t) rs.

Definition with_tables (d : Database) (ts : gmap string TripTable) : Database :=
  mkDatabase ts (vehicle_emissions d) (ieee_floating_point_ops d).

(** [c IS NULL] on a row. *)
Definition column_is_null (c : DerivedCol) (r : TripRow) : bool :=
  match c with
  | TripCo2Kgs => Sql.is_null (trip_co2_kgs r)
  | AvgMph => Sql.is_null (avg_mph r)
  | HourOfDay => Sql.is_null (hour_of_day r)
  | DayOfWeek => Sql.is_null (day_of_week r)
  | WeekOfYear => Sql.is_null (week_of_year r)
  | MonthOfYear => Sql.is_null (month_of_year r)
  end.

(** The row with column [c] set to NULL. *)
Definition clear_column (c : DerivedCol) (r : TripRow) : TripRow :=
  match c with
  | TripCo2Kgs =>
      mkTripRow (passenger_count r) (trip_distance r) (pickup_datetime r)
        (dropoff_datetime r) (other_columns r) None (avg_mph r) (hour_of_day r)
        (day_of_week r) (week_of_year r) (month_of_year r)
  | AvgMph =>
      mkTripRow (passenger_count r) (trip_distance r) (pickup_datetime r)
        (dropoff_datetime r) (other_columns r) (trip_co2_kgs r) None (hour_of_day r)
        (day_of_week r) (week_of_year r) (month_of_year r)
  | HourOfDay =>
      mkTripRow (passenger_count r) (trip_distance r) (pickup_datetime r)
        (dropoff_datetime r) (other_columns r) (trip_co2_kgs r) (avg_mph r) None
        (day_of_week r) (week_of_year r) (month_of_year r)
  | DayOfWeek =>
      mkTripRow (passenger_count r) (trip_distance r) (pickup_datetime r)
        (dropoff_datetime r) (other_columns r) (trip_co2_kgs r) (avg_mph r)
        (hour_of_day r) None (week_of_year r) (month_of_year r)
  | WeekOfYear =>
      mkTripRow (passenger_count r) (trip_distance r) (pickup_datetime r)
        (dropoff_datetime r) (other_columns r) (trip_co2_kgs r) (avg_mph r)
        (hour_of_day r) (day_of_week r) None (month_of_year r)
  | MonthOfYear =>
      mkTripRow (passenger_count r) (trip_distance r) (pickup_datetime r)
        (dropoff_datetime r) (other_columns r) (trip_co2_kgs r) (avg_mph r)
        (hour_of_day r) (day_of_week r) (week_of_year r) None
  end.

End Model.

(** ** The connection: Python calls that may raise *)

Module Py.
Import Model.

Inductive Exn :=
  | CatalogError   (* the table named by a statement does not exist, or the new name is taken *)
  | BinderError    (* a column named by a statement does not exist *)
  | TypeError      (* Python: formatting or comparing [None] as a number *)
  | IOError.       (* the storage layer fails while executing a statement *)

(** An open connection.  [executed] counts the calls of [con.execute]
    made so far; [fault_at = Some k] makes call number [k] raise instead
    of taking effect, and [None] is a run without storage faults. *)
Record Conn := mkConn {
  database : Database;
  executed : nat;
  fault_at : option nat
}.

(** A computation either returns or raises; in both cases the connection
    keeps what was done before. *)
Definition M (A : Type) : Type := Conn → (Exn + A) * Conn.

Definition ret {A : Type} (a : A) : M A := λ c, (inr a, c).

Definition raise {A : Type} (e : Exn) : M A := λ c, (inl e, c).

Definition bind {A B : Type} (m : M A) (k : A → M B) : M B :=
  λ c, match m c with
       | (inr a, c') => k a c'
       | (inl e, c') => (inl e, c')
       end.

(** A statement either fails, leaving the database as it was, or gives a
    result and a new database: each [con.execute] commits on its own. *)
Definition Stmt (A : Type) : Type := Database → Exn + (A * Database).

Definition execute {A : Type} (s : Stmt A) : M A :=
  λ c,
    let n := executed c in
    if decide (fault_at c = Some n) then
      (inl IOError, mkConn (database c) (S n) (fault_at c))
    else
      match s (database c) with
      | inl e => (inl e, mkConn (database c) (S n) (fault_at c))
      | inr (a, d) => (inr a, mkConn d (S n) (fault_at c))
      end.

(** [for x in xs: body x] *)
Fixpoint for_each {A : Type} (xs : list A) (body : A → M unit) : M unit :=
  match xs with
  | [] => ret tt
  | x :: xs' => bind (body x) (λ _, for_each xs' body)
  end.

(** [range(n)] *)
Definition range (n : Z) : list Z := Z.of_nat <$> seq 0 (Z.to_nat n).

(** [f"{x:.3f}"]: formatting [None] with a float format raises. *)
Definition format_float {A : Type} (x : option A) : M unit :=
  match x with
  | Some _ => ret tt
  | None => raise TypeError
  end.

(** [x >= n] and [x <= n] on a value that may be [None]. *)
Definition ge (x : option Z) (n : Z) : M bool :=
  match x with
  | Some v => ret (n <=? v)
  | None => raise TypeError
  end.

Definition le (x : option Z) (n : Z) : M bool :=
  match x with
  | Some v => ret (v <=? n)
  | None => raise TypeError
  end.

(** [a and b], which evaluates [b] only when [a] is true. *)
Definition and_then (a : bool) (b : M bool) : M bool :=
  if a then b else ret false.

(** A run with no storage fault, from a freshly opened connection. *)
Definition connect (d : Database) : Conn := mkConn d 0 None.

Definition run {A : Type} (m : M A) (d : Database) : (Exn + A) * Database :=
  let '(r, c) := m (connect d) in (r, database c).

(** A run in which call number [k] of [con.execute] raises. *)
Definition run_with_fault {A : Type} (k : nat) (m : M A) (d : Database)
  : (Exn + A) * Database :=
  let '(r, c) := m (mkConn d 0 (Some k)) in (r, database c).

End Py.

Declare Scope py_scope.
Delimit Scope py_scope with py.
Notation "x <- m ;; k" := (Py.bind m (λ x, k))
  (at level 100, m at next level, right associativity) : py_scope.
Notation "m ;; k" := (Py.bind m (λ _, k))
  (at level 100, right associativity) : py_scope.

Declare Scope sql_scope.
Delimit Scope sql_scope with sql.
Infix "AND" := Sql.and3 (at level 40, left associativity) : sql_scope.
Infix "OR" := Sql.or3 (at level 50, left associativity) : sql_scope.

(** ** Statements shared by both scripts *)

Module Engine.
Import Model Py.

(** [EXTRACT(EPOCH FROM (dropoff - pickup))]: the length of the trip in
    seconds. *)
Definition trip_seconds (r : TripRow) : option Qc :=
  Sql.lift1 (λ us, Qc_of_Z us / Qc_of_Z Calendar.MICROS_PER_SEC)%Qc
    (Sql.lift2 Z.sub (dropoff_datetime r) (pickup_datetime r)).

(** [EXTRACT(YEAR FROM pickup)] *)
Definition pickup_year (r : TripRow) : option Z :=
  Sql.lift1 Calendar.extract_year (pickup_datetime r).

(** [SELECT COUNT( * ) FROM table] *)
Definition select_count (table : string) : Stmt Z :=
  λ d, match trip_tables d !! table with
       | Some t => inr (Sql.count (rows t), d)
       | None => inl CatalogError
       end.

(** [SELECT COUNT( * ) FROM table WHERE cond] *)
Definition select_count_where (table : string) (cond : TripRow → Sql.tri) : Stmt Z :=
  λ d, match trip_tables d !! table with
       | Some t => inr (Sql.count (filter (λ r, Sql.holds (cond r)) (records t)), d)
       | None => inl CatalogError
       end.

(** Rows of a new table get the rowids 0, 1, 2, ... *)
Definition number_rows (rs : list TripRow) : list (Z * TripRow) :=
  imap (λ i r, (Z.of_nat i, r)) rs.

End Engine.

(** ** clean.py *)

Module Clean.
Import Model Py Engine.
Local Open Scope sql_scope.

(** The WHERE clause of the cleaning query, conjunct by conjunct. *)
Definition quality_filter (r : TripRow) : Sql.tri :=
  Sql.cmp Z.gtb (passenger_count r) (Some 0)
  AND Sql.cmp Sql.Qc_gtb (trip_distance r) (Some (Qc_of_Z 0))
  AND Sql.cmp Sql.Qc_leb (trip_distance r) (Some (Qc_of_Z 100))
  AND Sql.cmp Sql.Qc_leb (trip_seconds r) (Some (Qc_of_Z 86400))
  AND Sql.cmp Sql.Qc_gtb (trip_seconds r) (Some (Qc_of_Z 0))
  AND Sql.cmp Z.geb (pickup_year r) (Some 2015)
  AND Sql.cmp Z.leb (pickup_year r) (Some 2024)
  AND Sql.is_not_null (pickup_datetime r)
  AND Sql.is_not_null (dropoff_datetime r).

(** [SELECT DISTINCT * FROM t WHERE ...].  The engine returns the selected
    rows in an order of its choice; the order taken here is one of them. *)
Definition cleaned_rows (t : TripTable) : list TripRow :=
  remove_dups (filter (λ r, Sql.holds (quality_filter r)) (records t)).

(** The table that query creates: the schema of [t], the selected rows. *)
Definition cleaned_table (t : TripTable) : TripTable :=
  mkTripTable (derived_cols t) (number_rows (cleaned_rows t)).

(** [CREATE OR REPLACE TABLE temp AS SELECT DISTINCT * FROM table WHERE ...] *)
Definition create_or_replace_cleaned (temp table : string) : Stmt unit :=
  λ d, match trip_tables d !! table with
       | Some t =>
           inr (tt, with_tables d (<[temp := cleaned_table t]> (trip_tables d)))
       | None => inl CatalogError
       end.

(** [DROP TABLE table] *)
Definition drop_table (table : string) : Stmt unit :=
  λ d, match trip_tables d !! table with
       | Some _ => inr (tt, with_tables d (delete table (trip_tables d)))
       | None => inl CatalogError
       end.

(** [ALTER TABLE old RENAME TO new] *)
Definition rename_table (old new : string) : Stmt unit :=
  λ d, match trip_tables d !! old, trip_tables d !! new with
       | Some t, None =>
           inr (tt, with_tables d (<[new := t]> (delete old (trip_tables d))))
       | _, _ => inl CatalogError
       end.

(** What a cleaning function prints: the row counts before and after, and
    their difference. *)
Record CleanReport := mkCleanReport {
  initial_count : Z;
  final_count : Z;
  removed : Z
}.

Definition clean_trips (table temp : string) : M CleanReport :=
  (initial <- execute (select_count table);;
   execute (create_or_replace_cleaned temp table);;
   execute (drop_table table);;
   execute (rename_table temp table);;
   final <- execute (select_count table);;
   ret (mkCleanReport initial final (initial - final)))%py.

Definition clean_yellow_trips : M CleanReport :=
  clean_trips "yellow_trips" "yellow_trips_temp".

Definition clean_green_trips : M CleanReport :=
  clean_trips "green_trips" "green_trips_temp".

(** The conditions counted by [verify_cleaning]. *)
Definition zero_passengers (r : TripRow) : Sql.tri :=
  Sql.cmp Z.eqb (passenger_count r) (Some 0).

Definition zero_distance (r : TripRow) : Sql.tri :=
  Sql.cmp Sql.Qc_eqb (trip_distance r) (Some (Qc_of_Z 0)).

Definition over_100_miles (r : TripRow) : Sql.tri :=
  Sql.cmp Sql.Qc_gtb (trip_distance r) (Some (Qc_of_Z 100)).

Definition over_24_hours (r : TripRow) : Sql.tri :=
  Sql.cmp Sql.Qc_gtb (trip_seconds r) (Some (Qc_of_Z 86400)).

Definition outside_2015_2024 (r : TripRow) : Sql.tri :=
  Sql.cmp Z.ltb (pickup_year r) (Some 2015)
  OR Sql.cmp Z.gtb (pickup_year r) (Some 2024).

(** The total count minus the count of [SELECT DISTINCT *]. *)
Definition select_duplicate_count (table : string) : Stmt Z :=
  λ d, match trip_tables d !! table with
       | Some t =>
           inr (Sql.count (records t) - Sql.count (remove_dups (records t)), d)
       | None => inl CatalogError
       end.

(** The [checks] dictionary of one table, in the order it is built. *)
Definition cleaning_checks (table : string) : M (list (string * Z)) :=
  (passengers <- execute (select_count_where table zero_passengers);;
   distance <- execute (select_count_where table zero_distance);;
   miles <- execute (select_count_where table over_100_miles);;
   hours <- execute (select_count_where table over_24_hours);;
   duplicates <- execute (select_duplicate_count table);;
   years <- execute (select_count_where table outside_2015_2024);;
   ret [("Trips with 0/NULL passengers", passengers);
        ("Trips with 0/NULL distance", distance);
        ("Trips > 100 miles", miles);
        ("Trips > 24 hours", hours);
        ("Duplicate trips", duplicates);
        ("Trips outside 2015-2024", years)])%py.

(** [violations += count] over the items of a dictionary. *)
Definition sum_counts (checks : list (string * Z)) : Z :=
  foldl (λ acc item, acc + item.2) 0 checks.

Definition verify_cleaning : M bool :=
  (checks <- cleaning_checks "yellow_trips";;
   let yellow_violations := sum_counts checks in
   green_checks <- cleaning_checks "green_trips";;
   let green_violations := sum_counts green_checks in
   let all_clean := (yellow_violations + green_violations =? 0) in
   ret all_clean)%py.

(** The script's main block: both cleanings, then the verification, whose
    result is not used. *)
Definition clean_main : M unit :=
  (clean_yellow_trips;;
   clean_green_trips;;
   verify_cleaning;;
   ret tt)%py.

End Clean.

(** ** transform.py *)

Module Transform.
Import Model Py Engine.

(** Adding column [c] to a table that lacks it: NULL on every row.  A
    table that has the column is left as it is. *)
Definition add_column (c : DerivedCol) (t : TripTable) : TripTable :=
  if decide (c ∈ derived_cols t) then t
  else mkTripTable (derived_cols t ++ [c]) (prod_map id (clear_column c) <$> rows t).

(** [ALTER TABLE table ADD COLUMN IF NOT EXISTS c ...] *)
Definition add_column_if_not_exists (table : string) (c : DerivedCol) : Stmt unit :=
  λ d, match trip_tables d !! table with
       | Some t =>
           inr (tt, with_tables d (<[table := add_column c t]> (trip_tables d)))
       | None => inl CatalogError
       end.

(** Floating-point division: by zero it gives a non-finite value under
    IEEE semantics and NULL otherwise; it never raises. *)
Definition divide (ieee : bool) (x y : option Qc) : option double :=
  match x, y with
  | Some a, Some b =>
      if Sql.Qc_eqb b (Qc_of_Z 0) then (if ieee then Some NonFinite else None)
      else Some (to_double (a / b)%Qc)
  | _, _ => None
  end.

(** The product of two DOUBLE values, and a DOUBLE divided by a non-zero
    constant; a non-finite value stays non-finite. *)
Definition fmul (a b : Qc) : double := to_double (a * b)%Qc.

Definition fdiv (v : double) (k : Qc) : double :=
  match v with
  | Finite q => to_double (q / k)%Qc
  | NonFinite => NonFinite
  end.

(** The SET clause of the batched UPDATE, joined with the row [ve] of
    [vehicle_emissions]. *)
Definition derive (ieee : bool) (ve : EmissionRow) (r : TripRow) : TripRow :=
  mkTripRow (passenger_count r) (trip_distance r) (pickup_datetime r)
    (dropoff_datetime r) (other_columns r)
    (Sql.lift1 (λ g, fdiv g (Qc_of_Z 1000))
       (Sql.lift2 fmul (trip_distance r) (co2_grams_per_mile ve)))
    (divide ieee (trip_distance r)
       (Sql.lift1 (λ s, s / Qc_of_Z 3600)%Qc (trip_seconds r)))
    (Sql.lift1 Calendar.extract_hour (pickup_datetime r))
    (Sql.lift1 Calendar.extract_dow (pickup_datetime r))
    (Sql.lift1 Calendar.extract_week (pickup_datetime r))
    (Sql.lift1 Calendar.extract_month (pickup_datetime r)).

(** [SELECT rowid FROM table ORDER BY rowid LIMIT batch_size OFFSET offset] *)
Definition batch_rowids (t : TripTable) (batch_size offset : Z) : list Z :=
  Sql.limit batch_size (Sql.offset offset (merge_sort Z.le (rowids t))).

(** The rows of [vehicle_emissions] with [vehicle_type = key]. *)
Definition emission_matches (key : string) (ves : list EmissionRow) : list EmissionRow :=
  filter (λ ve, Sql.holds (Sql.cmp String.eqb (vehicle_type ve) (Some key))) ves.

(** The rows after an UPDATE that sets the derived columns, from the
    joined row [ve], on the rows whose rowid is in [batch]. *)
Definition update_rows (ieee : bool) (ve : EmissionRow) (batch : list Z)
    (rs : list (Z * TripRow)) : list (Z * TripRow) :=
  (λ p, if decide (p.1 ∈ batch) then (p.1, derive ieee ve p.2) else p) <$> rs.

(** [UPDATE table SET ... FROM vehicle_emissions ve
     WHERE ve.vehicle_type = key AND table.rowid IN (batch)].
    A row is updated when it is in the batch and the join finds a match;
    with several matches the first one is used. *)
Definition update_batch (table key : string) (batch_size offset : Z) : Stmt unit :=
  λ d, match trip_tables d !! table, vehicle_emissions d with
       | Some t, Some ves =>
           if decide (all_derived_cols ⊆ derived_cols t) then
             let batch := batch_rowids t batch_size offset in
             match emission_matches key ves with
             | [] => inr (tt, d)
             | ve :: _ =>
                 let rs := update_rows (ieee_floating_point_ops d) ve batch (rows t) in
                 inr (tt, with_tables d (<[table := with_rows t rs]> (trip_tables d)))
             end
           else inl BinderError
       | _, _ => inl CatalogError
       end.

(** [batches = (total_rows + batch_size - 1) // batch_size] *)
Definition batches (total_rows batch_size : Z) : Z :=
  (total_rows + batch_size - 1) / batch_size.

Definition transform_trips (batch_size : Z) (table key : string) : M Z :=
  (execute (add_column_if_not_exists table TripCo2Kgs);;
   execute (add_column_if_not_exists table AvgMph);;
   execute (add_column_if_not_exists table HourOfDay);;
   execute (add_column_if_not_exists table DayOfWeek);;
   execute (add_column_if_not_exists table WeekOfYear);;
   execute (add_column_if_not_exists table MonthOfYear);;
   total_rows <- execute (select_count table);;
   for_each (range (batches total_rows batch_size))
     (λ i, let offset := i * batch_size in
           execute (update_batch table key batch_size offset));;
   execute (select_count_where table
              (λ r, Sql.is_not_null (trip_co2_kgs r))))%py.

Definition batch_size : Z := 1000000.

(** Both functions return the count of transformed rows they print. *)
Definition transform_yellow_trips : M Z :=
  transform_trips batch_size "yellow_trips" "yellow_taxi".

Definition transform_green_trips : M Z :=
  transform_trips batch_size "green_trips" "green_taxi".

(** The number of rows on which column [c] is NULL. *)
Definition null_count (c : DerivedCol) (t : TripTable) : Z :=
  Sql.count (filter (λ r, column_is_null c r) (records t)).

(** [SELECT COUNT( * ) FROM table WHERE c IS NULL] *)
Definition select_null_count (table : string) (c : DerivedCol) : Stmt Z :=
  λ d, match trip_tables d !! table with
       | Some t =>
           if decide (c ∈ derived_cols t) then inr (null_count c t, d)
           else inl BinderError
       | None => inl CatalogError
       end.

(** [AVG] over a DOUBLE column: NULLs are skipped, the result is NULL when
    nothing is left and non-finite when some value is. *)
Definition agg_avg (l : list (option double)) : option double :=
  match omap id l with
  | [] => None
  | vs =>
      let finite := omap (λ v, match v with Finite q => Some q | NonFinite => None end) vs in
      if decide (length finite = length vs)
      then Some (Finite (foldr Qcplus (Qc_of_Z 0) finite / Qc_of_Z (Z.of_nat (length vs)))%Qc)
      else Some NonFinite
  end.

(** The row returned by the statistics query. *)
Record Stats := mkStats {
  avg_co2 : option double;
  avg_speed : option double;
  min_hour : option Z;
  max_hour : option Z;
  min_dow : option Z;
  max_dow : option Z;
  min_week : option Z;
  max_week : option Z;
  min_month : option Z;
  max_month : option Z
}.

Definition table_stats (t : TripTable) : Stats :=
  let rs := records t in
  mkStats
    (agg_avg (trip_co2_kgs <$> rs)) (agg_avg (avg_mph <$> rs))
    (Sql.agg_min (hour_of_day <$> rs)) (Sql.agg_max (hour_of_day <$> rs))
    (Sql.agg_min (day_of_week <$> rs)) (Sql.agg_max (day_of_week <$> rs))
    (Sql.agg_min (week_of_year <$> rs)) (Sql.agg_max (week_of_year <$> rs))
    (Sql.agg_min (month_of_year <$> rs)) (Sql.agg_max (month_of_year <$> rs)).

(** [SELECT AVG(trip_co2_kgs), AVG(avg_mph), MIN(hour_of_day), ... FROM table] *)
Definition select_stats (table : string) : Stmt Stats :=
  λ d, match trip_tables d !! table with
       | Some t =>
           if decide (all_derived_cols ⊆ derived_cols t) then inr (table_stats t, d)
           else inl BinderError
       | None => inl CatalogError
       end.

(** The part of [verify_transformations] run for one table: the six NULL
    counts, the statistics, and the lines printed and logged from them. *)
Definition table_report (table : string) : M (Z * Stats) :=
  (null_co2 <- execute (select_null_count table TripCo2Kgs);;
   null_mph <- execute (select_null_count table AvgMph);;
   null_hour <- execute (select_null_count table HourOfDay);;
   null_dow <- execute (select_null_count table DayOfWeek);;
   null_week <- execute (select_null_count table WeekOfYear);;
   null_month <- execute (select_null_count table MonthOfYear);;
   stats <- execute (select_stats table);;
   format_float (avg_co2 stats);;
   format_float (avg_speed stats);;
   format_float (avg_co2 stats);;
   format_float (avg_speed stats);;
   ret (null_co2 + null_mph + null_hour + null_dow + null_week + null_month, stats))%py.

Definition verify_transformations : M bool :=
  (yellow <- table_report "yellow_trips";;
   green <- table_report "green_trips";;
   let total_nulls := yellow.1 + green.1 in
   let stats := yellow.2 in
   let stats_g := green.2 in
   and_then (total_nulls =? 0)
     (a <- ge (min_hour stats) 0;;
      and_then a
        (b <- le (max_hour stats) 23;;
         and_then b
           (c <- ge (min_hour stats_g) 0;;
            and_then c (le (max_hour stats_g) 23)))))%py.

(** A [SET] or [PRAGMA] statement that configures the engine. *)
Definition configure : Stmt unit := λ d, inr (tt, d).

Definition transform_data : M unit :=
  (execute configure;;
   execute configure;;
   execute configure;;
   execute configure;;
   execute configure;;
   transform_yellow_trips;;
   transform_green_trips;;
   verify_transformations;;
   ret tt)%py.

End Transform.

(** ** The two categories, and the specification's predicates *)

Module Spec.
Import Model Py.

(** The table after the six [ADD COLUMN IF NOT EXISTS] statements. *)
Definition with_derived_columns (t : TripTable) : TripTable :=
  Transform.add_column MonthOfYear
    (Transform.add_column WeekOfYear
       (Transform.add_column DayOfWeek
          (Transform.add_column HourOfDay
             (Transform.add_column AvgMph
                (Transform.add_column TripCo2Kgs t))))).

(** The table with the SET clause applied to every row. *)
Definition all_derived (ieee : bool) (ve : EmissionRow) (t : TripTable) : TripTable :=
  with_rows t (prod_map id (Transform.derive ieee ve) <$> rows t).

(** The table a transformation leaves: the six columns added, and the SET
    clause applied to every row when the join finds a row. *)
Definition transformed (ieee : bool) (key : string) (ves : list EmissionRow)
    (t : TripTable) : TripTable :=
  match Transform.emission_matches key ves with
  | [] => with_derived_columns t
  | ve :: _ => all_derived ieee ve (with_derived_columns t)
  end.

Inductive Category := Yellow | Green.

Definition trips_table (c : Category) : string :=
  match c with Yellow => "yellow_trips" | Green => "green_trips" end.

Definition temp_table (c : Category) : string :=
  match c with Yellow => "yellow_trips_temp" | Green => "green_trips_temp" end.

Definition category_key (c : Category) : string :=
  match c with Yellow => "yellow_taxi" | Green => "green_taxi" end.

Definition clean (c : Category) : M Clean.CleanReport :=
  match c with
  | Yellow => Clean.clean_yellow_trips
  | Green => Clean.clean_green_trips
  end.

Definition transform (c : Category) : M Z :=
  match c with
  | Yellow => Transform.transform_yellow_trips
  | Green => Transform.transform_green_trips
  end.

(** Predicates 1 to 6 of the quality filter, as the specification lists
    them, on the columns of one row.  A trip of 86400 seconds lasts
    86400000000 microseconds. *)
Definition valid_trip (r : TripRow) : Prop :=
  (∃ p, passenger_count r = Some p ∧ 0 < p) ∧
  (∃ x, trip_distance r = Some x ∧ (Qc_of_Z 0 < x)%Qc ∧ (x ≤ Qc_of_Z 100)%Qc) ∧
  (∃ pu dr, pickup_datetime r = Some pu ∧ dropoff_datetime r = Some dr ∧
            0 < dr - pu ≤ 86400 * Calendar.MICROS_PER_SEC ∧
            2015 ≤ Calendar.extract_year pu ≤ 2024).

(** The dictionary [verify_cleaning] builds for a table. *)
Definition cleaning_counts (t : TripTable) : list (string * Z) :=
  let counted (cond : TripRow → Sql.tri) :=
    Sql.count (filter (λ r, Sql.holds (cond r)) (records t)) in
  [("Trips with 0/NULL passengers", counted Clean.zero_passengers);
   ("Trips with 0/NULL distance", counted Clean.zero_distance);
   ("Trips > 100 miles", counted Clean.over_100_miles);
   ("Trips > 24 hours", counted Clean.over_24_hours);
   ("Duplicate trips", Sql.count (records t) - Sql.count (remove_dups (records t)));
   ("Trips outside 2015-2024", counted Clean.outside_2015_2024)].

(** A row that no check of [verify_cleaning] counts: no passenger count
    of 0, no distance of 0 or above 100, no trip above 86400 seconds, no
    pickup year outside 2015..2024. *)
Definition unflagged (r : TripRow) : Prop :=
  passenger_count r ≠ Some 0 ∧
  (∀ x, trip_distance r = Some x → x ≠ Qc_of_Z 0 ∧ (x ≤ Qc_of_Z 100)%Qc) ∧
  (∀ pu dr, pickup_datetime r = Some pu → dropoff_datetime r = Some dr →
            dr - pu ≤ 86400 * Calendar.MICROS_PER_SEC) ∧
  (∀ pu, pickup_datetime r = Some pu → 2015 ≤ Calendar.extract_year pu ≤ 2024).

(** A row whose checked columns are each NULL or as the quality filter
    wants them. *)
Definition null_or_valid (r : TripRow) : Prop :=
  (passenger_count r = None ∨ ∃ p, passenger_count r = Some p ∧ 0 < p) ∧
  (trip_distance r = None ∨
   ∃ x, trip_distance r = Some x ∧ (Qc_of_Z 0 < x)%Qc ∧ (x ≤ Qc_of_Z 100)%Qc) ∧
  (pickup_datetime r = None ∨
   ∃ pu, pickup_datetime r = Some pu ∧
         2015 ≤ Calendar.extract_year pu ≤ 2024 ∧
         (dropoff_datetime r = None ∨
          ∃ dr, dropoff_datetime r = Some dr ∧
                0 < dr - pu ≤ 86400 * Calendar.MICROS_PER_SEC)).

(** A row with none of its six derived columns NULL. *)
Definition derived_present (r : TripRow) : Prop :=
  ∀ c, column_is_null c r = false.

(** A row whose hour of day, when it has one, is in 0..23. *)
Definition hour_in_range (r : TripRow) : Prop :=
  ∀ h, hour_of_day r = Some h → 0 ≤ h ≤ 23.

(** What [verify_transformations] checks on a row. *)
Definition checked (r : TripRow) : Prop := derived_present r ∧ hour_in_range r.

(** The sum of the NULL counts of the six derived columns. *)
Definition null_total (t : TripTable) : Z :=
  Transform.null_count TripCo2Kgs t + Transform.null_count AvgMph t
  + Transform.null_count HourOfDay t + Transform.null_count DayOfWeek t
  + Transform.null_count WeekOfYear t + Transform.null_count MonthOfYear t.

(** The ranges the specification gives for the six derived values of a
    row: both doubles finite and non-negative, the hour in 0..23, the day of
    the week in 0..6, the week in 1..53, the month in 1..12. *)
Definition derived_in_range (r : TripRow) : Prop :=
  (∃ q, trip_co2_kgs r = Some (Finite q) ∧ (0 ≤ q)%Qc) ∧
  (∃ q, avg_mph r = Some (Finite q) ∧ (0 ≤ q)%Qc) ∧
  (∃ h, hour_of_day r = Some h ∧ 0 ≤ h ≤ 23) ∧
  (∃ w, day_of_week r = Some w ∧ 0 ≤ w ≤ 6) ∧
  (∃ w, week_of_year r = Some w ∧ 1 ≤ w ≤ 53) ∧
  (∃ m, month_of_year r = Some m ∧ 1 ≤ m ≤ 12).

End Spec.

(** ** Sample data *)

Module Examples.
Import Model Py.

(** A timestamp given in seconds since the epoch. *)
Definition at_second (secs : Z) : option Z := Some (secs * Calendar.MICROS_PER_SEC).

(** The year, month, hour, day of the week and week of a timestamp. *)
Definition calendar_parts (secs : Z) : list Z :=
  let ts := secs * Calendar.MICROS_PER_SEC in
  [Calendar.extract_year ts; Calendar.extract_month ts; Calendar.extract_hour ts;
   Calendar.extract_dow ts; Calendar.extract_week ts].

(** A source row: the four named columns, no other column, nothing derived. *)
Definition trip (pc : option Z) (miles : option Z) (pickup dropoff : option Z) : TripRow :=
  mkTripRow pc (Qc_of_Z <$> miles) pickup dropoff [] None None None None None None.

(** 2024-01-01 00:00:00 *)
Definition new_year_2024 : Z := 1704067200.
(** 2013-06-01 00:00:00 *)
Definition june_2013 : Z := 1370044800.

(** A valid half-hour trip of ten miles. *)
Definition row_F : TripRow :=
  trip (Some 1) (Some 10) (at_second new_year_2024) (at_second (new_year_2024 + 1800)).
Definition row_E : TripRow := row_F.
(** No passenger; 150 miles; 90000 seconds; picked up in 2013. *)
Definition row_A : TripRow :=
  trip (Some 0) (Some 10) (at_second new_year_2024) (at_second (new_year_2024 + 1800)).
Definition row_B : TripRow :=
  trip (Some 1) (Some 150) (at_second new_year_2024) (at_second (new_year_2024 + 1800)).
Definition row_C : TripRow :=
  trip (Some 1) (Some 10) (at_second new_year_2024) (at_second (new_year_2024 + 90000)).
Definition row_D : TripRow :=
  trip (Some 1) (Some 10) (at_second june_2013) (at_second (june_2013 + 1800)).

(** A table as the loader leaves it: no derived column. *)
Definition loaded (rs : list TripRow) : TripTable :=
  mkTripTable [] (Engine.number_rows rs).

Definition emissions : list EmissionRow :=
  [mkEmissionRow (Some "yellow_taxi") (Some (Qc_of_Z 400));
   mkEmissionRow (Some "green_taxi") (Some (Qc_of_Z 350))].

Definition database_of (yellow green : TripTable) (ves : option (list EmissionRow)) : Database :=
  mkDatabase (<["yellow_trips" := yellow]> (<["green_trips" := green]> ∅)) ves true.

Definition scenario_table : TripTable :=
  loaded [row_A; row_B; row_C; row_D; row_E; row_F].

Definition scenario : Database :=
  database_of scenario_table scenario_table (Some emissions).

(** One valid trip per table, and a [vehicle_emissions] table without the
    yellow key. *)
Definition single_trip : TripTable := loaded [row_F].

Definition no_yellow_rate : Database :=
  database_of single_trip single_trip
    (Some [mkEmissionRow (Some "green_taxi") (Some (Qc_of_Z 350))]).

Definition single_trips : Database :=
  database_of single_trip single_trip (Some emissions).

(** A yellow rate that is NULL, and one that is negative. *)
Definition null_rate : Database :=
  database_of single_trip single_trip (Some [mkEmissionRow (Some "yellow_taxi") None]).

Definition negative_rate : Database :=
  database_of single_trip single_trip
    (Some [mkEmissionRow (Some "yellow_taxi") (Some (Qc_of_Z (-400)))]).

(** A trip dropped off at the second it was picked up. *)
Definition row_Z : TripRow :=
  trip (Some 1) (Some 10) (at_second new_year_2024) (at_second new_year_2024).

Definition zero_duration : Database :=
  database_of (loaded [row_Z]) single_trip (Some emissions).

(** Rows with NULLs where the quality filter wants values. *)
Definition row_no_passengers : TripRow :=
  trip None (Some 10) (at_second new_year_2024) (at_second (new_year_2024 + 1800)).
Definition row_no_distance : TripRow :=
  trip (Some 1) None (at_second new_year_2024) (at_second (new_year_2024 + 1800)).
Definition row_no_pickup : TripRow :=
  trip (Some 1) (Some 10) None (at_second (new_year_2024 + 1800)).
Definition row_no_dropoff : TripRow :=
  trip (Some 1) (Some 10) (at_second new_year_2024) None.
Definition row_all_null : TripRow := trip None None None None.

Definition null_rows : TripTable :=
  loaded [row_no_passengers; row_no_distance; row_no_pickup; row_no_dropoff; row_all_null].

Definition with_nulls : Database :=
  database_of null_rows null_rows (Some emissions).

(** A table whose rowids are neither contiguous nor in order. *)
Definition scattered : TripTable :=
  mkTripTable [] [(5, row_F); (2, row_A); (9, row_B)].

(** Empty tables that already have the six columns. *)
Definition empty_table : TripTable := mkTripTable all_derived_cols [].

Definition empty_tables : Database :=
  database_of empty_table empty_table (Some emissions).

(** A trip of minus five miles with no derived value, and a trip without
    passengers whose derived values are filled in. *)
Definition row_negative : TripRow :=
  trip (Some 1) (Some (-5)) (at_second new_year_2024) (at_second (new_year_2024 + 1800)).

Definition row_A_transformed : TripRow :=
  Transform.derive true (mkEmissionRow (Some "yellow_taxi") (Some (Qc_of_Z 400))) row_A.

Definition unverified : Database :=
  database_of (mkTripTable all_derived_cols [(0, row_negative)])
    (mkTripTable all_derived_cols [(0, row_negative)]) (Some emissions).

Definition unclean_transformed : Database :=
  database_of (mkTripTable all_derived_cols [(0, row_A_transformed)])
    (mkTripTable all_derived_cols [(0, row_A_transformed)]) (Some emissions).

End Examples.

(** ** Databases the scripts leave *)

Module Outcome.
Import Model Py.

(** The database after both cleanings: each trip table replaced by its
    cleaned version, each temporary name gone. *)
Definition cleaned_database (d : Database) (y g : TripTable) : Database :=
  with_tables d
    (<["green_trips" := Clean.cleaned_table g]>
       (delete "green_trips_temp"
          (delete "green_trips"
             (<["green_trips_temp" := Clean.cleaned_table g]>
                (<["yellow_trips" := Clean.cleaned_table y]>
                   (delete "yellow_trips_temp"
                      (delete "yellow_trips"
                         (<["yellow_trips_temp" := Clean.cleaned_table y]>
                            (trip_tables d))))))))).

(** No fault is due in the [len] calls of [con.execute] that follow call
    number [n]. *)
Definition fault_free (f : option nat) (n len : nat) : Prop :=
  match f with
  | None => True
  | Some k => (n + len ≤ k)%nat
  end.

(** The database after both transformations, with [vehicle_emissions]
    holding the rows [ves]. *)
Definition transformed_database (d : Database) (y g : TripTable)
    (ves : list EmissionRow) : Database :=
  with_tables d
    (<["green_trips" := Spec.transformed (ieee_floating_point_ops d) "green_taxi" ves g]>
       (<["yellow_trips" := Spec.transformed (ieee_floating_point_ops d) "yellow_taxi" ves y]>
          (trip_tables d))).

(** A row on which the checks of [verify_cleaning] and predicates 1 to 6
    of the quality filter can only agree: the passenger count and the
    distance are there and not negative, both timestamps are there, and
    the dropoff is after the pickup. *)
Definition countable (r : TripRow) : Prop :=
  (∃ p, passenger_count r = Some p ∧ 0 ≤ p) ∧
  (∃ x, trip_distance r = Some x ∧ (Qc_of_Z 0 ≤ x)%Qc) ∧
  (∃ pu dr, pickup_datetime r = Some pu ∧ dropoff_datetime r = Some dr ∧ 0 < dr - pu).

(** A row whose derived values other than the hour are in range whenever
    they are not NULL. *)
Definition plausible (r : TripRow) : Prop :=
  (∀ v, trip_co2_kgs r = Some v → ∃ q, v = Finite q ∧ (0 ≤ q)%Qc) ∧
  (∀ v, avg_mph r = Some v → ∃ q, v = Finite q ∧ (0 ≤ q)%Qc) ∧
  (∀ w, day_of_week r = Some w → 0 ≤ w ≤ 6) ∧
  (∀ w, week_of_year r = Some w → 1 ≤ w ≤ 53) ∧
  (∀ m, month_of_year r = Some m → 1 ≤ m ≤ 12).

(** The columns of a row that come from the source files. *)
Definition source_columns (r : TripRow)
  : option Z * option Qc * option Z * option Z * list (option Z) :=
  (passenger_count r, trip_distance r, pickup_datetime r, dropoff_datetime r,
   other_columns r).

End Outcome.

(** ** More sample data *)

Module Samples.
Import Model Py.

(** A database that also holds a table the pipeline does not know. *)
Definition with_bystander : Database :=
  mkDatabase
    (<["zones" := Examples.single_trip]> (trip_tables Examples.scenario))
    (Some Examples.emissions) true.

(** A database without the green table. *)
Definition yellow_only : Database :=
  mkDatabase (<["yellow_trips" := Examples.scenario_table]> ∅)
    (Some Examples.emissions) true.

(** Trip tables but no [vehicle_emissions] table. *)
Definition no_emissions : Database :=
  Examples.database_of Examples.single_trip Examples.empty_table None.

(** Three valid trips, to be transformed in batches of two. *)
Definition row_G : TripRow :=
  Examples.trip (Some 2) (Some 3) (Examples.at_second Examples.new_year_2024)
    (Examples.at_second (Examples.new_year_2024 + 600)).
Definition row_H : TripRow :=
  Examples.trip (Some 1) (Some 7) (Examples.at_second (Examples.new_year_2024 + 3600))
    (Examples.at_second (Examples.new_year_2024 + 5400)).

Definition three_trips : TripTable := Examples.loaded [Examples.row_F; row_G; row_H].

Definition three_yellow : Database :=
  Examples.database_of three_trips Examples.single_trip (Some Examples.emissions).

(** A valid two-hour trip of a hundred miles, and a yellow rate of 10^307
    grams per mile. *)
Definition row_far : TripRow :=
  Examples.trip (Some 1) (Some 100) (Examples.at_second Examples.new_year_2024)
    (Examples.at_second (Examples.new_year_2024 + 7200)).

Definition huge_rate : Database :=
  Examples.database_of (Examples.loaded [row_far]) Examples.single_trip
    (Some [mkEmissionRow (Some "yellow_taxi") (Some (Qc_of_Z (10 ^ 307)));
           mkEmissionRow (Some "green_taxi") (Some (Qc_of_Z 350))]).

(** The row without any value, twice. *)
Definition null_twice : TripTable :=
  Examples.loaded [Examples.row_all_null; Examples.row_all_null].

Definition nulls_twice : Database :=
  Examples.database_of null_twice null_twice (Some Examples.emissions).

(** The same trip twice in the yellow table: once with and once without
    its derived values, and twice without them. *)
Definition row_F_transformed : TripRow :=
  Transform.derive true (mkEmissionRow (Some "yellow_taxi") (Some (Qc_of_Z 400)))
    Examples.row_F.

Definition half_transformed : Database :=
  Examples.database_of
    (mkTripTable all_derived_cols [(0, Examples.row_F); (1, row_F_transformed)])
    Examples.empty_table (Some Examples.emissions).

Definition untransformed_twice : Database :=
  Examples.database_of
    (mkTripTable all_derived_cols [(0, Examples.row_F); (1, Examples.row_F)])
    Examples.empty_table (Some Examples.emissions).

(** One valid trip per table, transformed. *)
Definition single_trip_transformed : TripTable :=
  Spec.transformed true "yellow_taxi" Examples.emissions Examples.single_trip.

Definition single_trips_transformed : Database :=
  Examples.database_of single_trip_transformed single_trip_transformed
    (Some Examples.emissions).

End Samples.

(** ** load.py *)

Module Load.
Import Model Py Engine.

(** A row of a parquet file: the source columns. *)
Definition FileRow : Type :=
  option Z * option Qc * option Z * option Z * list (option Z).

(** The row as it is stored in a trip table without derived columns. *)
Definition trip_of (f : FileRow) : TripRow :=
  let '(passengers, distance, pickup, dropoff, others) := f in
  mkTripRow passengers distance pickup dropoff others None None None None None None.

(** What the data source answers: whether the read of the 2024-01 file
    that gives a table its schema succeeds, and for each colour, year and
    month either the rows that the [INSERT ... SELECT * FROM read_parquet]
    of that file appends, or [None] when that statement fails (no such
    file, network error, columns that do not fit). *)
Record Remote := mkRemote {
  sample : Spec.Category → bool;
  file : Spec.Category → Z → Z → option (list FileRow)
}.

(** [CREATE OR REPLACE TABLE t AS SELECT * FROM read_parquet(...) WHERE 1=0] *)
Definition create_empty (remote : Remote) (color : Spec.Category) : Stmt unit :=
  λ d, if sample remote color then
         inr (tt, with_tables d
                    (<[Spec.trips_table color := mkTripTable [] []]> (trip_tables d)))
       else inl IOError.

(** The table with rows appended; on a table that never lost a row the new
    rows get the next rowids. *)
Definition append (t : TripTable) (rs : list TripRow) : TripTable :=
  with_rows t
    (rows t ++ imap (λ i r, (Z.of_nat (length (rows t) + i), r)) rs).

(** [INSERT INTO {color}_trips SELECT * FROM read_parquet('{url}')] *)
Definition insert_file (remote : Remote) (color : Spec.Category) (year month : Z)
    : Stmt unit :=
  λ d, match trip_tables d !! Spec.trips_table color with
       | None => inl CatalogError
       | Some t =>
           match file remote color year month with
           | None => inl IOError
           | Some rs =>
               inr (tt, with_tables d
                          (<[Spec.trips_table color := append t (trip_of <$> rs)]>
                             (trip_tables d)))
           end
       end.

(** [try: body except Exception: (print and log)] *)
Definition try_except (body : M unit) : M unit :=
  λ c, match body c with
       | (inl _, c') => (inr tt, c')
       | (inr a, c') => (inr a, c')
       end.

(** [range(a, b)] *)
Definition range_from (a b : Z) : list Z := seqZ a (b - a).

Definition colors : list Spec.Category := [Spec.Yellow; Spec.Green].
Definition years : list Z := range_from 2015 2025.
Definition months : list Z := range_from 1 13.

Definition load_parquet_files (remote : Remote) : M unit :=
  (execute (create_empty remote Spec.Yellow);;
   execute (create_empty remote Spec.Green);;
   for_each colors (λ color,
     for_each years (λ year,
       for_each months (λ month,
         try_except (execute (insert_file remote color year month))))))%py.

(** [CREATE OR REPLACE TABLE vehicle_emissions AS SELECT * FROM emissions_temp] *)
Definition create_emissions (rs : list EmissionRow) : Stmt unit :=
  λ d, inr (tt, mkDatabase (trip_tables d) (Some rs) (ieee_floating_point_ops d)).

(** [SELECT COUNT( * ) FROM vehicle_emissions] *)
Definition select_emissions_count : Stmt Z :=
  λ d, match vehicle_emissions d with
       | Some rs => inr (Sql.count rs, d)
       | None => inl CatalogError
       end.

(** [csv] is what [pd.read_csv] gives: the rows, or [None] when it raises. *)
Definition load_emissions_data (csv : option (list EmissionRow)) : M unit :=
  match csv with
  | None => raise IOError
  | Some rs =>
      (execute (create_emissions rs);;
       execute select_emissions_count;;
       ret tt)%py
  end.

(** [SUM] skips NULLs and is NULL when nothing is left. *)
Definition agg_sum (l : list (option Qc)) : option Qc :=
  match omap id l with
  | [] => None
  | vs => Some (foldr Qcplus (Qc_of_Z 0) vs)
  end.

(** The row returned by the summary query. *)
Record Summary := mkSummary {
  total_trips : Z;
  earliest_trip : option Z;
  latest_trip : option Z;
  avg_distance : option double;
  total_distance : option Qc
}.

Definition table_summary (t : TripTable) : Summary :=
  let rs := records t in
  mkSummary (Sql.count rs)
    (Sql.agg_min (pickup_datetime <$> rs)) (Sql.agg_max (pickup_datetime <$> rs))
    (Transform.agg_avg ((λ r, Finite <$> trip_distance r) <$> rs))
    (agg_sum (trip_distance <$> rs)).

(** [SELECT COUNT( * ), MIN(pickup), MAX(pickup), AVG(trip_distance),
    SUM(trip_distance) FROM table] *)
Definition select_summary (table : string) : Stmt Summary :=
  λ d, match trip_tables d !! table with
       | Some t => inr (table_summary t, d)
       | None => inl CatalogError
       end.

(** The f-string formats the two averages with [:.2f] and the two totals
    with [:,.0f], yellow first. *)
Definition basic_data_summarization : M unit :=
  (yellow_stats <- execute (select_summary "yellow_trips");;
   green_stats <- execute (select_summary "green_trips");;
   emissions_count <- execute select_emissions_count;;
   format_float (avg_distance yellow_stats);;
   format_float (total_distance yellow_stats);;
   format_float (avg_distance green_stats);;
   format_float (total_distance green_stats);;
   ret tt)%py.

(** The main block: each function opens a connection of its own; any
    exception ends the process with [exit(1)].  The result is the exit
    status and the database left. *)
Definition load_main (remote : Remote) (csv : option (list EmissionRow))
    (d : Database) : Z * Database :=
  match run (load_parquet_files remote) d with
  | (inl _, d1) => (1, d1)
  | (inr _, d1) =>
      match run (load_emissions_data csv) d1 with
      | (inl _, d2) => (1, d2)
      | (inr _, d2) =>
          match run basic_data_summarization d2 with
          | (inl _, d3) => (1, d3)
          | (inr _, d3) => (0, d3)
          end
      end
  end.

End Load.

(** ** What the loader leaves *)

Module Loaded.
Import Model Py.

(** The rows of the files of a year that could be inserted, in the order
    of the months. *)
Definition year_rows (remote : Load.Remote) (color : Spec.Category) (year : Z)
    : list TripRow :=
  Load.trip_of <$> concat (omap (Load.file remote color year) Load.months).

(** The rows of all files that could be inserted, in the order of the
    loop. *)
Definition loaded_rows (remote : Load.Remote) (color : Spec.Category) : list TripRow :=
  concat (year_rows remote color <$> Load.years).

Definition loaded_table (remote : Load.Remote) (color : Spec.Category) : TripTable :=
  mkTripTable [] (Engine.number_rows (loaded_rows remote color)).

Definition loaded_database (remote : Load.Remote) (d : Database) : Database :=
  with_tables d
    (<["green_trips" := loaded_table remote Spec.Green]>
       (<["yellow_trips" := loaded_table remote Spec.Yellow]> (trip_tables d))).

(** A table has a row with a distance. *)
Definition has_distance (t : TripTable) : Prop :=
  ∃ r, r ∈ records t ∧ is_Some (trip_distance r).

(** A source where only the files of January 2024 exist, one trip each;
    one where the yellow files all fail; one whose green schema read
    fails. *)
Definition one_file_rows (year month : Z) : option (list Load.FileRow) :=
  if decide (year = 2024 ∧ month = 1)
  then Some [Outcome.source_columns Examples.row_F]
  else None.

Definition january_only : Load.Remote :=
  Load.mkRemote (λ _, true) (λ _, one_file_rows).

Definition no_yellow_files : Load.Remote :=
  Load.mkRemote (λ _, true)
    (λ color, match color with Spec.Yellow => λ _ _, None | Spec.Green => one_file_rows end).

Definition no_green_schema : Load.Remote :=
  Load.mkRemote (λ color, match color with Spec.Yellow => true | Spec.Green => false end)
    (λ _, one_file_rows).

End Loaded.

(** * Properties *)

(** ** Three-valued logic, LIMIT and OFFSET *)

Module SqlFacts.

Lemma if_bool (b : bool) : (if b then true else false) = b.
Proof. by destruct b. Qed.

Lemma holds_and3 (a b : Sql.tri) :
  Sql.holds (Sql.and3 a b) = Sql.holds a && Sql.holds b.
Proof. by destruct a as [[]|], b as [[]|]. Qed.

Lemma holds_or3 (a b : Sql.tri) :
  Sql.holds (Sql.or3 a b) = Sql.holds a || Sql.holds b.
Proof. by destruct a as [[]|], b as [[]|]. Qed.

Lemma holds_cmp {A B : Type} (f : A → B → bool) (x : option A) (y : option B) :
  Sql.holds (Sql.cmp f x y) = true ↔ ∃ a b, x = Some a ∧ y = Some b ∧ f a b = true.
Proof.
  destruct x as [a|], y as [b|]; simpl; split;
    try discriminate; try (by intros (? & ? & ? & ? & ?)).
  - destruct (f a b) eqn:E; [eauto|discriminate].
  - by intros (? & ? & [= <-] & [= <-] & ->).
Qed.

Lemma Qc_leb_le (x y : Qc) : Sql.Qc_leb x y = true ↔ (x ≤ y)%Qc.
Proof. unfold Sql.Qc_leb, Qcle. apply Qle_bool_iff. Qed.

Lemma Qc_ltb_lt (x y : Qc) : Sql.Qc_ltb x y = true ↔ (x < y)%Qc.
Proof.
  unfold Sql.Qc_ltb. rewrite negb_true_iff, <-not_true_iff_false.
  change (Qle_bool y x) with (Sql.Qc_leb y x). rewrite Qc_leb_le.
  symmetry. apply Qclt_nge.
Qed.

Lemma Qc_gtb_gt (x y : Qc) : Sql.Qc_gtb x y = true ↔ (y < x)%Qc.
Proof. apply Qc_ltb_lt. Qed.

Lemma Qc_eqb_eq (x y : Qc) : Sql.Qc_eqb x y = true ↔ x = y.
Proof.
  unfold Sql.Qc_eqb. rewrite Qeq_bool_iff. split.
  - apply Qc_is_canon.
  - by intros ->.
Qed.

Lemma limit_take {A : Type} (l : list A) (n : Z) :
  Sql.limit n l = take (Z.to_nat n) l.
Proof.
  revert n. induction l as [|x l IH]; intros n; simpl.
  - by rewrite take_nil.
  - destruct (Z.leb_spec n 0).
    + by replace (Z.to_nat n) with 0%nat by lia.
    + replace (Z.to_nat n) with (S (Z.to_nat (n - 1))) by lia.
      simpl. by rewrite IH.
Qed.

Lemma offset_drop {A : Type} (l : list A) (n : Z) :
  Sql.offset n l = drop (Z.to_nat n) l.
Proof.
  revert n. induction l as [|x l IH]; intros n; simpl.
  - by rewrite drop_nil.
  - destruct (Z.leb_spec n 0).
    + by replace (Z.to_nat n) with 0%nat by lia.
    + replace (Z.to_nat n) with (S (Z.to_nat (n - 1))) by lia.
      simpl. by rewrite IH.
Qed.

Lemma count_nonneg {A : Type} (l : list A) : 0 ≤ Sql.count l.
Proof. unfold Sql.count. lia. Qed.

Lemma count_zero {A : Type} (l : list A) : Sql.count l = 0 ↔ l = [].
Proof. unfold Sql.count. destruct l; simpl; split; (done || lia). Qed.

End SqlFacts.

(** ** Ranges of the calendar parts *)

Module CalendarFacts.
Import Calendar.

(** Floor divisions and remainders by constants, for [lia]. *)
Ltac div_lia := Z.to_euclidean_division_equations; lia.

Lemma extract_hour_range (ts : Z) : 0 ≤ extract_hour ts ≤ 23.
Proof. unfold extract_hour, MICROS_PER_DAY, MICROS_PER_HOUR. div_lia. Qed.

Lemma extract_dow_range (ts : Z) : 0 ≤ extract_dow ts ≤ 6.
Proof. unfold extract_dow. div_lia. Qed.

Lemma day_of_era_range (day : Z) : 0 ≤ day_of_era day ≤ 146096.
Proof. unfold day_of_era. div_lia. Qed.

Lemma march_day_range (doe : Z) :
  0 ≤ doe ≤ 146096 → 0 ≤ march_day doe ≤ 365.
Proof. unfold march_day, year_of_era. intros. div_lia. Qed.

Lemma month_of_day_range (day : Z) : 1 ≤ month_of_day day ≤ 12.
Proof.
  unfold month_of_day, march_month.
  pose proof (march_day_range _ (day_of_era_range day)).
  destruct (Z.ltb_spec ((5 * march_day (day_of_era day) + 2) / 153) 10); div_lia.
Qed.

Lemma year_day_range (day : Z) : 0 ≤ year_day day ≤ 365.
Proof.
  unfold year_day.
  pose proof (march_day_range _ (day_of_era_range day)).
  destruct (Z.leb_spec 306 (march_day (day_of_era day))); [lia|].
  destruct (is_leap _); lia.
Qed.

Lemma extract_month_range (ts : Z) : 1 ≤ extract_month ts ≤ 12.
Proof. apply month_of_day_range. Qed.

Lemma extract_week_range (ts : Z) : 1 ≤ extract_week ts ≤ 53.
Proof.
  unfold extract_week.
  pose proof (year_day_range (iso_thursday (epoch_day ts))). div_lia.
Qed.

(** Day 3 of the epoch, 1970-01-04, was a Sunday: the days numbered 0 are
    the Sundays. *)
Lemma extract_dow_sunday (ts : Z) :
  extract_dow ts = 0 ↔ (epoch_day ts - 3) mod 7 = 0.
Proof. unfold extract_dow. div_lia. Qed.

(** 2024-01-01 00:00:00, a Monday. *)
Example parts_2024_01_01 : Examples.calendar_parts 1704067200 = [2024; 1; 0; 1; 1].
Proof. reflexivity. Qed.

(** 2021-01-03, a Sunday in ISO week 53 of 2020. *)
Example parts_2021_01_03 : Examples.calendar_parts 1609632000 = [2021; 1; 0; 0; 53].
Proof. reflexivity. Qed.

(** 2015-12-31 23:59:59 and the second after it. *)
Example parts_2015_12_31 : Examples.calendar_parts 1451606399 = [2015; 12; 23; 4; 53].
Proof. reflexivity. Qed.

Example parts_2016_01_01 : Examples.calendar_parts 1451606400 = [2016; 1; 0; 5; 53].
Proof. reflexivity. Qed.

(** 2024-12-30, a Monday in ISO week 1 of 2025. *)
Example parts_2024_12_30 : Examples.calendar_parts 1735516800 = [2024; 12; 0; 1; 1].
Proof. reflexivity. Qed.

(** 2020-02-29 12:00:00, a Saturday. *)
Example parts_2020_02_29 : Examples.calendar_parts 1582977600 = [2020; 2; 12; 6; 9].
Proof. reflexivity. Qed.

(** 1969-12-31 23:59:59, before the epoch. *)
Example parts_1969_12_31 : Examples.calendar_parts (-1) = [1969; 12; 23; 3; 1].
Proof. reflexivity. Qed.

(** 2000-02-29 and 2100-01-01. *)
Example parts_2000_02_29 : Examples.calendar_parts 951782400 = [2000; 2; 0; 2; 9].
Proof. reflexivity. Qed.

Example parts_2100_01_01 : Examples.calendar_parts 4102444800 = [2100; 1; 0; 5; 53].
Proof. reflexivity. Qed.

End CalendarFacts.

(** ** The cleaning filter *)

Module CleanFacts.
Import Model Py Engine Clean.

Lemma Qc_of_Z_pos (z : Z) : 0 < z → (0 < Qc_of_Z z)%Qc.
Proof. rewrite <-Z2Qc_inj_0. apply (proj1 (Z2Qc_inj_lt 0 z)). Qed.

Lemma Qc_of_Z_nonzero (z : Z) : z ≠ 0 → Qc_of_Z z ≠ 0%Qc.
Proof. rewrite <-Z2Qc_inj_0. intros Hz Heq. by apply Z2Qc_inj in Heq. Qed.

Lemma Qc_div_mul_cancel (x y : Qc) : y ≠ 0%Qc → (x / y * y)%Qc = x.
Proof. intros Hy. rewrite Qcmult_comm. by apply Qcmult_div_r. Qed.

Lemma Qc_of_Z_div_le (a z b : Z) :
  0 < z → (Qc_of_Z a / Qc_of_Z z ≤ Qc_of_Z b)%Qc ↔ a ≤ b * z.
Proof.
  intros Hz.
  rewrite (Qcmult_le_mono_pos_r _ _ (Qc_of_Z z)) by (by apply Qc_of_Z_pos).
  rewrite Qc_div_mul_cancel by (apply Qc_of_Z_nonzero; lia).
  by rewrite <-Z2Qc_inj_mul, <-Z2Qc_inj_le.
Qed.

Lemma Qc_of_Z_div_gt (a z b : Z) :
  0 < z → (Qc_of_Z b < Qc_of_Z a / Qc_of_Z z)%Qc ↔ b * z < a.
Proof.
  intros Hz.
  rewrite (Qcmult_lt_mono_pos_r _ _ (Qc_of_Z z)) by (by apply Qc_of_Z_pos).
  rewrite Qc_div_mul_cancel by (apply Qc_of_Z_nonzero; lia).
  by rewrite <-Z2Qc_inj_mul, <-Z2Qc_inj_lt.
Qed.

(** The WHERE clause is TRUE exactly on the rows the specification calls
    valid. *)
Lemma quality_filter_valid (r : TripRow) :
  Sql.holds (quality_filter r) = true ↔ Spec.valid_trip r.
Proof.
  unfold quality_filter, Spec.valid_trip, trip_seconds, pickup_year.
  rewrite !SqlFacts.holds_and3, !andb_true_iff.
  destruct r as [pc td pu dr oc ? ? ? ? ? ?]; simpl.
  destruct pc as [p|], td as [x|], pu as [u|], dr as [v|]; simpl;
    try (split; [intros; intuition discriminate
                | intros [(? & ? & ?) [(? & ? & ?) (? & ? & ? & ? & ?)]]; discriminate]).
  rewrite !SqlFacts.if_bool, !SqlFacts.Qc_gtb_gt, SqlFacts.Qc_leb_le, SqlFacts.Qc_leb_le.
  rewrite Qc_of_Z_div_le, Qc_of_Z_div_gt by done.
  rewrite Z.gtb_lt, Z.geb_le, Z.leb_le.
  split.
  - intros ((((((((? & ? ) & ?) & ?) & ?) & ?) & ?) & _) & _).
    split; [eauto|]. split; [eauto|].
    exists u, v. unfold Calendar.MICROS_PER_SEC in *. repeat split; try done; lia.
  - intros [(p' & [= <-] & ?) [(x' & [= <-] & ? & ?) (u' & v' & [= <-] & [= <-] & ? & ?)]].
    unfold Calendar.MICROS_PER_SEC in *. repeat split; try done; lia.
Qed.

Lemma run_clean_trips (table temp : string) (d : Database) (t : TripTable) :
  table ≠ temp →
  trip_tables d !! table = Some t →
  run (clean_trips table temp) d =
    (inr (mkCleanReport (Sql.count (rows t)) (Sql.count (rows (cleaned_table t)))
            (Sql.count (rows t) - Sql.count (rows (cleaned_table t)))),
     with_tables d
       (<[table := cleaned_table t]>
          (delete temp (delete table (<[temp := cleaned_table t]> (trip_tables d)))))).
Proof.
  intros Hne Ht.
  unfold run, clean_trips, bind, execute, connect; simpl.
  unfold select_count at 1. rewrite Ht. simpl.
  unfold create_or_replace_cleaned. rewrite Ht. simpl.
  unfold drop_table. simpl. rewrite lookup_insert_ne, Ht by done. simpl.
  unfold rename_table. simpl.
  rewrite lookup_delete_ne, lookup_insert_eq, lookup_delete_eq by done. simpl.
  unfold select_count. simpl. rewrite lookup_insert_eq. simpl.
  done.
Qed.

Lemma records_number_rows (rs : list TripRow) : (number_rows rs).*2 = rs.
Proof.
  unfold number_rows. rewrite fmap_imap.
  induction rs as [|r rs IH] using rev_ind; [done|].
  rewrite imap_app, IH. simpl. done.
Qed.

Lemma records_cleaned_table (t : TripTable) :
  records (cleaned_table t) = cleaned_rows t.
Proof. apply records_number_rows. Qed.

Lemma elem_of_cleaned_rows (t : TripTable) (r : TripRow) :
  r ∈ cleaned_rows t ↔ r ∈ records t ∧ Spec.valid_trip r.
Proof.
  unfold cleaned_rows.
  rewrite elem_of_remove_dups, list_elem_of_filter, Is_true_true, quality_filter_valid.
  tauto.
Qed.

(** C1.  For either category, cleaning a table succeeds and leaves under
    the table's name a table without duplicate rows whose rows are exactly
    the rows of the source that satisfy passenger_count > 0,
    0 < trip_distance <= 100, both timestamps non-null,
    0 < dropoff - pickup <= 86400 seconds and pickup year in 2015..2024. *)
Theorem clean_keeps_exactly_the_valid_rows
    (c : Spec.Category) (d : Database) (t : TripTable) :
  trip_tables d !! Spec.trips_table c = Some t →
  ∃ report d' t',
    run (Spec.clean c) d = (inr report, d') ∧
    trip_tables d' !! Spec.trips_table c = Some t' ∧
    NoDup (records t') ∧
    (∀ r, r ∈ records t' ↔ r ∈ records t ∧ Spec.valid_trip r).
Proof.
  intros Ht.
  assert (∃ temp, Spec.trips_table c ≠ temp ∧
                  Spec.clean c = clean_trips (Spec.trips_table c) temp)
    as (temp & Hne & ->) by (destruct c; eexists; (split; [|reflexivity]); done).
  rewrite (run_clean_trips _ _ _ _ Hne Ht).
  eexists _, _, (cleaned_table t). split; [done|]. simpl.
  rewrite lookup_insert_eq, records_cleaned_table.
  split; [done|]. split; [apply NoDup_remove_dups|].
  intros r. apply elem_of_cleaned_rows.
Qed.

Lemma clean_keeps_exactly_the_valid_rows_witness :
  ∃ report d' t',
    run (Spec.clean Spec.Yellow) Examples.scenario = (inr report, d') ∧
    trip_tables d' !! "yellow_trips" = Some t' ∧
    NoDup (records t') ∧
    (∀ r, r ∈ records t' ↔ r ∈ records Examples.scenario_table ∧ Spec.valid_trip r).
Proof.
  apply (clean_keeps_exactly_the_valid_rows Spec.Yellow Examples.scenario
           Examples.scenario_table).
  reflexivity.
Defined.

Lemma clean_unfold (c : Spec.Category) :
  Spec.clean c = clean_trips (Spec.trips_table c) (Spec.temp_table c).
Proof. by destruct c. Qed.

Lemma temp_table_ne (c : Spec.Category) : Spec.trips_table c ≠ Spec.temp_table c.
Proof. by destruct c. Qed.

(** C3, as the code has it.  The replace sequence is: create the temporary
    table, drop the original, rename the temporary table.  An error raised
    by the initial count, by the CREATE or by the DROP leaves the original
    table as it was.  An error raised by the RENAME, which comes after the
    DROP, leaves no table under the original name; the cleaned rows are
    then under the temporary name. *)
Theorem replace_keeps_table_until_drop
    (c : Spec.Category) (d : Database) (t : TripTable) (k : nat) :
  trip_tables d !! Spec.trips_table c = Some t →
  (k ≤ 3)%nat →
  ∃ d',
    run_with_fault k (Spec.clean c) d = (inl IOError, d') ∧
    if decide (k ≤ 2)%nat
    then trip_tables d' !! Spec.trips_table c = Some t
    else trip_tables d' !! Spec.trips_table c = None ∧
         trip_tables d' !! Spec.temp_table c = Some (cleaned_table t).
Proof.
  intros Ht Hk. rewrite clean_unfold. pose proof (temp_table_ne c) as Hne.
  set (table := Spec.trips_table c) in *. set (temp := Spec.temp_table c) in *.
  unfold run_with_fault, clean_trips, bind, execute. simpl.
  destruct k as [|[|[|[|k]]]]; [| | | |lia]; simpl.
  - by eexists.
  - unfold select_count. rewrite Ht. simpl. by eexists.
  - unfold select_count. rewrite Ht. simpl.
    unfold create_or_replace_cleaned. rewrite Ht. simpl.
    eexists. split; [done|]. simpl. by rewrite lookup_insert_ne.
  - unfold select_count. rewrite Ht. simpl.
    unfold create_or_replace_cleaned. rewrite Ht. simpl.
    unfold drop_table. simpl. rewrite lookup_insert_ne, Ht by done. simpl.
    eexists. split; [done|]. simpl.
    by rewrite lookup_delete_eq, lookup_delete_ne, lookup_insert_eq.
Qed.

Lemma replace_keeps_table_until_drop_witness :
  ∃ d',
    run_with_fault 2 (Spec.clean Spec.Yellow) Examples.scenario = (inl IOError, d') ∧
    trip_tables d' !! "yellow_trips" = Some Examples.scenario_table.
Proof.
  apply (replace_keeps_table_until_drop Spec.Yellow Examples.scenario
           Examples.scenario_table 2).
  - reflexivity.
  - lia.
Defined.

(** C3 fails on the code: the DROP comes before the RENAME.  When the
    RENAME (call number 3 of the cleaning function) raises, [yellow_trips]
    no longer exists and the one cleaned row is in [yellow_trips_temp]. *)
Lemma failed_rename_loses_the_table :
  (run_with_fault 3 clean_yellow_trips Examples.scenario).1 = inl IOError ∧
  trip_tables (run_with_fault 3 clean_yellow_trips Examples.scenario).2
    !! "yellow_trips" = None ∧
  records <$> (trip_tables (run_with_fault 3 clean_yellow_trips Examples.scenario).2
                 !! "yellow_trips_temp") = Some [Examples.row_F] ∧
  trip_tables Examples.scenario !! "yellow_trips" = Some Examples.scenario_table.
Proof. vm_compute. done. Qed.

(** The end-to-end scenario: of the six rows only one copy of the valid
    pair survives. *)
Example clean_scenario :
  (run Clean.clean_yellow_trips Examples.scenario).1 = inr (mkCleanReport 6 1 5).
Proof. vm_compute. reflexivity. Qed.

End CleanFacts.

(** ** The batches of the update loop *)

Module BatchFacts.
Import Model Py Engine Transform.

(** Windows of [c] consecutive elements, [k] of them, rebuild a list of at
    most [k * c] elements. *)
Lemma windows_concat {A : Type} (c k : nat) (l : list A) :
  (length l ≤ k * c)%nat →
  concat ((λ i, take c (drop (i * c) l)) <$> seq 0 k) = l.
Proof.
  revert l. induction k as [|k IH]; intros l Hlen.
  - destruct l; [done|simpl in Hlen; lia].
  - rewrite <-cons_seq, <-fmap_S_seq. simpl.
    rewrite <-list_fmap_compose.
    transitivity (take c l ++ drop c l); [|apply take_drop]. f_equal.
    etrans; [|apply (IH (drop c l)); rewrite length_drop; lia].
    f_equal. apply list_fmap_ext. intros _ i _. simpl.
    rewrite drop_drop. repeat f_equal; lia.
Qed.

Lemma range_seq (n : Z) : range n = Z.of_nat <$> seq 0 (Z.to_nat n).
Proof. done. Qed.

Lemma elem_of_range (n i : Z) : i ∈ range n ↔ 0 ≤ i < n.
Proof.
  unfold range. rewrite list_elem_of_fmap. split.
  - intros (j & -> & Hj). apply elem_of_seq in Hj. lia.
  - intros Hi. exists (Z.to_nat i). split; [lia|]. apply elem_of_seq. lia.
Qed.

(** The number of batches is the least number of windows that covers the
    table. *)
Lemma batches_cover (n c : Z) :
  0 ≤ n → 0 < c → n ≤ batches n c * c ∧ (batches n c - 1) * c < n + c ∧ 0 ≤ batches n c.
Proof.
  intros Hn Hc. unfold batches.
  Z.to_euclidean_division_equations. nia.
Qed.

Lemma window_index_range (p n c : Z) :
  0 ≤ p < n → 0 < c → 0 ≤ p / c < batches n c.
Proof.
  intros Hp Hc. unfold batches.
  replace (n + c - 1) with (n - 1 + 1 * c) by lia.
  rewrite Z.div_add by lia.
  pose proof (Z.div_le_mono p (n - 1) c Hc ltac:(lia)).
  pose proof (Z.div_pos p c ltac:(lia) Hc). lia.
Qed.

Lemma limit_offset_window {A : Type} (l : list A) (c : Z) (i : nat) :
  0 < c →
  Sql.limit c (Sql.offset (Z.of_nat i * c) l) =
    take (Z.to_nat c) (drop (i * Z.to_nat c) l).
Proof.
  intros Hc. rewrite SqlFacts.limit_take, SqlFacts.offset_drop.
  do 2 f_equal. nia.
Qed.

Lemma batch_windows_concat {A : Type} (l : list A) (c : Z) :
  0 < c →
  concat ((λ i, Sql.limit c (Sql.offset (i * c) l)) <$> range (batches (Sql.count l) c)) = l.
Proof.
  intros Hc. unfold range. rewrite <-list_fmap_compose.
  rewrite <-(windows_concat (Z.to_nat c) (Z.to_nat (batches (Sql.count l) c)) l) at 2.
  - f_equal. apply list_fmap_ext. intros _ i _. simpl.
    by apply limit_offset_window.
  - pose proof (batches_cover (Sql.count l) c (SqlFacts.count_nonneg l) Hc).
    unfold Sql.count in *. nia.
Qed.

(** The window at offset [i * c] holds positions [i * c .. i * c + c - 1]. *)
Lemma elem_of_window {A : Type} (l : list A) (c : Z) (i : Z) (x : A) :
  0 < c → 0 ≤ i →
  x ∈ Sql.limit c (Sql.offset (i * c) l) ↔
  ∃ p : nat, l !! p = Some x ∧ i * c ≤ Z.of_nat p < i * c + c.
Proof.
  intros Hc Hi.
  rewrite SqlFacts.limit_take, SqlFacts.offset_drop, list_elem_of_lookup.
  split.
  - intros (q & Hq). apply lookup_take_Some in Hq as [Hq Hlt].
    rewrite lookup_drop in Hq. eexists. split; [done|]. lia.
  - intros (p & Hp & Hrange). exists (p - Z.to_nat (i * c))%nat.
    rewrite lookup_take_lt by lia. rewrite lookup_drop. rewrite <-Hp. f_equal. lia.
Qed.

Lemma count_sorted_rowids (t : TripTable) :
  Sql.count (merge_sort Z.le (rowids t)) = Sql.count (rows t).
Proof.
  unfold Sql.count, rowids. by rewrite merge_sort_Permutation, length_fmap.
Qed.

End BatchFacts.

(** ** The transformation *)

Module TransformFacts.
Import Model Py Engine Transform.

Lemma trip_seconds_derive (ieee : bool) (ve : EmissionRow) (r : TripRow) :
  trip_seconds (derive ieee ve r) = trip_seconds r.
Proof. done. Qed.

(** The SET clause reads only source columns, so applying it again gives
    the same row. *)
Lemma derive_idempotent (ieee : bool) (ve : EmissionRow) (r : TripRow) :
  derive ieee ve (derive ieee ve r) = derive ieee ve r.
Proof. done. Qed.

Lemma update_rows_rowids ieee ve batch (rs : list (Z * TripRow)) :
  (update_rows ieee ve batch rs).*1 = rs.*1.
Proof.
  unfold update_rows. rewrite <-list_fmap_compose.
  apply list_fmap_ext. intros _ p _. simpl. by case_decide.
Qed.

Lemma update_rows_nil ieee ve (rs : list (Z * TripRow)) :
  update_rows ieee ve [] rs = rs.
Proof.
  unfold update_rows. rewrite <-(list_fmap_id rs) at 2.
  apply list_fmap_ext. intros _ p _. case_decide as Hin; [|done].
  by apply elem_of_nil in Hin.
Qed.

Lemma update_rows_app ieee ve (b1 b2 : list Z) (rs : list (Z * TripRow)) :
  update_rows ieee ve b2 (update_rows ieee ve b1 rs) = update_rows ieee ve (b1 ++ b2) rs.
Proof.
  unfold update_rows. rewrite <-list_fmap_compose.
  apply list_fmap_ext. intros _ [id r] _. simpl.
  repeat case_decide; simpl in *; try done;
    match goal with
    | H : _ ∉ _ ++ _ |- _ => destruct H; apply elem_of_app; auto
    | H : _ ∈ _ ++ _ |- _ => apply elem_of_app in H as []; done
    end.
Qed.

Lemma update_rows_all ieee ve (batch : list Z) (rs : list (Z * TripRow)) :
  rs.*1 ⊆ batch →
  update_rows ieee ve batch rs = prod_map id (derive ieee ve) <$> rs.
Proof.
  intros Hsub. unfold update_rows.
  apply list_fmap_ext. intros i [id r] Hlook. simpl.
  case_decide as Hin; [done|]. destruct Hin. apply Hsub.
  apply list_elem_of_fmap. exists (id, r). split; [done|].
  by eapply list_elem_of_lookup_2.
Qed.

Lemma with_rows_rows (t : TripTable) : with_rows t (rows t) = t.
Proof. by destruct t. Qed.

Lemma batch_rowids_with_rows (t : TripTable) (rs : list (Z * TripRow)) (c off : Z) :
  rs.*1 = rowids t → batch_rowids (with_rows t rs) c off = batch_rowids t c off.
Proof. intros Hids. unfold batch_rowids, rowids. simpl. by rewrite Hids. Qed.

Lemma execute_ok {A : Type} (s : Stmt A) (d d' : Database) (n : nat) (a : A) :
  s d = inr (a, d') → execute s (mkConn d n None) = (inr a, mkConn d' (S n) None).
Proof. intros Hs. unfold execute. simpl. by rewrite Hs. Qed.

Lemma execute_error {A : Type} (s : Stmt A) (d : Database) (n : nat) (e : Exn) :
  s d = inl e → execute s (mkConn d n None) = (inl e, mkConn d (S n) None).
Proof. intros Hs. unfold execute. simpl. by rewrite Hs. Qed.

Lemma for_each_cons {A : Type} (x : A) (xs : list A) (body : A → M unit) (c : Conn) :
  for_each (x :: xs) body c =
    match body x c with
    | (inr _, c') => for_each xs body c'
    | (inl e, c') => (inl e, c')
    end.
Proof. done. Qed.

Section update_loop.
Context (table key : string) (c : Z) (ves : list EmissionRow) (ieee : bool).

Let body : Z → M unit := λ i, execute (update_batch table key c (i * c)).

(** The loop when the join finds the row [ve]: after the batches at the
    offsets [offs], the rows in the union of their windows are updated. *)
Lemma update_loop_matched (ve : EmissionRow) (rest : list EmissionRow) (offs : list Z) :
  emission_matches key ves = ve :: rest →
  ∀ (tables : gmap string TripTable) (n : nat) (t : TripTable),
    tables !! table = Some t →
    all_derived_cols ⊆ derived_cols t →
    for_each offs body (mkConn (mkDatabase tables (Some ves) ieee) n None) =
      (inr tt,
       mkConn (mkDatabase
                 (<[table := with_rows t
                               (update_rows ieee ve
                                  (concat ((λ i, batch_rowids t c (i * c)) <$> offs))
                                  (rows t))]> tables)
                 (Some ves) ieee)
         (n + length offs) None).
Proof.
  intros Hmatch. induction offs as [|i offs IH]; intros tables n t Ht Hcols.
  - simpl. unfold ret. rewrite update_rows_nil, with_rows_rows, insert_id by done.
    do 3 f_equal. lia.
  - rewrite for_each_cons. unfold body at 1.
    erewrite execute_ok; last first.
    { unfold update_batch. simpl. rewrite Ht, Hmatch.
      rewrite decide_True by done. done. }
    unfold with_tables. simpl.
    erewrite IH; [|apply lookup_insert_eq|done].
    rewrite insert_insert_eq. simpl.
    rewrite update_rows_app.
    do 3 f_equal; [|lia].
    do 2 f_equal. unfold with_rows. simpl. do 3 f_equal.
    apply list_fmap_ext. intros _ j _.
    apply (batch_rowids_with_rows t). apply update_rows_rowids.
Qed.

(** The loop when the join finds no row: no statement changes anything. *)
Lemma update_loop_unmatched (offs : list Z) :
  emission_matches key ves = [] →
  ∀ (tables : gmap string TripTable) (n : nat) (t : TripTable),
    tables !! table = Some t →
    all_derived_cols ⊆ derived_cols t →
    for_each offs body (mkConn (mkDatabase tables (Some ves) ieee) n None) =
      (inr tt, mkConn (mkDatabase tables (Some ves) ieee) (n + length offs) None).
Proof.
  intros Hmatch. induction offs as [|i offs IH]; intros tables n t Ht Hcols.
  - simpl. unfold ret. do 2 f_equal. lia.
  - rewrite for_each_cons. unfold body at 1.
    erewrite execute_ok; last first.
    { unfold update_batch. simpl. rewrite Ht, Hmatch.
      rewrite decide_True by done. done. }
    erewrite IH by done. do 2 f_equal. simpl. lia.
Qed.

End update_loop.

Lemma bind_ok {A B : Type} (m : M A) (k : A → M B) (c c' : Conn) (a : A) :
  m c = (inr a, c') → bind m k c = k a c'.
Proof. intros Hm. unfold bind. by rewrite Hm. Qed.

Lemma bind_error {A B : Type} (m : M A) (k : A → M B) (c c' : Conn) (e : Exn) :
  m c = (inl e, c') → bind m k c = (inl e, c').
Proof. intros Hm. unfold bind. by rewrite Hm. Qed.

Lemma elem_of_derived_cols_add_column (c c' : DerivedCol) (t : TripTable) :
  c' ∈ derived_cols (add_column c t) ↔ c' = c ∨ c' ∈ derived_cols t.
Proof.
  unfold add_column. case_decide as Hin; simpl.
  - split; [auto|]. by intros [->|].
  - rewrite elem_of_app, list_elem_of_singleton. tauto.
Qed.

Lemma rowids_add_column (c : DerivedCol) (t : TripTable) :
  rowids (add_column c t) = rowids t.
Proof.
  unfold add_column, rowids. case_decide; [done|]. simpl.
  rewrite <-list_fmap_compose. by apply list_fmap_ext; intros _ [] _.
Qed.

Lemma count_rows_add_column (c : DerivedCol) (t : TripTable) :
  Sql.count (rows (add_column c t)) = Sql.count (rows t).
Proof.
  unfold Sql.count, add_column. case_decide; [done|]. simpl.
  by rewrite length_fmap.
Qed.

Lemma with_derived_columns_cols (t : TripTable) :
  all_derived_cols ⊆ derived_cols (Spec.with_derived_columns t).
Proof.
  intros c Hc. unfold Spec.with_derived_columns.
  rewrite !elem_of_derived_cols_add_column.
  unfold all_derived_cols in Hc.
  rewrite !elem_of_cons in Hc. rewrite elem_of_nil in Hc. tauto.
Qed.

Lemma rowids_with_derived_columns (t : TripTable) :
  rowids (Spec.with_derived_columns t) = rowids t.
Proof. unfold Spec.with_derived_columns. by rewrite !rowids_add_column. Qed.

Lemma add_column_ok (table : string) (c : DerivedCol)
    (tables : gmap string TripTable) (ves : option (list EmissionRow)) (ieee : bool)
    (n : nat) (t : TripTable) :
  tables !! table = Some t →
  execute (add_column_if_not_exists table c) (mkConn (mkDatabase tables ves ieee) n None) =
    (inr tt, mkConn (mkDatabase (<[table := add_column c t]> tables) ves ieee) (S n) None).
Proof.
  intros Ht. apply execute_ok. unfold add_column_if_not_exists. simpl. by rewrite Ht.
Qed.

Lemma batch_windows_cover (t : TripTable) (c : Z) :
  0 < c →
  rowids t ⊆ concat ((λ i, batch_rowids t c (i * c)) <$> range (batches (Sql.count (rows t)) c)).
Proof.
  intros Hc. unfold batch_rowids.
  rewrite <-BatchFacts.count_sorted_rowids, BatchFacts.batch_windows_concat by done.
  intros id. by rewrite merge_sort_Permutation.
Qed.

(** A run of [transform_trips] that meets no fault, on an existing table
    and with [vehicle_emissions] present. *)
Lemma transform_trips_ok (c : Z) (table key : string)
    (tables : gmap string TripTable) (ves : list EmissionRow) (ieee : bool)
    (n : nat) (t : TripTable) :
  0 < c →
  tables !! table = Some t →
  ∃ m,
    transform_trips c table key (mkConn (mkDatabase tables (Some ves) ieee) n None) =
      (inr (Sql.count (filter (λ r, Sql.holds (Sql.is_not_null (trip_co2_kgs r)))
                         (records (Spec.transformed ieee key ves t)))),
       mkConn (mkDatabase (<[table := Spec.transformed ieee key ves t]> tables)
                 (Some ves) ieee) m None).
Proof.
  intros Hc Ht. unfold transform_trips.
  erewrite bind_ok; [|by apply add_column_ok].
  do 5 (erewrite bind_ok; [|apply add_column_ok, lookup_insert_eq];
        rewrite insert_insert_eq).
  fold (Spec.with_derived_columns t).
  set (t1 := Spec.with_derived_columns t).
  erewrite bind_ok; last first.
  { apply execute_ok. unfold select_count. simpl. by rewrite lookup_insert_eq. }
  assert (all_derived_cols ⊆ derived_cols t1) as Hcols
    by apply with_derived_columns_cols.
  unfold Spec.transformed. fold t1.
  destruct (emission_matches key ves) as [|ve rest] eqn:Hmatch.
  - erewrite bind_ok; last first.
    { apply update_loop_unmatched with (t := t1);
        [done|apply lookup_insert_eq|done]. }
    eexists. apply execute_ok. unfold select_count_where. simpl.
    by rewrite lookup_insert_eq.
  - erewrite bind_ok; last first.
    { eapply update_loop_matched with (t := t1);
        [done|apply lookup_insert_eq|done]. }
    rewrite insert_insert_eq.
    rewrite update_rows_all by by apply (batch_windows_cover t1).
    eexists. apply execute_ok. unfold select_count_where. simpl.
    by rewrite lookup_insert_eq.
Qed.

Lemma run_transform_trips (c : Z) (table key : string) (d : Database)
    (ves : list EmissionRow) (t : TripTable) :
  0 < c →
  trip_tables d !! table = Some t →
  vehicle_emissions d = Some ves →
  let t' := Spec.transformed (ieee_floating_point_ops d) key ves t in
  run (transform_trips c table key) d =
    (inr (Sql.count (filter (λ r, Sql.holds (Sql.is_not_null (trip_co2_kgs r)))
                       (records t'))),
     with_tables d (<[table := t']> (trip_tables d))).
Proof.
  intros Hc Ht Hves. destruct d as [tables ves' ieee]. simpl in *. subst ves'.
  unfold run, connect.
  destruct (transform_trips_ok c table key tables ves ieee 0 t Hc Ht) as [m ->].
  done.
Qed.

(** For a table whose rowids are distinct and any batch size [c > 0], the
    windows [LIMIT c OFFSET i * c] for [i] in [range(batches)], taken over
    the rowids in increasing order, put end to end give every rowid of the
    table once, in order; so each row lies in the window of exactly one
    batch. *)
Lemma windows_partition (t : TripTable) (c : Z) :
  0 < c →
  NoDup (rowids t) →
  let n := batches (Sql.count (rows t)) c in
  concat ((λ i, batch_rowids t c (i * c)) <$> range n) = merge_sort Z.le (rowids t) ∧
  (∀ id, id ∈ rowids t →
     ∃ i, i ∈ range n ∧ id ∈ batch_rowids t c (i * c) ∧
          ∀ j, j ∈ range n → id ∈ batch_rowids t c (j * c) → j = i).
Proof.
  intros Hc Hnd n. subst n.
  set (ids := merge_sort Z.le (rowids t)).
  assert (ids ≡ₚ rowids t) as Hperm by apply merge_sort_Permutation.
  assert (concat ((λ i, batch_rowids t c (i * c)) <$>
                    range (batches (Sql.count (rows t)) c)) = ids) as Hcat.
  { unfold batch_rowids. rewrite <-BatchFacts.count_sorted_rowids. fold ids.
    by apply BatchFacts.batch_windows_concat. }
  split; [done|].
  intros id Hid. rewrite <-Hperm in Hid, Hnd.
  apply list_elem_of_lookup in Hid as [p Hp].
  pose proof (lookup_lt_Some _ _ _ Hp) as Hlt.
  assert (length ids = length (rows t)) as Hlen
    by (unfold ids, rowids; by rewrite merge_sort_Permutation, length_fmap).
  unfold batch_rowids. fold ids.
  exists (Z.of_nat p / c). split; [|split].
  - apply BatchFacts.elem_of_range. apply BatchFacts.window_index_range; [|done].
    unfold Sql.count. lia.
  - apply BatchFacts.elem_of_window; [done| |].
    + Z.to_euclidean_division_equations. nia.
    + exists p. split; [done|]. Z.to_euclidean_division_equations. nia.
  - intros j Hj Hin. apply BatchFacts.elem_of_range in Hj.
    apply BatchFacts.elem_of_window in Hin as (q & Hq & Hrange); [|done|lia].
    assert (q = p) as -> by by eapply NoDup_lookup.
    Z.to_euclidean_division_equations. nia.
Qed.

(** Three rows in batches of two: the windows are the rowids 2, 5 and 9. *)
Example scattered_windows :
  (λ i, batch_rowids Examples.scattered 2 (i * 2)) <$>
    range (batches (Sql.count (rows Examples.scattered)) 2) = [[2; 5]; [9]].
Proof. reflexivity. Qed.

Lemma derive_clear_column ieee ve (c : DerivedCol) (r : TripRow) :
  derive ieee ve (clear_column c r) = derive ieee ve r.
Proof. by destruct c. Qed.

Lemma derive_rows_add_column ieee ve (c : DerivedCol) (t : TripTable) :
  prod_map id (derive ieee ve) <$> rows (add_column c t) =
  prod_map id (derive ieee ve) <$> rows t.
Proof.
  unfold add_column. case_decide; [done|]. simpl.
  rewrite <-list_fmap_compose. apply list_fmap_ext. intros _ [id r] _. simpl.
  unfold prod_map. simpl. by rewrite derive_clear_column.
Qed.

(** After the six columns are added, the SET clause computes from the
    source columns of the original rows. *)
Lemma rows_all_derived ieee ve (t : TripTable) :
  rows (Spec.all_derived ieee ve (Spec.with_derived_columns t)) =
  prod_map id (derive ieee ve) <$> rows t.
Proof.
  unfold Spec.all_derived, Spec.with_derived_columns. simpl.
  by rewrite !derive_rows_add_column.
Qed.

Lemma add_column_present (c : DerivedCol) (t : TripTable) :
  c ∈ derived_cols t → add_column c t = t.
Proof. intros Hin. unfold add_column. by rewrite decide_True. Qed.

Lemma with_derived_columns_present (t : TripTable) :
  all_derived_cols ⊆ derived_cols t → Spec.with_derived_columns t = t.
Proof.
  intros Hsub. unfold Spec.with_derived_columns.
  assert (∀ c, add_column c t = t) as Hsame.
  { intros c. apply add_column_present, Hsub. by destruct c; repeat constructor. }
  by rewrite !Hsame.
Qed.

Lemma transformed_cols ieee key ves (t : TripTable) :
  all_derived_cols ⊆ derived_cols (Spec.transformed ieee key ves t).
Proof.
  unfold Spec.transformed. destruct (emission_matches key ves);
    apply with_derived_columns_cols.
Qed.

(** Transforming a transformed table gives the same table. *)
Lemma transformed_idempotent ieee key ves (t : TripTable) :
  Spec.transformed ieee key ves (Spec.transformed ieee key ves t) =
  Spec.transformed ieee key ves t.
Proof.
  pose proof (transformed_cols ieee key ves t) as Hcols.
  unfold Spec.transformed in *.
  destruct (emission_matches key ves) as [|ve rest].
  - by apply with_derived_columns_present.
  - rewrite with_derived_columns_present by done.
    unfold Spec.all_derived at 1 3. simpl. unfold with_rows. simpl. f_equal.
    rewrite <-list_fmap_compose. apply list_fmap_ext. by intros _ [id r] _.
Qed.

Lemma column_null_add_column_new (c : DerivedCol) (t : TripTable) :
  c ∉ derived_cols t →
  Forall (λ r, column_is_null c r = true) (records (add_column c t)).
Proof.
  intros Hnot. unfold add_column, records. rewrite decide_False by done. simpl.
  rewrite <-list_fmap_compose. apply Forall_fmap, Forall_true.
  intros [id r]. by destruct c.
Qed.

Lemma column_null_add_column_other (c c' : DerivedCol) (t : TripTable) :
  Forall (λ r, column_is_null c r = true) (records t) →
  Forall (λ r, column_is_null c r = true) (records (add_column c' t)).
Proof.
  intros Hall. unfold add_column, records. case_decide; [done|]. simpl.
  rewrite <-list_fmap_compose. unfold records in Hall.
  rewrite Forall_fmap in Hall. apply Forall_fmap.
  eapply Forall_impl; [done|]. intros [id r]. simpl. by destruct c, c'.
Qed.

(** A table that has none of the six columns has them all NULL once they
    are added. *)
Lemma fresh_columns_null (c : DerivedCol) (t : TripTable) :
  derived_cols t = [] →
  Forall (λ r, column_is_null c r = true) (records (Spec.with_derived_columns t)).
Proof.
  intros Hnone.
  assert (∀ c' t', c ∉ derived_cols t' → c ≠ c' → c ∉ derived_cols (add_column c' t'))
    as Hkeep by (intros c' t'; rewrite elem_of_derived_cols_add_column; tauto).
  assert (c ∉ derived_cols t) as Hnot by (rewrite Hnone; apply not_elem_of_nil).
  unfold Spec.with_derived_columns.
  destruct c;
    repeat first
      [ apply column_null_add_column_new
      | apply column_null_add_column_other
      | apply Hkeep; [|done]
      | exact Hnot ].
Qed.

Lemma batch_size_pos : 0 < batch_size.
Proof. done. Qed.

Lemma transform_unfold (c : Spec.Category) :
  Spec.transform c = transform_trips batch_size (Spec.trips_table c) (Spec.category_key c).
Proof. by destruct c. Qed.

Lemma count_not_null_zero (t : TripTable) :
  Forall (λ r, column_is_null TripCo2Kgs r = true) (records t) →
  Sql.count (filter (λ r, Sql.holds (Sql.is_not_null (trip_co2_kgs r))) (records t)) = 0.
Proof.
  intros Hall. apply SqlFacts.count_zero.
  induction Hall as [|r rs Hr _ IH]; [done|].
  rewrite filter_cons_False; [done|].
  simpl in Hr. unfold Sql.is_not_null. rewrite Hr. simpl. tauto.
Qed.

(** C5, as the code has it.  When [vehicle_emissions] has no row for the
    category's key, the transformation raises nothing: it adds the six
    columns and every batch update leaves the table as it is.  On a table
    that did not have the columns, all six are then NULL on every row and
    the count of transformed rows it reports is 0. *)
Theorem missing_rate_leaves_rows_untransformed
    (c : Spec.Category) (d : Database) (t : TripTable) (ves : list EmissionRow) :
  trip_tables d !! Spec.trips_table c = Some t →
  vehicle_emissions d = Some ves →
  emission_matches (Spec.category_key c) ves = [] →
  ∃ n,
    run (Spec.transform c) d =
      (inr n, with_tables d (<[Spec.trips_table c := Spec.with_derived_columns t]>
                               (trip_tables d))) ∧
    (derived_cols t = [] →
     n = 0 ∧
     ∀ col, Forall (λ r, column_is_null col r = true)
              (records (Spec.with_derived_columns t))).
Proof.
  intros Ht Hves Hmatch. rewrite transform_unfold.
  rewrite (run_transform_trips _ _ _ d ves t batch_size_pos Ht Hves).
  unfold Spec.transformed. rewrite Hmatch.
  eexists. split; [done|]. intros Hfresh.
  split; [|by intros col; apply fresh_columns_null].
  by apply count_not_null_zero, fresh_columns_null.
Qed.

Lemma missing_rate_leaves_rows_untransformed_witness :
  ∃ n,
    run (Spec.transform Spec.Yellow) Examples.no_yellow_rate =
      (inr n, with_tables Examples.no_yellow_rate
                (<["yellow_trips" := Spec.with_derived_columns Examples.single_trip]>
                   (trip_tables Examples.no_yellow_rate))) ∧
    n = 0 ∧
    ∀ col, Forall (λ r, column_is_null col r = true)
             (records (Spec.with_derived_columns Examples.single_trip)).
Proof.
  destruct (missing_rate_leaves_rows_untransformed Spec.Yellow Examples.no_yellow_rate
              Examples.single_trip
              [mkEmissionRow (Some "green_taxi") (Some (Qc_of_Z 350))]
              eq_refl eq_refl eq_refl) as (n & Hrun & Hfresh).
  exists n. split; [exact Hrun|]. exact (Hfresh eq_refl).
Defined.

(** C5 fails on the code: without the yellow key the yellow transformation
    returns normally, reporting 0 transformed rows and leaving the trip with
    its derived columns NULL; [transform_data] goes on to transform the
    green trips and only then fails, in the verification, on formatting a
    NULL average. *)
Lemma missing_rate_is_not_fatal :
  (run transform_yellow_trips Examples.no_yellow_rate).1 = inr 0 ∧
  records <$> (trip_tables (run transform_yellow_trips Examples.no_yellow_rate).2
                 !! "yellow_trips") = Some [Examples.row_F] ∧
  (run transform_data Examples.no_yellow_rate).1 = inl TypeError ∧
  (filter (λ r, column_is_null TripCo2Kgs r = true) <$>
     (records <$> (trip_tables (run transform_data Examples.no_yellow_rate).2
                     !! "green_trips"))) = Some [].
Proof. vm_compute. done. Qed.

(** C7.  A transformation that has run to its end leaves a database on
    which running it again changes nothing: the second run recomputes the
    same six values on every row, leaves the same database and reports the
    same count. *)
Theorem transform_is_idempotent
    (c : Spec.Category) (d : Database) (t : TripTable) (ves : list EmissionRow) :
  trip_tables d !! Spec.trips_table c = Some t →
  vehicle_emissions d = Some ves →
  ∃ n d',
    run (Spec.transform c) d = (inr n, d') ∧
    run (Spec.transform c) d' = (inr n, d').
Proof.
  intros Ht Hves. rewrite transform_unfold.
  rewrite (run_transform_trips _ _ _ d ves t batch_size_pos Ht Hves).
  eexists _, _. split; [done|].
  erewrite run_transform_trips;
    [|done|apply lookup_insert_eq|done].
  simpl. rewrite transformed_idempotent.
  unfold with_tables. simpl. by rewrite insert_insert_eq.
Qed.

Lemma transform_is_idempotent_witness :
  ∃ n d',
    run (Spec.transform Spec.Yellow) Examples.scenario = (inr n, d') ∧
    run (Spec.transform Spec.Yellow) d' = (inr n, d').
Proof.
  apply (transform_is_idempotent Spec.Yellow Examples.scenario
           Examples.scenario_table Examples.emissions); reflexivity.
Defined.

Lemma Qc_zero_div (x : Qc) : (Qc_of_Z 0 / x)%Qc = 0%Qc.
Proof. unfold Qcdiv. by rewrite Z2Qc_inj_0, Qcmult_0_l. Qed.

Lemma divide_by_zero ieee (x : option Qc) (u : Z) :
  divide ieee x (Some (Qc_of_Z (u - u) / Qc_of_Z Calendar.MICROS_PER_SEC / Qc_of_Z 3600)%Qc) =
    match x with
    | Some _ => if ieee then Some NonFinite else None
    | None => None
    end.
Proof.
  rewrite Z.sub_diag, !Qc_zero_div. unfold Qcdiv. rewrite Qcmult_0_l.
  destruct x; [|done]. unfold divide.
  rewrite (proj2 (SqlFacts.Qc_eqb_eq _ _)); [done|]. by rewrite Z2Qc_inj_0.
Qed.

Lemma elem_of_rows_transformed ieee key ves ve rest (t : TripTable) (id : Z) (r : TripRow) :
  emission_matches key ves = ve :: rest →
  (id, r) ∈ rows t →
  (id, derive ieee ve r) ∈ rows (Spec.transformed ieee key ves t).
Proof.
  intros Hmatch Hin. unfold Spec.transformed. rewrite Hmatch, rows_all_derived.
  apply list_elem_of_fmap. by exists (id, r).
Qed.

(** C8.  A row picked up and dropped off at the same instant does not make
    the transformation raise.  Its [avg_mph] is never a finite number: it
    is NULL when the distance is NULL or the engine maps a division by
    zero to NULL, and a non-finite value under IEEE semantics.  The other
    five values are computed as for any row. *)
Theorem zero_duration_gives_no_fault
    (c : Spec.Category) (d : Database) (t : TripTable)
    (ves : list EmissionRow) (ve : EmissionRow) (rest : list EmissionRow)
    (id : Z) (r : TripRow) (u : Z) :
  trip_tables d !! Spec.trips_table c = Some t →
  vehicle_emissions d = Some ves →
  emission_matches (Spec.category_key c) ves = ve :: rest →
  (id, r) ∈ rows t →
  pickup_datetime r = Some u →
  dropoff_datetime r = Some u →
  ∃ n d' t' r',
    run (Spec.transform c) d = (inr n, d') ∧
    trip_tables d' !! Spec.trips_table c = Some t' ∧
    (id, r') ∈ rows t' ∧
    avg_mph r' = match trip_distance r with
                 | Some _ => if ieee_floating_point_ops d then Some NonFinite else None
                 | None => None
                 end ∧
    (∀ q, avg_mph r' ≠ Some (Finite q)) ∧
    trip_co2_kgs r' =
      Sql.lift1 (λ g, fdiv g (Qc_of_Z 1000))
        (Sql.lift2 fmul (trip_distance r) (co2_grams_per_mile ve)) ∧
    hour_of_day r' = Some (Calendar.extract_hour u) ∧
    day_of_week r' = Some (Calendar.extract_dow u) ∧
    week_of_year r' = Some (Calendar.extract_week u) ∧
    month_of_year r' = Some (Calendar.extract_month u).
Proof.
  intros Ht Hves Hmatch Hin Hpu Hdr. rewrite transform_unfold.
  rewrite (run_transform_trips _ _ _ d ves t batch_size_pos Ht Hves).
  eexists _, _, _, (derive (ieee_floating_point_ops d) ve r).
  split; [done|]. split; [apply lookup_insert_eq|].
  split; [by eapply elem_of_rows_transformed|].
  assert (avg_mph (derive (ieee_floating_point_ops d) ve r) =
          match trip_distance r with
          | Some _ => if ieee_floating_point_ops d then Some NonFinite else None
          | None => None
          end) as Hmph.
  { unfold derive, trip_seconds. simpl. rewrite Hpu, Hdr. simpl.
    apply divide_by_zero. }
  split; [done|]. split.
  { intros q. rewrite Hmph. by destruct (trip_distance r), (ieee_floating_point_ops d). }
  unfold derive. simpl. by rewrite Hpu.
Qed.

Lemma zero_duration_gives_no_fault_witness :
  ∃ n d' t' r',
    run (Spec.transform Spec.Yellow) Examples.zero_duration = (inr n, d') ∧
    trip_tables d' !! "yellow_trips" = Some t' ∧
    (0, r') ∈ rows t' ∧
    avg_mph r' = Some NonFinite ∧
    (∀ q, avg_mph r' ≠ Some (Finite q)) ∧
    trip_co2_kgs r' = Some (Finite (Qc_of_Z 10 * Qc_of_Z 400 / Qc_of_Z 1000)%Qc) ∧
    hour_of_day r' = Some 0 ∧
    day_of_week r' = Some 1 ∧
    week_of_year r' = Some 1 ∧
    month_of_year r' = Some 1.
Proof.
  apply (zero_duration_gives_no_fault Spec.Yellow Examples.zero_duration
           (Examples.loaded [Examples.row_Z]) Examples.emissions
           (mkEmissionRow (Some "yellow_taxi") (Some (Qc_of_Z 400))) []
           0 Examples.row_Z (Examples.new_year_2024 * Calendar.MICROS_PER_SEC));
    try reflexivity.
  apply list_elem_of_here.
Defined.

#[local] Arguments divide : simpl never.

Lemma Qc_div_pos (a b : Qc) : (0 < a → 0 < b → 0 < a / b)%Qc.
Proof. intros Ha Hb. unfold Qcdiv. apply Qcmult_pos_pos; [done|by apply Qcinv_pos]. Qed.

Lemma Qc_div_nonneg (a b : Qc) : (0 ≤ a → 0 < b → 0 ≤ a / b)%Qc.
Proof.
  intros Ha Hb. unfold Qcdiv.
  apply Qcmult_nonneg_nonneg; [done|]. by apply Qclt_le_weak, Qcinv_pos.
Qed.

Lemma to_double_finite (q : Qc) :
  (0 ≤ q)%Qc → (q ≤ DBL_MAX)%Qc → to_double q = Finite q.
Proof.
  intros Hlo Hhi. unfold to_double.
  rewrite (proj2 (SqlFacts.Qc_leb_le _ _) Hhi), andb_true_r.
  rewrite (proj2 (SqlFacts.Qc_leb_le _ _)); [done|].
  eapply Qcle_trans; [|done]. by vm_compute.
Qed.

Lemma divide_nonzero ieee (a b : Qc) :
  (0 < b)%Qc → divide ieee (Some a) (Some b) = Some (to_double (a / b)%Qc).
Proof.
  intros Hb. unfold divide.
  destruct (Sql.Qc_eqb b (Qc_of_Z 0)) eqn:Heq; [|done].
  apply SqlFacts.Qc_eqb_eq in Heq. rewrite Z2Qc_inj_0 in Heq. subst b.
  by apply Qclt_not_eq in Hb.
Qed.

Lemma Qc_div_le (a b c : Qc) : (0 < c → a ≤ b * c → a / c ≤ b)%Qc.
Proof.
  intros Hc Hab. rewrite (Qcmult_le_mono_pos_r _ _ c) by done.
  rewrite CleanFacts.Qc_div_mul_cancel; [done|].
  intros ->. by apply Qclt_not_eq in Hc.
Qed.

(** The hours of a trip that lasts at least a microsecond. *)
Lemma trip_hours_bounds (us : Z) :
  0 < us →
  (0 < Qc_of_Z us / Qc_of_Z Calendar.MICROS_PER_SEC / Qc_of_Z 3600 ∧
   Qc_of_Z 1 ≤ Qc_of_Z Calendar.MICROS_PER_HOUR *
                (Qc_of_Z us / Qc_of_Z Calendar.MICROS_PER_SEC / Qc_of_Z 3600))%Qc.
Proof.
  intros Hus. split.
  - apply Qc_div_pos; [apply Qc_div_pos|]; apply CleanFacts.Qc_of_Z_pos;
      unfold Calendar.MICROS_PER_SEC; lia.
  - assert (Qc_of_Z Calendar.MICROS_PER_HOUR *
              (Qc_of_Z us / Qc_of_Z Calendar.MICROS_PER_SEC / Qc_of_Z 3600) =
            Qc_of_Z us)%Qc as ->.
    { change Calendar.MICROS_PER_HOUR with (Calendar.MICROS_PER_SEC * 3600).
      rewrite Z2Qc_inj_mul. field.
      split; apply CleanFacts.Qc_of_Z_nonzero; by vm_compute. }
    apply (proj1 (Z2Qc_inj_le 1 us)). lia.
Qed.

(** With a rate that is not NULL, the SET clause leaves no derived value of
    a valid trip NULL: a product or quotient beyond the range of DOUBLE is
    a non-finite value, not NULL. *)
Lemma derive_checked ieee (ve : EmissionRow) (rate : Qc) (r : TripRow) :
  co2_grams_per_mile ve = Some rate →
  Spec.valid_trip r →
  Spec.checked (derive ieee ve r).
Proof.
  intros Hrate [(p & Hp & Hpos) [(x & Hx & Hx0 & Hx100)
                  (pu & dr & Hpu & Hdr & Hdur & Hyear)]].
  destruct (trip_hours_bounds (dr - pu)) as [Hhours _]; [lia|].
  assert (avg_mph (derive ieee ve r) =
          Some (to_double (x / (Qc_of_Z (dr - pu) / Qc_of_Z Calendar.MICROS_PER_SEC
                                / Qc_of_Z 3600))%Qc)) as Hmph.
  { unfold derive, trip_seconds. cbn [avg_mph]. rewrite Hx, Hpu, Hdr. cbn [Sql.lift1 Sql.lift2].
    by apply divide_nonzero. }
  split.
  - intros []; unfold column_is_null; rewrite ?Hmph; try done;
      unfold derive; simpl; by rewrite ?Hx, ?Hrate, ?Hpu.
  - intros h. unfold derive. simpl. rewrite Hpu. intros [= <-].
    apply CalendarFacts.extract_hour_range.
Qed.

(** On a valid trip, with a rate that is non-negative and small enough for
    the product with a hundred miles to be a DOUBLE, the SET clause gives
    six values in range. *)
Lemma derive_in_range ieee (ve : EmissionRow) (rate : Qc) (r : TripRow) :
  co2_grams_per_mile ve = Some rate →
  (0 ≤ rate)%Qc →
  (Qc_of_Z 100 * rate ≤ DBL_MAX)%Qc →
  Spec.valid_trip r →
  Spec.derived_in_range (derive ieee ve r).
Proof.
  intros Hrate Hnonneg Hbound [(p & Hp & Hpos) [(x & Hx & Hx0 & Hx100)
                                 (pu & dr & Hpu & Hdr & Hdur & Hyear)]].
  rewrite Z2Qc_inj_0 in Hx0.
  destruct (trip_hours_bounds (dr - pu)) as [Hhours Hhour]; [lia|].
  assert (0 ≤ x * rate ≤ DBL_MAX)%Qc as [Hprod0 Hprod].
  { split; [apply Qcmult_nonneg_nonneg; [by apply Qclt_le_weak|done]|].
    eapply Qcle_trans; [|done]. by apply Qcmult_le_compat_r. }
  assert (0 ≤ x * rate / Qc_of_Z 1000 ≤ DBL_MAX)%Qc as [Hkg0 Hkg].
  { split; [apply Qc_div_nonneg; [done|by apply CleanFacts.Qc_of_Z_pos]|].
    apply Qc_div_le; [by apply CleanFacts.Qc_of_Z_pos|].
    eapply Qcle_trans; [exact Hprod|].
    rewrite <-(Qcmult_1_r DBL_MAX) at 1.
    rewrite !(Qcmult_comm DBL_MAX). apply Qcmult_le_compat_r; by vm_compute. }
  set (hours := (Qc_of_Z (dr - pu) / Qc_of_Z Calendar.MICROS_PER_SEC / Qc_of_Z 3600)%Qc)
    in *.
  assert (0 ≤ x / hours ≤ DBL_MAX)%Qc as [Hmph0 Hmph].
  { split; [apply Qc_div_nonneg; [by apply Qclt_le_weak|done]|].
    apply Qc_div_le; [done|].
    eapply Qcle_trans; [exact Hx100|].
    apply (Qcle_trans _ (Qc_of_Z 100 * (Qc_of_Z Calendar.MICROS_PER_HOUR * hours))%Qc).
    - rewrite <-(Qcmult_1_r (Qc_of_Z 100)) at 1.
      rewrite !(Qcmult_comm (Qc_of_Z 100)). apply Qcmult_le_compat_r; [|by vm_compute].
      by rewrite <-Z2Qc_inj_1.
    - rewrite Qcmult_assoc. apply Qcmult_le_compat_r; [by vm_compute|].
      by apply Qclt_le_weak. }
  unfold Spec.derived_in_range, derive, trip_seconds. simpl.
  rewrite Hx, Hrate, Hpu, Hdr. simpl. fold hours.
  rewrite divide_nonzero by done.
  unfold fmul. rewrite (to_double_finite _ Hprod0 Hprod). unfold fdiv.
  rewrite (to_double_finite _ Hkg0 Hkg), (to_double_finite _ Hmph0 Hmph).
  repeat split.
  - by eexists.
  - by eexists.
  - eexists. split; [done|]. apply CalendarFacts.extract_hour_range.
  - eexists. split; [done|]. apply CalendarFacts.extract_dow_range.
  - eexists. split; [done|]. apply CalendarFacts.extract_week_range.
  - eexists. split; [done|]. apply CalendarFacts.extract_month_range.
Qed.

(** A column value that evaluates to a finite DOUBLE. *)
Ltac finite_value :=
  match goal with
  | |- ?v = Some (Finite ?b) =>
      let H := fresh in
      assert (∃ a, v = Some (Finite a) ∧ Qeq a b) as (? & -> & H)
        by (vm_compute; eexists; split; reflexivity);
      do 2 f_equal; apply Qc_is_canon; exact H
  end.

(** Ten miles at 400 grams per mile are 4 kilograms; half an hour for ten
    miles is 20 miles per hour. *)
Example derive_row_F :
  let r := derive true (mkEmissionRow (Some "yellow_taxi") (Some (Qc_of_Z 400)))
             Examples.row_F in
  trip_co2_kgs r = Some (Finite (Qc_of_Z 4)) ∧
  avg_mph r = Some (Finite (Qc_of_Z 20)) ∧
  hour_of_day r = Some 0 ∧ day_of_week r = Some 1 ∧
  week_of_year r = Some 1 ∧ month_of_year r = Some 1.
Proof. repeat split; try reflexivity; finite_value. Qed.

Lemma filter_not_null_all (rs : list TripRow) :
  Forall Spec.derived_in_range rs →
  filter (λ r, Sql.holds (Sql.is_not_null (trip_co2_kgs r))) rs = rs.
Proof.
  induction 1 as [|r rs Hr _ IH]; [done|].
  rewrite filter_cons_True; [by rewrite IH|].
  by destruct Hr as [(q & -> & _) _].
Qed.

Lemma count_all_not_null (t : TripTable) :
  Forall Spec.derived_in_range (records t) →
  Sql.count (filter (λ r, Sql.holds (Sql.is_not_null (trip_co2_kgs r))) (records t)) =
    Sql.count (rows t).
Proof.
  intros Hall. rewrite filter_not_null_all by done.
  unfold Sql.count, records. by rewrite length_fmap.
Qed.

(** C6, as the code has it.  On a table whose rows all passed the quality
    filter, and when [vehicle_emissions] has rows for the category's key
    that all carry a rate which is not NULL, not negative and at most a
    hundredth of the largest DOUBLE, the transformation runs to its end and
    leaves every row with its six derived values non-null and in range:
    [trip_co2_kgs] and [avg_mph] finite and non-negative, [hour_of_day] in
    0..23, [day_of_week] in 0..6 and equal to the number of days since the
    last Sunday (1970-01-04, day 3 of the epoch, was a Sunday),
    [week_of_year] in 1..53, [month_of_year] in 1..12; the count it reports
    is the number of rows.  On a table that did not yet have the six
    columns they are all NULL once added, before the first batch is
    updated. *)
Theorem transformed_rows_in_range
    (c : Spec.Category) (d : Database) (t : TripTable) (ves : list EmissionRow) :
  trip_tables d !! Spec.trips_table c = Some t →
  vehicle_emissions d = Some ves →
  emission_matches (Spec.category_key c) ves ≠ [] →
  Forall (λ ve, ∃ rate, co2_grams_per_mile ve = Some rate ∧
                        (0 ≤ rate)%Qc ∧ (Qc_of_Z 100 * rate ≤ DBL_MAX)%Qc)
    (emission_matches (Spec.category_key c) ves) →
  Forall Spec.valid_trip (records t) →
  ∃ n d' t',
    run (Spec.transform c) d = (inr n, d') ∧
    trip_tables d' !! Spec.trips_table c = Some t' ∧
    rowids t' = rowids t ∧
    Forall Spec.derived_in_range (records t') ∧
    Forall (λ r, ∃ pu w, pickup_datetime r = Some pu ∧ day_of_week r = Some w ∧
                         (Calendar.epoch_day pu - 3 - w) mod 7 = 0) (records t') ∧
    n = Sql.count (rows t) ∧
    (derived_cols t = [] →
     ∀ col, Forall (λ r, column_is_null col r = true)
              (records (Spec.with_derived_columns t))).
Proof.
  intros Ht Hves Hsome Hrates Hvalid. rewrite transform_unfold.
  rewrite (run_transform_trips _ _ _ d ves t batch_size_pos Ht Hves).
  destruct (emission_matches (Spec.category_key c) ves) as [|ve rest] eqn:Hmatch; [done|].
  apply Forall_cons in Hrates as [(rate & Hrate & Hnonneg & Hbound) _].
  eexists _, _, _. split; [done|]. split; [apply lookup_insert_eq|].
  assert (rows (Spec.transformed (ieee_floating_point_ops d) (Spec.category_key c) ves t)
          = prod_map id (derive (ieee_floating_point_ops d) ve) <$> rows t) as Hrows.
  { unfold Spec.transformed. rewrite Hmatch. apply rows_all_derived. }
  assert (Forall Spec.derived_in_range
            (records (Spec.transformed (ieee_floating_point_ops d)
                        (Spec.category_key c) ves t))) as Hrange.
  { unfold records in *. rewrite Hrows, <-list_fmap_compose.
    rewrite Forall_fmap in Hvalid. apply Forall_fmap.
    eapply Forall_impl; [done|]. intros [id r] Hr. simpl in *.
    by eapply derive_in_range. }
  split; [|split; [done|split; [|split]]].
  - unfold rowids. rewrite Hrows, <-list_fmap_compose.
    by apply list_fmap_ext; intros _ [] _.
  - unfold records in *. rewrite Hrows, <-list_fmap_compose.
    rewrite Forall_fmap in Hvalid. apply Forall_fmap.
    eapply Forall_impl; [done|]. intros [id r] (_ & _ & pu & dr & Hpu & _). simpl in *.
    exists pu, (Calendar.extract_dow pu). rewrite Hpu. split; [done|]. split; [done|].
    unfold Calendar.extract_dow. CalendarFacts.div_lia.
  - rewrite count_all_not_null by done. unfold Sql.count.
    by rewrite Hrows, length_fmap.
  - intros Hfresh col. by apply fresh_columns_null.
Qed.

Lemma single_trip_valid : Forall Spec.valid_trip (records Examples.single_trip).
Proof.
  change (Forall Spec.valid_trip [Examples.row_F]).
  apply List.Forall_cons; [|apply List.Forall_nil].
  apply CleanFacts.quality_filter_valid. vm_compute. reflexivity.
Defined.

Lemma sample_rates_in_range (key : string) :
  Forall (λ ve, ∃ rate, co2_grams_per_mile ve = Some rate ∧
                        (0 ≤ rate)%Qc ∧ (Qc_of_Z 100 * rate ≤ DBL_MAX)%Qc)
    (emission_matches key Examples.emissions).
Proof.
  apply Forall_forall. intros ve Hve.
  apply list_elem_of_filter in Hve as [_ Hve].
  apply elem_of_cons in Hve as [->|Hve];
    [|apply list_elem_of_singleton in Hve as ->];
    (eexists; split; [reflexivity|]; split; by vm_compute).
Defined.

Lemma transformed_rows_in_range_witness :
  ∃ n d' t',
    run (Spec.transform Spec.Yellow) Examples.single_trips = (inr n, d') ∧
    trip_tables d' !! "yellow_trips" = Some t' ∧
    rowids t' = rowids Examples.single_trip ∧
    Forall Spec.derived_in_range (records t') ∧
    Forall (λ r, ∃ pu w, pickup_datetime r = Some pu ∧ day_of_week r = Some w ∧
                         (Calendar.epoch_day pu - 3 - w) mod 7 = 0) (records t') ∧
    n = Sql.count (rows Examples.single_trip) ∧
    ∀ col, Forall (λ r, column_is_null col r = true)
             (records (Spec.with_derived_columns Examples.single_trip)).
Proof.
  destruct (transformed_rows_in_range Spec.Yellow Examples.single_trips
              Examples.single_trip Examples.emissions eq_refl eq_refl
              ltac:(discriminate) (sample_rates_in_range "yellow_taxi")
              single_trip_valid)
    as (n & d' & t' & Hrun & Ht' & Hids & Hrange & Hdow & Hn & Hfresh).
  exists n, d', t'. repeat split; try assumption. exact (Hfresh eq_refl).
Defined.

(** C6 fails on the code as stated: on a table holding one valid trip, with
    no yellow row in [vehicle_emissions], the yellow transformation runs to
    its end and the trip has all six derived columns NULL. *)
Lemma transformation_can_complete_with_nulls :
  Forall Spec.valid_trip (records Examples.single_trip) ∧
  ∃ n d' t',
    run transform_yellow_trips Examples.no_yellow_rate = (inr n, d') ∧
    trip_tables d' !! "yellow_trips" = Some t' ∧
    records t' = [Examples.row_F] ∧
    ¬ Forall Spec.derived_in_range (records t') ∧
    ∀ col, Forall (λ r, column_is_null col r = true) (records t').
Proof.
  split; [exact single_trip_valid|].
  eexists _, _, _. split; [by vm_compute|].
  split; [by vm_compute|]. split; [by vm_compute|]. split.
  - intros Hall. apply Forall_inv in Hall as [(q & Hq & _) _]. by vm_compute in Hq.
  - intros col. repeat constructor. by destruct col.
Qed.

(** The rate matters too: a NULL rate leaves [trip_co2_kgs] NULL, and a
    negative rate makes it negative. *)
Example null_rate_gives_null_co2 :
  (run transform_yellow_trips Examples.null_rate).1 = inr 0 ∧
  fmap trip_co2_kgs <$>
    (records <$>
       (trip_tables (run transform_yellow_trips Examples.null_rate).2 !! "yellow_trips"))
  = Some [None].
Proof. by vm_compute. Qed.

Example negative_rate_gives_negative_co2 :
  trip_co2_kgs
    (derive true (mkEmissionRow (Some "yellow_taxi") (Some (Qc_of_Z (-400))))
       Examples.row_F) = Some (Finite (Qc_of_Z (-4))).
Proof. finite_value. Qed.

(** And so does its size: a valid trip of a hundred miles at 10^307 grams
    per mile, a rate that is itself a DOUBLE, has a product beyond the
    largest DOUBLE, and its [trip_co2_kgs] is not a finite number. *)
Example large_rate_gives_non_finite_co2 :
  Sql.holds (Clean.quality_filter Samples.row_far) = true ∧
  (Qc_of_Z (10 ^ 307) ≤ DBL_MAX)%Qc ∧
  (run transform_yellow_trips Samples.huge_rate).1 = inr 1 ∧
  fmap trip_co2_kgs <$>
    (records <$>
       (trip_tables (run transform_yellow_trips Samples.huge_rate).2 !! "yellow_trips"))
  = Some [Some NonFinite].
Proof. by vm_compute. Qed.

End TransformFacts.

(** ** The verification of the cleaning *)

Module VerifyCleaningFacts.
Import Model Py Engine Clean.

Lemma holds_false_iff (c : Sql.tri) : Sql.holds c = false ↔ ¬ Sql.holds c = true.
Proof. destruct (Sql.holds c); split; done. Qed.

Lemma zero_passengers_holds (r : TripRow) :
  Sql.holds (zero_passengers r) = true ↔ passenger_count r = Some 0.
Proof.
  unfold zero_passengers. rewrite SqlFacts.holds_cmp. split.
  - intros (a & b & -> & [= <-] & Heq). by apply Z.eqb_eq in Heq as ->.
  - intros ->. by exists 0, 0.
Qed.

Lemma zero_distance_holds (r : TripRow) :
  Sql.holds (zero_distance r) = true ↔ trip_distance r = Some (Qc_of_Z 0).
Proof.
  unfold zero_distance. rewrite SqlFacts.holds_cmp. split.
  - intros (a & b & -> & [= <-] & Heq). by apply SqlFacts.Qc_eqb_eq in Heq as ->.
  - intros ->. eexists _, _. split; [done|]. split; [done|].
    by apply SqlFacts.Qc_eqb_eq.
Qed.

Lemma over_100_miles_holds (r : TripRow) :
  Sql.holds (over_100_miles r) = true ↔
  ∃ x, trip_distance r = Some x ∧ (Qc_of_Z 100 < x)%Qc.
Proof.
  unfold over_100_miles. rewrite SqlFacts.holds_cmp. split.
  - intros (a & b & -> & [= <-] & Hgt). apply SqlFacts.Qc_gtb_gt in Hgt. eauto.
  - intros (x & -> & Hgt). eexists _, _. split; [done|]. split; [done|].
    by apply SqlFacts.Qc_gtb_gt.
Qed.

Lemma over_24_hours_holds (r : TripRow) :
  Sql.holds (over_24_hours r) = true ↔
  ∃ pu dr, pickup_datetime r = Some pu ∧ dropoff_datetime r = Some dr ∧
           86400 * Calendar.MICROS_PER_SEC < dr - pu.
Proof.
  unfold over_24_hours, trip_seconds. rewrite SqlFacts.holds_cmp.
  destruct (pickup_datetime r) as [pu|], (dropoff_datetime r) as [dr|]; simpl;
    try (split; [by intros (? & ? & ? & ? & ?)|by intros (? & ? & ? & ? & ?)]).
  split.
  - intros (a & b & [= <-] & [= <-] & Hgt). apply SqlFacts.Qc_gtb_gt in Hgt.
    rewrite CleanFacts.Qc_of_Z_div_gt in Hgt by done. by eexists _, _.
  - intros (pu' & dr' & [= <-] & [= <-] & Hgt). eexists _, _.
    split; [done|]. split; [done|].
    by rewrite SqlFacts.Qc_gtb_gt, CleanFacts.Qc_of_Z_div_gt.
Qed.

Lemma outside_2015_2024_holds (r : TripRow) :
  Sql.holds (outside_2015_2024 r) = true ↔
  ∃ pu, pickup_datetime r = Some pu ∧
        (Calendar.extract_year pu < 2015 ∨ 2024 < Calendar.extract_year pu).
Proof.
  unfold outside_2015_2024, pickup_year.
  rewrite SqlFacts.holds_or3, orb_true_iff.
  destruct (pickup_datetime r) as [pu|]; simpl.
  - rewrite !SqlFacts.if_bool, Z.ltb_lt, Z.gtb_lt. split; [eauto|].
    by intros (? & [= <-] & ?).
  - split; [by intros []|by intros (? & ? & ?)].
Qed.

Lemma count_filter_zero {A : Type} (P : A → Prop) `{∀ x, Decision (P x)} (l : list A) :
  Sql.count (filter P l) = 0 ↔ Forall (λ x, ¬ P x) l.
Proof.
  rewrite SqlFacts.count_zero. induction l as [|x l IH]; [done|].
  rewrite Forall_cons. destruct (decide (P x)).
  - rewrite filter_cons_True by done. split; [done|tauto].
  - rewrite filter_cons_False by done. tauto.
Qed.

Lemma length_remove_dups_le {A : Type} `{EqDecision A} (l : list A) :
  (length (remove_dups l) ≤ length l)%nat.
Proof. induction l as [|x l IH]; simpl; [done|]. case_decide; simpl; lia. Qed.

Lemma duplicate_count_nonneg {A : Type} `{EqDecision A} (l : list A) :
  0 ≤ Sql.count l - Sql.count (remove_dups l).
Proof. unfold Sql.count. pose proof (length_remove_dups_le l). lia. Qed.

Lemma duplicate_count_zero {A : Type} `{EqDecision A} (l : list A) :
  Sql.count l - Sql.count (remove_dups l) = 0 ↔ NoDup l.
Proof.
  unfold Sql.count. induction l as [|x l IH]; simpl.
  - split; [constructor|done].
  - pose proof (length_remove_dups_le l). rewrite NoDup_cons.
    case_decide; simpl; [split; [lia|tauto]|].
    rewrite <-IH. split; [split; [done|lia]|lia].
Qed.

Lemma cleaning_checks_ok (table : string) (d : Database) (n : nat) (t : TripTable) :
  trip_tables d !! table = Some t →
  cleaning_checks table (mkConn d n None) =
    (inr (Spec.cleaning_counts t), mkConn d (n + 6) None).
Proof.
  intros Ht. unfold cleaning_checks.
  do 4 (erewrite TransformFacts.bind_ok;
        [|apply TransformFacts.execute_ok; unfold select_count_where; by rewrite Ht]).
  erewrite TransformFacts.bind_ok;
    [|apply TransformFacts.execute_ok; unfold select_duplicate_count; by rewrite Ht].
  erewrite TransformFacts.bind_ok;
    [|apply TransformFacts.execute_ok; unfold select_count_where; by rewrite Ht].
  unfold ret, Spec.cleaning_counts. do 2 f_equal. lia.
Qed.

Lemma run_verify_cleaning (d : Database) (y g : TripTable) :
  trip_tables d !! "yellow_trips" = Some y →
  trip_tables d !! "green_trips" = Some g →
  run verify_cleaning d =
    (inr (sum_counts (Spec.cleaning_counts y) + sum_counts (Spec.cleaning_counts g) =? 0), d).
Proof.
  intros Hy Hg. unfold run, connect, verify_cleaning.
  erewrite TransformFacts.bind_ok; [|by apply cleaning_checks_ok].
  erewrite TransformFacts.bind_ok; [|by apply cleaning_checks_ok].
  done.
Qed.

Lemma unflagged_iff (r : TripRow) :
  Spec.unflagged r ↔
  ¬ Sql.holds (zero_passengers r) ∧ ¬ Sql.holds (zero_distance r) ∧
  ¬ Sql.holds (over_100_miles r) ∧ ¬ Sql.holds (over_24_hours r) ∧
  ¬ Sql.holds (outside_2015_2024 r).
Proof.
  rewrite !Is_true_true, zero_passengers_holds, zero_distance_holds,
    over_100_miles_holds, over_24_hours_holds, outside_2015_2024_holds.
  unfold Spec.unflagged. split.
  - intros (Hp & Hd & Hh & Hy). repeat split.
    + done.
    + intros Hx. by destruct (Hd _ Hx).
    + intros (x & Hx & Hgt). destruct (Hd _ Hx) as [_ Hle].
      by apply Qclt_not_le in Hgt.
    + intros (pu & dr & Hpu & Hdr & Hgt). specialize (Hh _ _ Hpu Hdr). lia.
    + intros (pu & Hpu & Hout). specialize (Hy _ Hpu). lia.
  - intros (Hp & Hd & Hm & Hh & Hy). split; [done|]. split; [|split].
    + intros x Hx. split.
      * intros ->. by apply Hd.
      * apply Qcnot_lt_le. intros Hgt. apply Hm. eauto.
    + intros pu dr Hpu Hdr. apply Z.nlt_ge. intros Hgt. apply Hh. by eexists _, _.
    + intros pu Hpu. split; apply Z.nlt_ge; intros Hlt; apply Hy; eauto.
Qed.

(** The counts of a table sum to zero exactly when no row is flagged by a
    check and no row occurs twice. *)
Lemma sum_counts_zero (t : TripTable) :
  0 ≤ sum_counts (Spec.cleaning_counts t) ∧
  (sum_counts (Spec.cleaning_counts t) = 0 ↔
   Forall Spec.unflagged (records t) ∧ NoDup (records t)).
Proof.
  unfold Spec.cleaning_counts, sum_counts. simpl.
  set (c1 := Sql.count (filter _ _)). set (c2 := Sql.count (filter _ _)).
  set (c3 := Sql.count (filter _ _)). set (c4 := Sql.count (filter _ _)).
  set (c5 := Sql.count (filter _ _)).
  pose proof (SqlFacts.count_nonneg (filter (λ r, Sql.holds (zero_passengers r)) (records t))).
  pose proof (SqlFacts.count_nonneg (filter (λ r, Sql.holds (zero_distance r)) (records t))).
  pose proof (SqlFacts.count_nonneg (filter (λ r, Sql.holds (over_100_miles r)) (records t))).
  pose proof (SqlFacts.count_nonneg (filter (λ r, Sql.holds (over_24_hours r)) (records t))).
  pose proof (SqlFacts.count_nonneg (filter (λ r, Sql.holds (outside_2015_2024 r)) (records t))).
  pose proof (duplicate_count_nonneg (records t)).
  split; [lia|].
  rewrite <-duplicate_count_zero.
  assert (Forall Spec.unflagged (records t) ↔
          c1 = 0 ∧ c2 = 0 ∧ c3 = 0 ∧ c4 = 0 ∧ c5 = 0) as ->.
  { subst c1 c2 c3 c4 c5. rewrite !count_filter_zero, <-!Forall_and.
    apply Forall_iff. intros r. apply unflagged_iff. }
  lia.
Qed.

Lemma null_or_valid_unflagged (r : TripRow) : Spec.null_or_valid r → Spec.unflagged r.
Proof.
  intros (Hp & Hd & Ht). unfold Spec.unflagged. split; [|split; [|split]].
  - destruct Hp as [->|(p & -> & Hpos)]; [done|]. intros [= ->]. lia.
  - intros x Hx. destruct Hd as [Hnull|(x' & Hx' & Hpos & Hle)]; [congruence|].
    assert (x' = x) as -> by congruence. split; [|done].
    intros ->. by apply Qclt_not_eq in Hpos.
  - intros pu dr Hpu Hdr.
    destruct Ht as [Hnull|(pu' & Hpu' & _ & [Hnull|(dr' & Hdr' & Hdur)])];
      try congruence.
    assert (pu' = pu) as -> by congruence. assert (dr' = dr) as -> by congruence. lia.
  - intros pu Hpu. destruct Ht as [Hnull|(pu' & Hpu' & Hyear & _)]; [congruence|].
    by assert (pu' = pu) as -> by congruence.
Qed.

Lemma valid_trip_unflagged (r : TripRow) : Spec.valid_trip r → Spec.unflagged r.
Proof.
  intros (Hp & Hd & pu & dr & Hpu & Hdr & Hdur & Hyear).
  apply null_or_valid_unflagged.
  split; [by right|]. split; [by right|].
  right. exists pu. split; [done|]. split; [done|]. right. by exists dr.
Qed.

Lemma cleaning_counts_zero (t : TripTable) :
  Forall Spec.unflagged (records t) →
  NoDup (records t) →
  Forall (λ item, item.2 = 0) (Spec.cleaning_counts t).
Proof.
  intros Hrows Hnd.
  pose proof (proj2 (proj2 (sum_counts_zero t)) (conj Hrows Hnd)) as Hsum.
  revert Hsum. unfold Spec.cleaning_counts, sum_counts. simpl.
  pose proof (SqlFacts.count_nonneg (filter (λ r, Sql.holds (zero_passengers r)) (records t))).
  pose proof (SqlFacts.count_nonneg (filter (λ r, Sql.holds (zero_distance r)) (records t))).
  pose proof (SqlFacts.count_nonneg (filter (λ r, Sql.holds (over_100_miles r)) (records t))).
  pose proof (SqlFacts.count_nonneg (filter (λ r, Sql.holds (over_24_hours r)) (records t))).
  pose proof (SqlFacts.count_nonneg (filter (λ r, Sql.holds (outside_2015_2024 r)) (records t))).
  pose proof (duplicate_count_nonneg (records t)).
  intros Hsum. repeat (apply Forall_cons; split; [simpl; lia|]). apply Forall_nil_2.
Qed.

Lemma comparison_counts_zero (t : TripTable) (name : string) (n : Z) :
  Forall Spec.unflagged (records t) →
  (name, n) ∈ Spec.cleaning_counts t →
  name ≠ "Duplicate trips" →
  n = 0.
Proof.
  intros Hrows Hin Hname.
  assert (Forall (λ r, ¬ Sql.holds (zero_passengers r) ∧ ¬ Sql.holds (zero_distance r) ∧
                       ¬ Sql.holds (over_100_miles r) ∧ ¬ Sql.holds (over_24_hours r) ∧
                       ¬ Sql.holds (outside_2015_2024 r)) (records t)) as Hall.
  { eapply Forall_impl; [done|]. intros r. apply unflagged_iff. }
  rewrite !Forall_and in Hall. destruct Hall as (H1 & H2 & H3 & H4 & H5).
  unfold Spec.cleaning_counts in Hin.
  repeat (apply elem_of_cons in Hin as [[= -> ->]|Hin]);
    try (by apply count_filter_zero); try done.
  by apply elem_of_nil in Hin.
Qed.

(** C9, as the code has it.  On tables in which each row has its passenger
    count, its distance and its timestamps either NULL or as the quality
    filter wants them, none of the five comparison checks of
    [verify_cleaning] counts a row: a NULL in a checked column is never
    counted, whatever the names of the checks say.  The duplicate check
    still counts every row that repeats another one, rows of NULLs
    included, so that [verify_cleaning] returns true exactly when no table
    holds a row twice. *)
Theorem verify_cleaning_does_not_count_nulls (d : Database) (y g : TripTable) :
  trip_tables d !! "yellow_trips" = Some y →
  trip_tables d !! "green_trips" = Some g →
  Forall Spec.null_or_valid (records y) →
  Forall Spec.null_or_valid (records g) →
  (∀ name n, (name, n) ∈ Spec.cleaning_counts y ++ Spec.cleaning_counts g →
             name ≠ "Duplicate trips" → n = 0) ∧
  ∃ b, run verify_cleaning d = (inr b, d) ∧
       (b = true ↔ NoDup (records y) ∧ NoDup (records g)).
Proof.
  intros Hy Hg Hrowsy Hrowsg.
  assert (Forall Spec.unflagged (records y)) as Huy
    by (eapply Forall_impl; [done|apply null_or_valid_unflagged]).
  assert (Forall Spec.unflagged (records g)) as Hug
    by (eapply Forall_impl; [done|apply null_or_valid_unflagged]).
  split.
  - intros name n [Hin|Hin]%elem_of_app Hname.
    + by apply (comparison_counts_zero y name).
    + by apply (comparison_counts_zero g name).
  - eexists. split; [by apply run_verify_cleaning|].
    destruct (sum_counts_zero y) as [Hy0 Hy1]. destruct (sum_counts_zero g) as [Hg0 Hg1].
    rewrite Z.eqb_eq. split.
    + intros Hsum. split; [apply Hy1|apply Hg1]; lia.
    + intros [Hndy Hndg].
      rewrite (proj2 Hy1 (conj Huy Hndy)), (proj2 Hg1 (conj Hug Hndg)). done.
Qed.

Lemma null_rows_null_or_valid : Forall Spec.null_or_valid (records Examples.null_rows).
Proof.
  change (Forall Spec.null_or_valid
            [Examples.row_no_passengers; Examples.row_no_distance;
             Examples.row_no_pickup; Examples.row_no_dropoff; Examples.row_all_null]).
  repeat (apply List.Forall_cons; [|try apply List.Forall_nil]);
    unfold Spec.null_or_valid; simpl.
  - split; [by left|]. split.
    + right. eexists. split; [done|]. by vm_compute.
    + right. eexists. split; [done|]. split; [by vm_compute|].
      right. eexists. split; [done|]. by vm_compute.
  - split; [right; exists 1; by vm_compute|]. split; [by left|].
    right. eexists. split; [done|]. split; [by vm_compute|].
    right. eexists. split; [done|]. by vm_compute.
  - split; [right; exists 1; by vm_compute|]. split; [|by left].
    right. eexists. split; [done|]. by vm_compute.
  - split; [right; exists 1; by vm_compute|]. split.
    + right. eexists. split; [done|]. by vm_compute.
    + right. eexists. split; [done|]. split; [by vm_compute|]. by left.
  - split; [by left|]. split; by left.
Defined.

Lemma null_rows_distinct : NoDup (records Examples.null_rows).
Proof.
  refine (bool_decide_unpack (NoDup (records Examples.null_rows)) _).
  vm_compute. exact I.
Defined.

Lemma verify_cleaning_does_not_count_nulls_witness :
  (∀ name n, (name, n) ∈ Spec.cleaning_counts Examples.null_rows ++
                         Spec.cleaning_counts Examples.null_rows →
             name ≠ "Duplicate trips" → n = 0) ∧
  ∃ b, run verify_cleaning Examples.with_nulls = (inr b, Examples.with_nulls) ∧
       (b = true ↔ NoDup (records Examples.null_rows) ∧ NoDup (records Examples.null_rows)).
Proof.
  apply (verify_cleaning_does_not_count_nulls Examples.with_nulls
           Examples.null_rows Examples.null_rows eq_refl eq_refl
           null_rows_null_or_valid null_rows_null_or_valid).
Defined.

(** On the five rows of that table, which are all different,
    [verify_cleaning] returns true. *)
Example verify_cleaning_on_null_rows :
  run verify_cleaning Examples.with_nulls = (inr true, Examples.with_nulls).
Proof. by vm_compute. Qed.

(** C9 fails on the code as stated: on tables that hold the row without any
    value twice, [verify_cleaning] returns false, because the duplicate
    check counts the second copy. *)
Lemma repeated_null_rows_are_counted :
  records Samples.null_twice = [Examples.row_all_null; Examples.row_all_null] ∧
  Forall Spec.null_or_valid (records Samples.null_twice) ∧
  run verify_cleaning Samples.nulls_twice = (inr false, Samples.nulls_twice) ∧
  Spec.cleaning_counts Samples.null_twice =
    [("Trips with 0/NULL passengers", 0); ("Trips with 0/NULL distance", 0);
     ("Trips > 100 miles", 0); ("Trips > 24 hours", 0);
     ("Duplicate trips", 1); ("Trips outside 2015-2024", 0)].
Proof.
  split; [done|]. split; [|split; by vm_compute].
  repeat (apply List.Forall_cons; [|try apply List.Forall_nil]);
    (split; [by left|]; split; by left).
Qed.

(** None of the five rows of that table passes the quality filter. *)
Example null_rows_all_rejected :
  filter (λ r, Sql.holds (quality_filter r)) (records Examples.null_rows) = [].
Proof. by vm_compute. Qed.

End VerifyCleaningFacts.

(** ** The verification of the transformation *)

Module VerifyTransformFacts.
Import Model Py Engine Transform.

Lemma execute_select_null_count (table : string) (c : DerivedCol)
    (d : Database) (n : nat) (t : TripTable) :
  trip_tables d !! table = Some t →
  execute (select_null_count table c) (mkConn d n None) =
    if decide (c ∈ derived_cols t)
    then (inr (null_count c t), mkConn d (S n) None)
    else (inl BinderError, mkConn d (S n) None).
Proof.
  intros Ht. case_decide.
  - apply TransformFacts.execute_ok. unfold select_null_count.
    by rewrite Ht, decide_True.
  - apply TransformFacts.execute_error. unfold select_null_count.
    by rewrite Ht, decide_False.
Qed.

Lemma all_derived_cols_subseteq (cols : list DerivedCol) :
  all_derived_cols ⊆ cols ↔
  TripCo2Kgs ∈ cols ∧ AvgMph ∈ cols ∧ HourOfDay ∈ cols ∧
  DayOfWeek ∈ cols ∧ WeekOfYear ∈ cols ∧ MonthOfYear ∈ cols.
Proof.
  split.
  - intros Hsub. repeat split; apply Hsub; unfold all_derived_cols;
      repeat first [apply list_elem_of_here | apply list_elem_of_further].
  - intros (? & ? & ? & ? & ? & ?) c _. by destruct c.
Qed.

Lemma bind_ok_ex {A B : Type} (m : M A) (k : A → M B) (c c' : Conn) (a : A)
    (r : Exn + B) (d : Database) :
  m c = (inr a, c') →
  (∃ n', k a c' = (r, mkConn d n' None)) →
  ∃ n', bind m k c = (r, mkConn d n' None).
Proof. intros Hm [n' Hk]. exists n'. by rewrite (TransformFacts.bind_ok _ _ _ _ _ Hm). Qed.

Lemma bind_error_ex {A B : Type} (m : M A) (k : A → M B) (c : Conn) (e : Exn)
    (d : Database) (n : nat) :
  m c = (inl e, mkConn d n None) →
  ∃ n', bind m k c = (inl e, mkConn d n' None).
Proof. intros Hm. exists n. by apply TransformFacts.bind_error. Qed.

(** What one table's part of [verify_transformations] does: it fails on a
    missing table or column, and on formatting a NULL average; otherwise
    it gives the sum of the six NULL counts and the statistics. *)
Lemma table_report_cases (table : string) (d : Database) (n : nat) :
  ∃ n',
    table_report table (mkConn d n None) =
      (match trip_tables d !! table with
       | None => inl CatalogError
       | Some t =>
           if decide (all_derived_cols ⊆ derived_cols t) then
             match avg_co2 (table_stats t), avg_speed (table_stats t) with
             | Some _, Some _ => inr (Spec.null_total t, table_stats t)
             | _, _ => inl TypeError
             end
           else inl BinderError
       end, mkConn d n' None).
Proof.
  unfold table_report.
  destruct (trip_tables d !! table) as [t|] eqn:Ht.
  - case_decide as Hcols.
    + pose proof (proj1 (all_derived_cols_subseteq _) Hcols)
        as (H1 & H2 & H3 & H4 & H5 & H6).
      eexists.
      do 6 (erewrite TransformFacts.bind_ok;
            [|by rewrite (execute_select_null_count _ _ _ _ t Ht), decide_True]).
      erewrite TransformFacts.bind_ok; last first.
      { apply TransformFacts.execute_ok. unfold select_stats.
        by rewrite Ht, decide_True. }
      destruct (avg_co2 (table_stats t)), (avg_speed (table_stats t)); done.
    + rewrite all_derived_cols_subseteq in Hcols.
      repeat
        match goal with
        | |- ∃ _, bind (execute (select_null_count _ ?c)) _ _ = _ =>
            destruct (decide (c ∈ derived_cols t));
            [ eapply bind_ok_ex;
              [by rewrite (execute_select_null_count _ _ _ _ t Ht), decide_True|]
            | eapply bind_error_ex;
              by rewrite (execute_select_null_count _ _ _ _ t Ht), decide_False ]
        end.
      tauto.
  - eexists. erewrite TransformFacts.bind_error; [done|].
    apply TransformFacts.execute_error. unfold select_null_count. by rewrite Ht.
Qed.

Lemma table_stats_empty (t : TripTable) :
  rows t = [] → avg_co2 (table_stats t) = None.
Proof. intros Hrows. unfold table_stats, records. by rewrite Hrows. Qed.

(** On an empty table the part of the verification for that table raises. *)
Lemma table_report_empty (table : string) (d : Database) (n : nat) (t : TripTable) :
  trip_tables d !! table = Some t →
  rows t = [] →
  ∃ e n',
    table_report table (mkConn d n None) = (inl e, mkConn d n' None) ∧
    (all_derived_cols ⊆ derived_cols t → e = TypeError).
Proof.
  intros Ht Hrows. destruct (table_report_cases table d n) as [n' Hcase].
  rewrite Ht in Hcase. rewrite (table_stats_empty t Hrows) in Hcase.
  case_decide as Hcols.
  - by exists TypeError, n'.
  - exists BinderError, n'. split; [done|]. intros Hsub. by destruct Hcols.
Qed.

(** C10.  [verify_transformations] raises when a trip table has no row:
    with the yellow table empty it never returns, and when that table has
    the six columns the exception is the [TypeError] of formatting the NULL
    average; with the green table empty it never returns either. *)
Theorem verify_transformations_raises_on_empty_table (d : Database) (t : TripTable) :
  rows t = [] →
  trip_tables d !! "yellow_trips" = Some t ∨ trip_tables d !! "green_trips" = Some t →
  ∃ e, run verify_transformations d = (inl e, d) ∧
       (trip_tables d !! "yellow_trips" = Some t →
        all_derived_cols ⊆ derived_cols t → e = TypeError).
Proof.
  intros Hrows Hempty. unfold run, connect, verify_transformations.
  destruct (table_report_cases "yellow_trips" d 0) as [n1 Hyellow].
  destruct (trip_tables d !! "yellow_trips") as [y|] eqn:Hy.
  - destruct (decide (rows y = [])) as [Hrows_y|Hrows_y].
    + destruct (table_report_empty _ d 0 y Hy Hrows_y) as (e & n' & Hrep & He).
      exists e. rewrite (TransformFacts.bind_error _ _ _ _ _ Hrep).
      split; [done|]. intros [= <-]. done.
    + destruct Hempty as [[= <-]|Hg]; [done|].
      destruct (if decide (all_derived_cols ⊆ derived_cols y) then _ else _)
        as [e|yellow].
      * exists e. rewrite (TransformFacts.bind_error _ _ _ _ _ Hyellow).
        split; [done|]. intros [= <-]. done.
      * rewrite (TransformFacts.bind_ok _ _ _ _ _ Hyellow).
        destruct (table_report_empty _ d n1 t Hg Hrows) as (e & n' & Hrep & _).
        exists e. rewrite (TransformFacts.bind_error _ _ _ _ _ Hrep).
        split; [done|]. intros [= <-]. done.
  - destruct Hempty as [?|Hg]; [done|].
    exists CatalogError. by rewrite (TransformFacts.bind_error _ _ _ _ _ Hyellow).
Qed.

Lemma verify_transformations_raises_on_empty_table_witness :
  run verify_transformations Examples.empty_tables = (inl TypeError, Examples.empty_tables).
Proof.
  destruct (verify_transformations_raises_on_empty_table Examples.empty_tables
              Examples.empty_table eq_refl (or_introl eq_refl)) as (e & Hrun & He).
  rewrite Hrun. f_equal. f_equal. by apply He.
Defined.

(** On two empty tables with the six columns the call ends in a
    [TypeError]. *)
Example verify_transformations_empty_tables :
  (run verify_transformations Examples.empty_tables).1 = inl TypeError.
Proof. vm_compute. reflexivity. Qed.

Lemma foldr_min_le (n x : Z) (xs : list Z) :
  n ≤ foldr Z.min x xs ↔ n ≤ x ∧ Forall (λ y, n ≤ y) xs.
Proof.
  induction xs as [|y xs IH]; simpl.
  - rewrite Forall_nil. tauto.
  - rewrite Forall_cons, Z.min_glb_iff, IH. tauto.
Qed.

Lemma foldr_max_le (n x : Z) (xs : list Z) :
  foldr Z.max x xs ≤ n ↔ x ≤ n ∧ Forall (λ y, y ≤ n) xs.
Proof.
  induction xs as [|y xs IH]; simpl.
  - rewrite Forall_nil. tauto.
  - rewrite Forall_cons, Z.max_lub_iff, IH. tauto.
Qed.

Lemma elem_of_omap_id (l : list (option Z)) (x : Z) : x ∈ omap id l ↔ Some x ∈ l.
Proof.
  rewrite list_elem_of_omap. split.
  - intros (y & Hy & Heq). unfold id in Heq. by subst y.
  - intros Hx. by exists (Some x).
Qed.

Lemma agg_min_ge (l : list (option Z)) (m n : Z) :
  Sql.agg_min l = Some m → n ≤ m ↔ ∀ x, Some x ∈ l → n ≤ x.
Proof.
  unfold Sql.agg_min. intros Hmin.
  setoid_rewrite <-elem_of_omap_id.
  destruct (omap id l) as [|x xs]; [done|]. injection Hmin as <-.
  rewrite foldr_min_le, Forall_forall. setoid_rewrite elem_of_cons.
  split.
  - intros [Hx Hxs] z [->|Hz]; auto.
  - intros Hall. split; [|intros z Hz]; apply Hall; auto.
Qed.

Lemma agg_max_le (l : list (option Z)) (m n : Z) :
  Sql.agg_max l = Some m → m ≤ n ↔ ∀ x, Some x ∈ l → x ≤ n.
Proof.
  unfold Sql.agg_max. intros Hmax.
  setoid_rewrite <-elem_of_omap_id.
  destruct (omap id l) as [|x xs]; [done|]. injection Hmax as <-.
  rewrite foldr_max_le, Forall_forall. setoid_rewrite elem_of_cons.
  split.
  - intros [Hx Hxs] z [->|Hz]; auto.
  - intros Hall. split; [|intros z Hz]; apply Hall; auto.
Qed.

Lemma agg_min_is_Some (l : list (option Z)) (x : Z) :
  Some x ∈ l → is_Some (Sql.agg_min l).
Proof.
  intros Hx. apply elem_of_omap_id in Hx. unfold Sql.agg_min.
  destruct (omap id l); [by apply elem_of_nil in Hx|done].
Qed.

Lemma agg_max_is_Some (l : list (option Z)) (x : Z) :
  Some x ∈ l → is_Some (Sql.agg_max l).
Proof.
  intros Hx. apply elem_of_omap_id in Hx. unfold Sql.agg_max.
  destruct (omap id l); [by apply elem_of_nil in Hx|done].
Qed.

Lemma agg_avg_Some_nonempty (l : list (option double)) :
  is_Some (agg_avg l) → l ≠ [].
Proof. intros [v Hv] ->. done. Qed.

Lemma null_count_nonneg (c : DerivedCol) (t : TripTable) : 0 ≤ null_count c t.
Proof. apply SqlFacts.count_nonneg. Qed.

Lemma null_total_zero (t : TripTable) :
  0 ≤ Spec.null_total t ∧
  (Spec.null_total t = 0 ↔ Forall Spec.derived_present (records t)).
Proof.
  unfold Spec.null_total.
  pose proof (null_count_nonneg TripCo2Kgs t). pose proof (null_count_nonneg AvgMph t).
  pose proof (null_count_nonneg HourOfDay t). pose proof (null_count_nonneg DayOfWeek t).
  pose proof (null_count_nonneg WeekOfYear t). pose proof (null_count_nonneg MonthOfYear t).
  split; [lia|].
  assert (Forall Spec.derived_present (records t) ↔
          null_count TripCo2Kgs t = 0 ∧ null_count AvgMph t = 0 ∧
          null_count HourOfDay t = 0 ∧ null_count DayOfWeek t = 0 ∧
          null_count WeekOfYear t = 0 ∧ null_count MonthOfYear t = 0) as ->; [|lia].
  unfold null_count.
  rewrite !VerifyCleaningFacts.count_filter_zero, <-!Forall_and.
  apply Forall_iff. intros r. unfold Spec.derived_present.
  setoid_rewrite Is_true_true. setoid_rewrite not_true_iff_false.
  split.
  - intros Hall. repeat split; apply Hall.
  - intros (? & ? & ? & ? & ? & ?) c. by destruct c.
Qed.

End VerifyTransformFacts.

(** ** What the two verifications return *)

Module VerifierFacts.
Import Model Py Engine.

Lemma hours_verdict (nulls : Z) (s sg : Transform.Stats) (c : Conn) (b : bool) (c' : Conn) :
  and_then (nulls =? 0)
    (Py.bind (ge (Transform.min_hour s) 0) (λ a,
       and_then a
         (Py.bind (le (Transform.max_hour s) 23) (λ b,
            and_then b
              (Py.bind (ge (Transform.min_hour sg) 0) (λ c,
                 and_then c (le (Transform.max_hour sg) 23))))))) c = (inr b, c') →
  c' = c ∧
  (b = true ↔
   nulls = 0 ∧
   (∃ x, Transform.min_hour s = Some x ∧ 0 ≤ x) ∧
   (∃ x, Transform.max_hour s = Some x ∧ x ≤ 23) ∧
   (∃ x, Transform.min_hour sg = Some x ∧ 0 ≤ x) ∧
   (∃ x, Transform.max_hour sg = Some x ∧ x ≤ 23)).
Proof.
  unfold and_then, Py.bind, ge, le, ret, raise.
  destruct (Z.eqb_spec nulls 0) as [->|Hne].
  2: { intros [= <- <-]. split; [done|]. split; [done|]. by intros (? & _). }
  destruct (Transform.min_hour s) as [a1|]; [|done].
  destruct (Z.leb_spec 0 a1).
  2: { intros [= <- <-]. split; [done|]. split; [done|].
       intros (_ & (x & [= <-] & ?) & _). lia. }
  destruct (Transform.max_hour s) as [a2|]; [|done].
  destruct (Z.leb_spec a2 23).
  2: { intros [= <- <-]. split; [done|]. split; [done|].
       intros (_ & _ & (x & [= <-] & ?) & _). lia. }
  destruct (Transform.min_hour sg) as [a3|]; [|done].
  destruct (Z.leb_spec 0 a3).
  2: { intros [= <- <-]. split; [done|]. split; [done|].
       intros (_ & _ & _ & (x & [= <-] & ?) & _). lia. }
  destruct (Transform.max_hour sg) as [a4|]; [|done].
  destruct (Z.leb_spec a4 23); intros [= <- <-]; (split; [done|]).
  - split; [|done]. intros _. repeat split; eauto.
  - split; [done|]. intros (_ & _ & _ & _ & (x & [= <-] & ?)). lia.
Qed.

Lemma elem_of_hours (rs : list TripRow) (x : Z) :
  Some x ∈ hour_of_day <$> rs ↔ ∃ r, r ∈ rs ∧ hour_of_day r = Some x.
Proof.
  rewrite list_elem_of_fmap. split; intros (r & ? & ?); by exists r.
Qed.

(** On a table with a non-NULL average and no NULL derived value, the
    minimum and maximum hours are within 0..23 exactly when every row's
    hour is. *)
Lemma hours_bounds (t : TripTable) :
  is_Some (Transform.avg_co2 (Transform.table_stats t)) →
  Forall Spec.derived_present (records t) →
  (∃ x, Transform.min_hour (Transform.table_stats t) = Some x ∧ 0 ≤ x) ∧
  (∃ x, Transform.max_hour (Transform.table_stats t) = Some x ∧ x ≤ 23) ↔
  Forall Spec.hour_in_range (records t).
Proof.
  intros Havg Hpresent. unfold Transform.table_stats in *. simpl in *.
  apply VerifyTransformFacts.agg_avg_Some_nonempty in Havg.
  destruct (records t) as [|r0 rs] eqn:Hrs; [done|].
  assert (∃ h0, hour_of_day r0 = Some h0) as [h0 Hh0].
  { apply Forall_inv in Hpresent. specialize (Hpresent HourOfDay). simpl in Hpresent.
    destruct (hour_of_day r0); [eauto|done]. }
  assert (Some h0 ∈ hour_of_day <$> r0 :: rs) as Hin
    by (apply elem_of_hours; exists r0; split; [apply list_elem_of_here|done]).
  destruct (VerifyTransformFacts.agg_min_is_Some _ _ Hin) as [lo Hlo].
  destruct (VerifyTransformFacts.agg_max_is_Some _ _ Hin) as [hi Hhi].
  rewrite Hlo, Hhi.
  pose proof (VerifyTransformFacts.agg_min_ge _ lo 0 Hlo) as Hmin.
  pose proof (VerifyTransformFacts.agg_max_le _ hi 23 Hhi) as Hmax.
  rewrite Forall_forall. unfold Spec.hour_in_range. split.
  - intros [(x & [= <-] & Hx) (x' & [= <-] & Hx')] r Hr h Hh.
    split; [apply Hmin|apply Hmax]; try done; apply elem_of_hours; eauto.
  - intros Hall. split; eexists; (split; [done|]).
    + apply Hmin. intros x (r & Hr & Hx)%elem_of_hours. by apply (Hall r Hr x).
    + apply Hmax. intros x (r & Hr & Hx)%elem_of_hours. by apply (Hall r Hr x).
Qed.

(** When one table's part of the verification returns, the table has the
    six columns and a non-NULL average, and the values returned are its
    NULL total and its statistics. *)
Lemma table_report_returns (table : string) (d : Database) (n : nat) (t : TripTable)
    (v : Z * Transform.Stats) (c' : Conn) :
  trip_tables d !! table = Some t →
  Transform.table_report table (mkConn d n None) = (inr v, c') →
  v = (Spec.null_total t, Transform.table_stats t) ∧
  is_Some (Transform.avg_co2 (Transform.table_stats t)) ∧
  ∃ n', c' = mkConn d n' None.
Proof.
  intros Ht Hrep.
  destruct (VerifyTransformFacts.table_report_cases table d n) as [n' Hcase].
  rewrite Ht, Hrep in Hcase. case_decide; [|done].
  destruct (Transform.avg_co2 (Transform.table_stats t)); [|done].
  destruct (Transform.avg_speed (Transform.table_stats t)); [|done].
  injection Hcase as -> ->. eauto.
Qed.

Lemma counts_all_zero (t : TripTable) :
  Clean.sum_counts (Spec.cleaning_counts t) = 0 ↔
  Forall (λ item, item.2 = 0) (Spec.cleaning_counts t).
Proof.
  split.
  - intros Hsum. apply VerifyCleaningFacts.sum_counts_zero in Hsum as [? ?].
    by apply VerifyCleaningFacts.cleaning_counts_zero.
  - unfold Spec.cleaning_counts, Clean.sum_counts. rewrite !Forall_cons. simpl. lia.
Qed.

Lemma countable_unflagged (r : TripRow) :
  Outcome.countable r → (Spec.unflagged r ↔ Spec.valid_trip r).
Proof.
  intros ((p & Hp & Hp0) & (x & Hx & Hx0) & (pu & dr & Hpu & Hdr & Hdur)).
  split; [|apply VerifyCleaningFacts.valid_trip_unflagged].
  intros (Hpass & Hdist & Htime & Hyear). split; [|split].
  - exists p. split; [done|]. assert (p ≠ 0) by congruence. lia.
  - exists x. split; [done|]. destruct (Hdist x Hx) as [Hne Hle]. split; [|done].
    apply Qcle_lt_or_eq in Hx0 as [?|Heq]; [done|]. by destruct Hne.
  - exists pu, dr. split; [done|]. split; [done|].
    specialize (Htime pu dr Hpu Hdr). specialize (Hyear pu Hpu). lia.
Qed.

Lemma plausible_checked (r : TripRow) :
  Outcome.plausible r → (Spec.checked r ↔ Spec.derived_in_range r).
Proof.
  intros (Hco2 & Hmph & Hdow & Hweek & Hmonth). split.
  - intros [Hpresent Hhour].
    assert (∀ (A : Type) (x : option A), Sql.is_null x = false → is_Some x) as Hsome
      by (intros A [a|]; [eauto|done]).
    destruct (Hsome _ _ (Hpresent TripCo2Kgs)) as [v1 E1].
    destruct (Hsome _ _ (Hpresent AvgMph)) as [v2 E2].
    destruct (Hsome _ _ (Hpresent HourOfDay)) as [h E3].
    destruct (Hsome _ _ (Hpresent DayOfWeek)) as [w E4].
    destruct (Hsome _ _ (Hpresent WeekOfYear)) as [k E5].
    destruct (Hsome _ _ (Hpresent MonthOfYear)) as [m E6].
    destruct (Hco2 v1 E1) as (q1 & -> & ?). destruct (Hmph v2 E2) as (q2 & -> & ?).
    split; [by exists q1|]. split; [by exists q2|].
    split; [exists h; split; [done|by apply Hhour]|].
    split; [exists w; split; [done|by apply Hdow]|].
    split; [exists k; split; [done|by apply Hweek]|].
    exists m. split; [done|by apply Hmonth].
  - intros ((q1 & H1 & _) & (q2 & H2 & _) & (h & H3 & Hh) & (w & H4 & _)
            & (w' & H5 & _) & (m & H6 & _)).
    split.
    + intros []; unfold column_is_null; by rewrite ?H1, ?H2, ?H3, ?H4, ?H5, ?H6.
    + intros h' Hh'. rewrite H3 in Hh'. by injection Hh' as <-.
Qed.

(** On a table with a non-NULL average and no NULL derived value, the
    minimum and the maximum of the hours are not NULL. *)
Lemma hours_present (t : TripTable) :
  is_Some (Transform.avg_co2 (Transform.table_stats t)) →
  Forall Spec.derived_present (records t) →
  is_Some (Transform.min_hour (Transform.table_stats t)) ∧
  is_Some (Transform.max_hour (Transform.table_stats t)).
Proof.
  intros Havg Hpresent. unfold Transform.table_stats in *. simpl in *.
  apply VerifyTransformFacts.agg_avg_Some_nonempty in Havg.
  destruct (records t) as [|r0 rs] eqn:Hrs; [done|].
  assert (∃ h0, hour_of_day r0 = Some h0) as [h0 Hh0].
  { apply Forall_inv in Hpresent. specialize (Hpresent HourOfDay). simpl in Hpresent.
    destruct (hour_of_day r0); [eauto|done]. }
  assert (Some h0 ∈ hour_of_day <$> r0 :: rs) as Hin
    by (apply elem_of_hours; exists r0; split; [apply list_elem_of_here|done]).
  split; [by eapply VerifyTransformFacts.agg_min_is_Some
         |by eapply VerifyTransformFacts.agg_max_is_Some].
Qed.

(** The last line of [verify_transformations] returns once the minimum and
    maximum hours are not NULL, which it needs only when no NULL was
    counted. *)
Lemma verdict_returns (nulls : Z) (s sg : Transform.Stats) (c : Conn) :
  (nulls = 0 →
   is_Some (Transform.min_hour s) ∧ is_Some (Transform.max_hour s) ∧
   is_Some (Transform.min_hour sg) ∧ is_Some (Transform.max_hour sg)) →
  ∃ b,
    and_then (nulls =? 0)
      (Py.bind (ge (Transform.min_hour s) 0) (λ a,
         and_then a
           (Py.bind (le (Transform.max_hour s) 23) (λ b,
              and_then b
                (Py.bind (ge (Transform.min_hour sg) 0) (λ c,
                   and_then c (le (Transform.max_hour sg) 23))))))) c = (inr b, c).
Proof.
  intros Hsome. unfold and_then, Py.bind, ge, le, ret, raise.
  destruct (Z.eqb_spec nulls 0) as [Hz|Hnz]; [|by eexists].
  destruct (Hsome Hz) as ([a1 ->] & [a2 ->] & [a3 ->] & [a4 ->]).
  destruct (0 <=? a1); [|by eexists]. destruct (a2 <=? 23); [|by eexists].
  destruct (0 <=? a3); [|by eexists]. by eexists.
Qed.

(** C4, as the code has it.  The verification is two functions, and
    nothing combines their results.  [verify_cleaning] returns true exactly
    when its twelve violation counts, six per table, are all zero; on
    tables whose rows have a passenger count and a distance that are not
    NULL and not negative, both timestamps, and the dropoff after the
    pickup, that is exactly when every row meets predicates 1 to 6 of the
    quality filter and no row occurs twice, rows being compared on all
    their columns.  [verify_transformations] returns a verdict on tables
    that have the six columns and a non-NULL average of [trip_co2_kgs] and
    of [avg_mph]; on tables whose derived values other than the hour are
    in range whenever they are not NULL, the verdict is true exactly when
    all six derived values of every row are present and in range. *)
Theorem verifier_results (d : Database) (y g : TripTable) :
  trip_tables d !! "yellow_trips" = Some y →
  trip_tables d !! "green_trips" = Some g →
  (∃ b, run Clean.verify_cleaning d = (inr b, d) ∧
        (b = true ↔
         Forall (λ item, item.2 = 0) (Spec.cleaning_counts y ++ Spec.cleaning_counts g)) ∧
        (Forall Outcome.countable (records y) →
         Forall Outcome.countable (records g) →
         (b = true ↔
          Forall Spec.valid_trip (records y) ∧ NoDup (records y) ∧
          Forall Spec.valid_trip (records g) ∧ NoDup (records g)))) ∧
  (all_derived_cols ⊆ derived_cols y →
   all_derived_cols ⊆ derived_cols g →
   is_Some (Transform.avg_co2 (Transform.table_stats y)) →
   is_Some (Transform.avg_speed (Transform.table_stats y)) →
   is_Some (Transform.avg_co2 (Transform.table_stats g)) →
   is_Some (Transform.avg_speed (Transform.table_stats g)) →
   ∃ b, run Transform.verify_transformations d = (inr b, d) ∧
        (Forall Outcome.plausible (records y) →
         Forall Outcome.plausible (records g) →
         (b = true ↔
          Forall Spec.derived_in_range (records y) ∧
          Forall Spec.derived_in_range (records g)))).
Proof.
  intros Hy Hg. split.
  - eexists. split; [by apply VerifyCleaningFacts.run_verify_cleaning|].
    destruct (VerifyCleaningFacts.sum_counts_zero y) as [Hy0 Hy1].
    destruct (VerifyCleaningFacts.sum_counts_zero g) as [Hg0 Hg1].
    rewrite Z.eqb_eq. split.
    + rewrite Forall_app, <-!counts_all_zero. lia.
    + intros Hcy Hcg.
      assert (∀ t, Forall Outcome.countable (records t) →
                   (Forall Spec.unflagged (records t) ↔
                    Forall Spec.valid_trip (records t))) as Hsame.
      { intros t Hc. rewrite !Forall_forall. rewrite Forall_forall in Hc.
        split; intros Hall r Hr;
          [apply (proj1 (countable_unflagged r (Hc r Hr)))
          |apply (proj2 (countable_unflagged r (Hc r Hr)))]; by apply Hall. }
      rewrite <-(Hsame y Hcy), <-(Hsame g Hcg). split.
      * intros Hsum. destruct Hy1 as [[? ?] _]; [lia|].
        destruct Hg1 as [[? ?] _]; [lia|]. done.
      * intros (? & ? & ? & ?). destruct Hy1 as [_ ->]; [|done].
        destruct Hg1 as [_ ->]; done.
  - intros Hcy Hcg [ay Hay] [sy Hsy] [ag Hag] [sg Hsg].
    destruct (VerifyTransformFacts.null_total_zero y) as [Hny Hpy].
    destruct (VerifyTransformFacts.null_total_zero g) as [Hng Hpg].
    assert (∃ b, run Transform.verify_transformations d = (inr b, d) ∧
                 (b = true ↔
                  Forall Spec.checked (records y) ∧ Forall Spec.checked (records g)))
      as (b & Hrun & Hb).
    { unfold run, connect, Transform.verify_transformations.
      destruct (VerifyTransformFacts.table_report_cases "yellow_trips" d 0) as [n1 Hyellow].
      rewrite Hy, decide_True, Hay, Hsy in Hyellow by done.
      rewrite (TransformFacts.bind_ok _ _ _ _ _ Hyellow).
      destruct (VerifyTransformFacts.table_report_cases "green_trips" d n1) as [n2 Hgreen].
      rewrite Hg, decide_True, Hag, Hsg in Hgreen by done.
      rewrite (TransformFacts.bind_ok _ _ _ _ _ Hgreen).
      cbn [fst snd].
      edestruct (verdict_returns (Spec.null_total y + Spec.null_total g)
                   (Transform.table_stats y) (Transform.table_stats g)
                   (mkConn d n2 None)) as [b Hverdict].
      { intros Hnulls.
        destruct (hours_present y) as [? ?]; [by rewrite Hay|apply Hpy; lia|].
        destruct (hours_present g) as [? ?]; [by rewrite Hag|apply Hpg; lia|]. done. }
      exists b. rewrite Hverdict. split; [done|].
      apply hours_verdict in Hverdict as [_ ->].
      unfold Spec.checked. rewrite !Forall_and. split.
      - intros (Hnulls & Hmin_y & Hmax_y & Hmin_g & Hmax_g).
        assert (Forall Spec.derived_present (records y)) as Hall_y by (apply Hpy; lia).
        assert (Forall Spec.derived_present (records g)) as Hall_g by (apply Hpg; lia).
        repeat split; try done; apply hours_bounds; try done;
          by rewrite ?Hay, ?Hag.
      - intros [[Hall_y Hhours_y] [Hall_g Hhours_g]].
        apply Hpy in Hall_y as Hzero_y. apply Hpg in Hall_g as Hzero_g.
        apply hours_bounds in Hhours_y as [? ?]; [|by rewrite Hay|done].
        apply hours_bounds in Hhours_g as [? ?]; [|by rewrite Hag|done].
        repeat split; try done. lia. }
    exists b. split; [done|].
    intros Hply Hplg. rewrite Hb.
    assert (∀ t, Forall Outcome.plausible (records t) →
                 (Forall Spec.checked (records t) ↔
                  Forall Spec.derived_in_range (records t))) as Hsame.
    { intros t Hp. rewrite !Forall_forall. rewrite Forall_forall in Hp.
      split; intros Hall r Hr;
        [apply (proj1 (plausible_checked r (Hp r Hr)))
        |apply (proj2 (plausible_checked r (Hp r Hr)))]; by apply Hall. }
    by rewrite (Hsame y Hply), (Hsame g Hplg).
Qed.

Lemma in_range_plausible (r : TripRow) : Spec.derived_in_range r → Outcome.plausible r.
Proof.
  intros ((q1 & E1 & Hq1) & (q2 & E2 & Hq2) & (h & E3 & Hh) & (w & E4 & Hw)
          & (k & E5 & Hk) & (m & E6 & Hm)).
  unfold Outcome.plausible. rewrite E1, E2, E4, E5, E6.
  split; [intros ? [= <-]; eauto|]. split; [intros ? [= <-]; eauto|].
  split; [by intros ? [= <-]|]. split; by intros ? [= <-].
Qed.

Lemma sample_rows_countable :
  Forall Outcome.countable (records Samples.single_trip_transformed).
Proof.
  apply Forall_forall. intros r ->%list_elem_of_singleton.
  split; [exists 1; split; [reflexivity|lia]|].
  split; [exists (Qc_of_Z 10); split; [reflexivity|by vm_compute]|].
  eexists _, _. split; [reflexivity|]. split; [reflexivity|]. by vm_compute.
Defined.

Lemma sample_rows_plausible :
  Forall Outcome.plausible (records Samples.single_trip_transformed).
Proof.
  apply Forall_forall. intros r ->%list_elem_of_singleton.
  apply in_range_plausible.
  apply (TransformFacts.derive_in_range true _ (Qc_of_Z 400));
    [reflexivity|by vm_compute|by vm_compute|].
  apply CleanFacts.quality_filter_valid. by vm_compute.
Defined.

Lemma verifier_results_witness :
  let t := Samples.single_trip_transformed in
  (∃ b, run Clean.verify_cleaning Samples.single_trips_transformed =
          (inr b, Samples.single_trips_transformed) ∧
        (b = true ↔
         Forall (λ item, item.2 = 0) (Spec.cleaning_counts t ++ Spec.cleaning_counts t)) ∧
        (b = true ↔
         Forall Spec.valid_trip (records t) ∧ NoDup (records t) ∧
         Forall Spec.valid_trip (records t) ∧ NoDup (records t))) ∧
  (∃ b, run Transform.verify_transformations Samples.single_trips_transformed =
          (inr b, Samples.single_trips_transformed) ∧
        (b = true ↔
         Forall Spec.derived_in_range (records t) ∧
         Forall Spec.derived_in_range (records t))).
Proof.
  destruct (verifier_results Samples.single_trips_transformed
              Samples.single_trip_transformed Samples.single_trip_transformed
              eq_refl eq_refl) as [(b1 & Hrun1 & Hcounts & Hvalid) Htransformations].
  split.
  - exists b1. split; [exact Hrun1|]. split; [exact Hcounts|].
    exact (Hvalid sample_rows_countable sample_rows_countable).
  - destruct Htransformations as (b2 & Hrun2 & Hrange);
      try apply TransformFacts.transformed_cols; try by (vm_compute; eexists).
    exists b2. split; [exact Hrun2|].
    exact (Hrange sample_rows_plausible sample_rows_plausible).
Defined.

(** On those tables both verifications return true. *)
Example both_verifications_return_true :
  run Clean.verify_cleaning Samples.single_trips_transformed =
    (inr true, Samples.single_trips_transformed) ∧
  run Transform.verify_transformations Samples.single_trips_transformed =
    (inr true, Samples.single_trips_transformed).
Proof. by vm_compute. Qed.

(** C4 fails on the code: no function returns the conjunction of the two
    verdicts.  [verify_cleaning] returns true on tables whose only row is a
    valid trip with every derived value NULL, on which
    [verify_transformations] does not return true;
    [verify_transformations] returns true on tables whose only row has no
    passenger, which the quality filter rejects and on which
    [verify_cleaning] returns false. *)
Lemma verifications_are_independent :
  (run Clean.verify_cleaning Examples.single_trips).1 = inr true ∧
  (∀ col, Forall (λ r, column_is_null col r = true) (records Examples.single_trip)) ∧
  (run Transform.verify_transformations Examples.single_trips).1 ≠ inr true ∧
  (run Transform.verify_transformations Examples.unclean_transformed).1 = inr true ∧
  Sql.holds (Clean.quality_filter Examples.row_A_transformed) = false ∧
  (run Clean.verify_cleaning Examples.unclean_transformed).1 = inr false.
Proof.
  split; [by vm_compute|]. split; [|by vm_compute].
  intros col. repeat constructor. by destruct col.
Qed.

(** The duplicate count of [verify_cleaning] compares whole rows, derived
    columns included: a trip and its transformed copy are two rows, a trip
    and its plain copy are a duplicate. *)
Example duplicate_check_compares_derived_columns :
  Outcome.source_columns Samples.row_F_transformed =
    Outcome.source_columns Examples.row_F ∧
  (run Clean.verify_cleaning Samples.half_transformed).1 = inr true ∧
  (run Clean.verify_cleaning Samples.untransformed_twice).1 = inr false.
Proof. by vm_compute. Qed.

(** Outside the rows on which the counts and the quality filter can only
    agree: a trip of minus five miles, which the filter rejects, is counted
    by no check. *)
Example negative_distance_is_not_counted :
  (run Clean.verify_cleaning Examples.unverified).1 = inr true ∧
  Sql.holds (Clean.quality_filter Examples.row_negative) = false.
Proof. by vm_compute. Qed.

End VerifierFacts.

(** * Further properties of the scripts *)

(** ** clean.py as a whole *)

Module CleanRuns.
Import Model Py Engine Clean.

(** A cleaning that meets no fault, from any point of a connection. *)
Lemma clean_trips_ok (table temp : string) (d : Database) (n : nat) (t : TripTable) :
  table ≠ temp →
  trip_tables d !! table = Some t →
  clean_trips table temp (mkConn d n None) =
    (inr (mkCleanReport (Sql.count (rows t)) (Sql.count (rows (cleaned_table t)))
            (Sql.count (rows t) - Sql.count (rows (cleaned_table t)))),
     mkConn
       (with_tables d
          (<[table := cleaned_table t]>
             (delete temp (delete table (<[temp := cleaned_table t]> (trip_tables d))))))
       (n + 5) None).
Proof.
  intros Hne Ht. unfold clean_trips.
  erewrite TransformFacts.bind_ok; last first.
  { apply TransformFacts.execute_ok. unfold select_count. by rewrite Ht. }
  erewrite TransformFacts.bind_ok; last first.
  { apply TransformFacts.execute_ok. unfold create_or_replace_cleaned. by rewrite Ht. }
  erewrite TransformFacts.bind_ok; last first.
  { apply TransformFacts.execute_ok. unfold drop_table. simpl.
    by rewrite lookup_insert_ne, Ht. }
  erewrite TransformFacts.bind_ok; last first.
  { apply TransformFacts.execute_ok. unfold rename_table. simpl.
    by rewrite lookup_delete_ne, lookup_insert_eq, lookup_delete_eq. }
  erewrite TransformFacts.bind_ok; last first.
  { apply TransformFacts.execute_ok. unfold select_count. simpl.
    by rewrite lookup_insert_eq. }
  unfold ret, with_tables. simpl. do 2 f_equal. lia.
Qed.

(** The tables of the database after a cleaning of [table]. *)
Lemma cleaned_lookup (table temp name : string) (tables : gmap string TripTable)
    (t : TripTable) :
  table ≠ temp →
  (<[table := t]> (delete temp (delete table (<[temp := t]> tables)))) !! name =
    if decide (name = table) then Some t
    else if decide (name = temp) then None
    else tables !! name.
Proof.
  intros Hne. case_decide as Htable.
  - subst. apply lookup_insert_eq.
  - rewrite lookup_insert_ne by done. case_decide as Htemp.
    + subst. apply lookup_delete_eq.
    + by rewrite !lookup_delete_ne, lookup_insert_ne.
Qed.

Lemma filter_all {A : Type} (P : A → Prop) `{∀ x, Decision (P x)} (l : list A) :
  Forall P l → filter P l = l.
Proof.
  induction 1 as [|x l Hx _ IH]; [done|]. by rewrite filter_cons_True, IH.
Qed.

Lemma remove_dups_NoDup {A : Type} `{EqDecision A} (l : list A) :
  NoDup l → remove_dups l = l.
Proof.
  induction 1 as [|x l Hx _ IH]; [done|]. simpl.
  destruct (decide_rel elem_of x l); [done|]. by rewrite IH.
Qed.

(** Cleaning a cleaned table selects the same rows. *)
Lemma cleaned_table_idempotent (t : TripTable) :
  cleaned_table (cleaned_table t) = cleaned_table t.
Proof.
  unfold cleaned_table at 1 3. simpl. f_equal.
  unfold cleaned_rows at 1. rewrite CleanFacts.records_cleaned_table.
  rewrite filter_all.
  - by rewrite remove_dups_NoDup by apply NoDup_remove_dups.
  - apply Forall_forall. intros r Hr. apply Is_true_true.
    apply CleanFacts.quality_filter_valid. by apply CleanFacts.elem_of_cleaned_rows in Hr as [_ ?].
Qed.

Lemma verify_cleaning_ok (d : Database) (n : nat) (y g : TripTable) :
  trip_tables d !! "yellow_trips" = Some y →
  trip_tables d !! "green_trips" = Some g →
  verify_cleaning (mkConn d n None) =
    (inr (sum_counts (Spec.cleaning_counts y) + sum_counts (Spec.cleaning_counts g) =? 0),
     mkConn d (n + 6 + 6) None).
Proof.
  intros Hy Hg. unfold verify_cleaning.
  erewrite TransformFacts.bind_ok; [|by apply VerifyCleaningFacts.cleaning_checks_ok].
  erewrite TransformFacts.bind_ok; [|by apply VerifyCleaningFacts.cleaning_checks_ok].
  done.
Qed.

(** A cleaned table has all its counts at zero. *)
Lemma cleaned_table_counts (t : TripTable) :
  sum_counts (Spec.cleaning_counts (cleaned_table t)) = 0.
Proof.
  apply VerifyCleaningFacts.sum_counts_zero.
  rewrite CleanFacts.records_cleaned_table. split; [|apply NoDup_remove_dups].
  apply Forall_forall. intros r Hr. apply VerifyCleaningFacts.valid_trip_unflagged.
  by apply CleanFacts.elem_of_cleaned_rows in Hr as [_ ?].
Qed.

Lemma cleaned_database_lookups (d : Database) (y g : TripTable) :
  trip_tables (Outcome.cleaned_database d y g) !! "yellow_trips" = Some (cleaned_table y) ∧
  trip_tables (Outcome.cleaned_database d y g) !! "green_trips" = Some (cleaned_table g).
Proof.
  unfold Outcome.cleaned_database. simpl. split.
  - rewrite cleaned_lookup by done. rewrite decide_False, decide_False by done.
    apply lookup_insert_eq.
  - apply lookup_insert_eq.
Qed.

Lemma run_clean_main (d : Database) (y g : TripTable) :
  trip_tables d !! "yellow_trips" = Some y →
  trip_tables d !! "green_trips" = Some g →
  run clean_main d = (inr tt, Outcome.cleaned_database d y g).
Proof.
  intros Hy Hg.
  unfold run, connect, clean_main, clean_yellow_trips, clean_green_trips.
  erewrite TransformFacts.bind_ok; [|by apply clean_trips_ok].
  erewrite TransformFacts.bind_ok; last first.
  { apply clean_trips_ok; [done|]. simpl.
    rewrite cleaned_lookup by done. by rewrite decide_False, decide_False. }
  destruct (cleaned_database_lookups d y g) as [Hy' Hg'].
  erewrite TransformFacts.bind_ok; [|by apply verify_cleaning_ok].
  done.
Qed.

(** The rows of a cleaned table, whatever their order: each valid row of
    the table, once. *)
Lemma cleaned_table_rows (t : TripTable) :
  NoDup (records (cleaned_table t)) ∧
  ∀ r, r ∈ records (cleaned_table t) ↔ r ∈ records t ∧ Spec.valid_trip r.
Proof.
  rewrite CleanFacts.records_cleaned_table. split.
  - apply NoDup_remove_dups.
  - apply CleanFacts.elem_of_cleaned_rows.
Qed.

(** X1.  On a database that has both trip tables, the cleaning script runs
    to its end.  It leaves under each table's name a table that holds the
    valid rows of the table it found, each once, and no table under the
    two temporary names; the verification it then runs, like any later one
    on the database it leaves, returns true.  Nothing is said of the order
    of the rows. *)
Theorem clean_main_leaves_verified_tables (d : Database) (y g : TripTable) :
  trip_tables d !! "yellow_trips" = Some y →
  trip_tables d !! "green_trips" = Some g →
  ∃ d' y' g',
    run clean_main d = (inr tt, d') ∧
    trip_tables d' !! "yellow_trips" = Some y' ∧
    trip_tables d' !! "green_trips" = Some g' ∧
    NoDup (records y') ∧ NoDup (records g') ∧
    (∀ r, r ∈ records y' ↔ r ∈ records y ∧ Spec.valid_trip r) ∧
    (∀ r, r ∈ records g' ↔ r ∈ records g ∧ Spec.valid_trip r) ∧
    trip_tables d' !! "yellow_trips_temp" = None ∧
    trip_tables d' !! "green_trips_temp" = None ∧
    run verify_cleaning d' = (inr true, d').
Proof.
  intros Hy Hg.
  destruct (cleaned_database_lookups d y g) as [Hy' Hg'].
  destruct (cleaned_table_rows y) as [Hndy Hrowsy].
  destruct (cleaned_table_rows g) as [Hndg Hrowsg].
  exists (Outcome.cleaned_database d y g), (cleaned_table y), (cleaned_table g).
  split; [by apply run_clean_main|]. do 6 (split; [done|]).
  split; [|split].
  - unfold Outcome.cleaned_database, with_tables. cbn [trip_tables].
    rewrite cleaned_lookup by done. rewrite decide_False, decide_False by done.
    rewrite lookup_insert_ne by done. apply lookup_delete_eq.
  - unfold Outcome.cleaned_database, with_tables. cbn [trip_tables].
    rewrite cleaned_lookup by done. rewrite decide_False by done. by rewrite decide_True.
  - rewrite (VerifyCleaningFacts.run_verify_cleaning _ _ _ Hy' Hg').
    by rewrite !cleaned_table_counts.
Qed.

Lemma clean_main_leaves_verified_tables_witness :
  ∃ d' y' g',
    run clean_main Examples.scenario = (inr tt, d') ∧
    trip_tables d' !! "yellow_trips" = Some y' ∧
    trip_tables d' !! "green_trips" = Some g' ∧
    NoDup (records y') ∧ NoDup (records g') ∧
    (∀ r, r ∈ records y' ↔ r ∈ records Examples.scenario_table ∧ Spec.valid_trip r) ∧
    (∀ r, r ∈ records g' ↔ r ∈ records Examples.scenario_table ∧ Spec.valid_trip r) ∧
    trip_tables d' !! "yellow_trips_temp" = None ∧
    trip_tables d' !! "green_trips_temp" = None ∧
    run verify_cleaning d' = (inr true, d').
Proof.
  apply (clean_main_leaves_verified_tables Examples.scenario
           Examples.scenario_table Examples.scenario_table); reflexivity.
Defined.

(** X2.  Cleaning is idempotent: run again on the database a cleaning left,
    it reports no row removed and leaves the table with the same rows and
    the same columns, and every other table as it was.  Nothing is said of
    the order of the rows. *)
Theorem clean_is_idempotent (c : Spec.Category) (d : Database) (t : TripTable) :
  trip_tables d !! Spec.trips_table c = Some t →
  ∃ report d' t' report' d'' t'',
    run (Spec.clean c) d = (inr report, d') ∧
    trip_tables d' !! Spec.trips_table c = Some t' ∧
    run (Spec.clean c) d' = (inr report', d'') ∧
    trip_tables d'' !! Spec.trips_table c = Some t'' ∧
    report' = mkCleanReport (final_count report) (final_count report) 0 ∧
    records t'' ≡ₚ records t' ∧
    derived_cols t'' = derived_cols t' ∧
    ∀ name, name ≠ Spec.trips_table c →
            trip_tables d'' !! name = trip_tables d' !! name.
Proof.
  intros Ht. rewrite CleanFacts.clean_unfold.
  pose proof (CleanFacts.temp_table_ne c) as Hne.
  rewrite (CleanFacts.run_clean_trips _ _ _ _ Hne Ht).
  eexists _, _, (cleaned_table t), _, _, (cleaned_table (cleaned_table t)).
  split; [done|]. split; [apply lookup_insert_eq|].
  split; [by erewrite CleanFacts.run_clean_trips; [|done|apply lookup_insert_eq]|].
  split; [apply lookup_insert_eq|]. split; [|split; [|split]].
  - rewrite cleaned_table_idempotent. cbn [final_count]. f_equal. lia.
  - by rewrite cleaned_table_idempotent.
  - done.
  - intros name Hname. unfold with_tables. cbn [trip_tables].
    rewrite !cleaned_lookup by done. repeat case_decide; done.
Qed.

Lemma clean_is_idempotent_witness :
  ∃ report d' t' report' d'' t'',
    run (Spec.clean Spec.Yellow) Examples.scenario = (inr report, d') ∧
    trip_tables d' !! "yellow_trips" = Some t' ∧
    run (Spec.clean Spec.Yellow) d' = (inr report', d'') ∧
    trip_tables d'' !! "yellow_trips" = Some t'' ∧
    report' = mkCleanReport (final_count report) (final_count report) 0 ∧
    records t'' ≡ₚ records t' ∧
    derived_cols t'' = derived_cols t' ∧
    ∀ name, name ≠ "yellow_trips" →
            trip_tables d'' !! name = trip_tables d' !! name.
Proof.
  apply (clean_is_idempotent Spec.Yellow Examples.scenario Examples.scenario_table).
  reflexivity.
Defined.

(** After the first cleaning of the six sample rows one trip is left, and
    the second cleaning removes none. *)
Example scenario_cleaned_twice :
  (run (Spec.clean Spec.Yellow) Examples.scenario).1 = inr (mkCleanReport 6 1 5) ∧
  (run (Spec.clean Spec.Yellow) (run (Spec.clean Spec.Yellow) Examples.scenario).2).1 =
    inr (mkCleanReport 1 1 0).
Proof. by vm_compute. Qed.

(** X3.  A cleaning changes nothing but its own table: afterwards no table
    has the temporary name, whether or not one had it before, and every
    other table, [vehicle_emissions] and the engine setting are as they
    were. *)
Theorem clean_touches_only_its_table (c : Spec.Category) (d : Database) (t : TripTable) :
  trip_tables d !! Spec.trips_table c = Some t →
  ∃ report d',
    run (Spec.clean c) d = (inr report, d') ∧
    vehicle_emissions d' = vehicle_emissions d ∧
    ieee_floating_point_ops d' = ieee_floating_point_ops d ∧
    trip_tables d' !! Spec.temp_table c = None ∧
    ∀ name, name ≠ Spec.trips_table c → name ≠ Spec.temp_table c →
            trip_tables d' !! name = trip_tables d !! name.
Proof.
  intros Ht. rewrite CleanFacts.clean_unfold.
  pose proof (CleanFacts.temp_table_ne c) as Hne.
  rewrite (CleanFacts.run_clean_trips _ _ _ _ Hne Ht).
  eexists _, _. split; [done|]. simpl. split; [done|]. split; [done|]. split.
  - rewrite cleaned_lookup by done. rewrite decide_False by done.
    by rewrite decide_True.
  - intros name Htable Htemp. rewrite cleaned_lookup by done.
    by rewrite !decide_False.
Qed.

Lemma clean_touches_only_its_table_witness :
  ∃ report d',
    run (Spec.clean Spec.Yellow) Samples.with_bystander = (inr report, d') ∧
    vehicle_emissions d' = vehicle_emissions Samples.with_bystander ∧
    ieee_floating_point_ops d' = ieee_floating_point_ops Samples.with_bystander ∧
    trip_tables d' !! "yellow_trips_temp" = None ∧
    ∀ name, name ≠ "yellow_trips" → name ≠ "yellow_trips_temp" →
            trip_tables d' !! name = trip_tables Samples.with_bystander !! name.
Proof.
  apply (clean_touches_only_its_table Spec.Yellow Samples.with_bystander
           Examples.scenario_table).
  reflexivity.
Defined.

Lemma length_filter_full {A : Type} (P : A → Prop) `{∀ x, Decision (P x)} (l : list A) :
  length (filter P l) = length l → Forall P l.
Proof.
  induction l as [|x l IH]; [done|]. intros Hlen.
  pose proof (length_filter P l) as Hle.
  destruct (decide (P x)).
  - rewrite filter_cons_True in Hlen by done. simpl in Hlen.
    apply Forall_cons. split; [done|]. apply IH. lia.
  - rewrite filter_cons_False in Hlen by done. simpl in Hlen. lia.
Qed.

(** X4.  The numbers a cleaning reports: the count after is the number of
    cleaned rows, it is between 0 and the count before, the third number
    is their difference, and no row is removed exactly when every row of
    the table was valid and no row occurred twice. *)
Theorem clean_report_counts (c : Spec.Category) (d : Database) (t : TripTable) :
  trip_tables d !! Spec.trips_table c = Some t →
  ∃ report d',
    run (Spec.clean c) d = (inr report, d') ∧
    initial_count report = Sql.count (rows t) ∧
    final_count report = Sql.count (cleaned_rows t) ∧
    removed report = initial_count report - final_count report ∧
    0 ≤ final_count report ≤ initial_count report ∧
    (removed report = 0 ↔ Forall Spec.valid_trip (records t) ∧ NoDup (records t)).
Proof.
  intros Ht. rewrite CleanFacts.clean_unfold.
  rewrite (CleanFacts.run_clean_trips _ _ _ _ (CleanFacts.temp_table_ne c) Ht).
  eexists _, _. split; [done|]. cbn [initial_count final_count removed].
  assert (Sql.count (rows (cleaned_table t)) = Sql.count (cleaned_rows t)) as ->.
  { unfold Sql.count. rewrite <-(CleanFacts.records_cleaned_table t).
    unfold records. by rewrite length_fmap. }
  assert (Sql.count (rows t) = Sql.count (records t)) as ->
    by (unfold Sql.count, records; by rewrite length_fmap).
  split; [done|]. split; [done|]. split; [done|].
  unfold cleaned_rows, Sql.count.
  set (kept := filter (λ r, Sql.holds (quality_filter r)) (records t)).
  pose proof (length_filter (λ r, Sql.holds (quality_filter r)) (records t)) as Hkept.
  pose proof (VerifyCleaningFacts.length_remove_dups_le kept) as Hdups.
  fold kept in Hkept. split; [lia|]. split.
  - intros Hzero.
    assert (length kept = length (records t)) as Hfull by lia.
    apply length_filter_full in Hfull as Hall.
    assert (kept = records t) as Heq by by apply filter_all.
    split.
    + eapply Forall_impl; [exact Hall|]. intros r Hr. simpl in Hr.
      by apply CleanFacts.quality_filter_valid, Is_true_true.
    + apply VerifyCleaningFacts.duplicate_count_zero. unfold Sql.count.
      rewrite <-Heq. lia.
  - intros [Hvalid Hnd].
    assert (kept = records t) as ->.
    { apply filter_all. eapply Forall_impl; [exact Hvalid|]. intros r Hr. simpl.
      by apply Is_true_true, CleanFacts.quality_filter_valid. }
    rewrite remove_dups_NoDup by done. lia.
Qed.

Lemma clean_report_counts_witness :
  ∃ report d',
    run (Spec.clean Spec.Yellow) Examples.scenario = (inr report, d') ∧
    initial_count report = Sql.count (rows Examples.scenario_table) ∧
    final_count report = Sql.count (cleaned_rows Examples.scenario_table) ∧
    removed report = initial_count report - final_count report ∧
    0 ≤ final_count report ≤ initial_count report ∧
    (removed report = 0 ↔
     Forall Spec.valid_trip (records Examples.scenario_table) ∧
     NoDup (records Examples.scenario_table)).
Proof.
  apply (clean_report_counts Spec.Yellow Examples.scenario Examples.scenario_table).
  reflexivity.
Defined.

Lemma cleaning_checks_missing (table : string) (d : Database) (n : nat) :
  trip_tables d !! table = None →
  cleaning_checks table (mkConn d n None) = (inl CatalogError, mkConn d (S n) None).
Proof.
  intros Ht. unfold cleaning_checks. apply TransformFacts.bind_error.
  apply TransformFacts.execute_error. unfold select_count_where. by rewrite Ht.
Qed.

(** X5.  When its table does not exist, a cleaning raises at its first
    statement and changes nothing; [verify_cleaning] raises in the same way
    when a trip table is missing, and whatever it returns or raises it
    leaves the database as it was. *)
Theorem cleaning_a_missing_table (c : Spec.Category) (d : Database) :
  trip_tables d !! Spec.trips_table c = None →
  run (Spec.clean c) d = (inl CatalogError, d) ∧
  run verify_cleaning d = (inl CatalogError, d) ∧
  ∀ d0, (run verify_cleaning d0).2 = d0.
Proof.
  intros Ht. split; [|split].
  - rewrite CleanFacts.clean_unfold. unfold run, connect, clean_trips.
    assert (execute (select_count (Spec.trips_table c)) (mkConn d 0 None) =
            (inl CatalogError, mkConn d 1 None)) as Hcount.
    { apply TransformFacts.execute_error. unfold select_count. by rewrite Ht. }
    by rewrite (TransformFacts.bind_error _ _ _ _ _ Hcount).
  - unfold run, connect, verify_cleaning. destruct c; simpl in Ht.
    + by rewrite (TransformFacts.bind_error _ _ _ _ _ (cleaning_checks_missing _ _ _ Ht)).
    + destruct (trip_tables d !! "yellow_trips") as [y|] eqn:Hy.
      * erewrite TransformFacts.bind_ok;
          [|by apply VerifyCleaningFacts.cleaning_checks_ok].
        by rewrite (TransformFacts.bind_error _ _ _ _ _ (cleaning_checks_missing _ _ _ Ht)).
      * by rewrite (TransformFacts.bind_error _ _ _ _ _ (cleaning_checks_missing _ _ _ Hy)).
  - intros d0. unfold run, connect, verify_cleaning.
    destruct (trip_tables d0 !! "yellow_trips") as [y|] eqn:Hy.
    + erewrite TransformFacts.bind_ok;
        [|by apply VerifyCleaningFacts.cleaning_checks_ok].
      destruct (trip_tables d0 !! "green_trips") as [g|] eqn:Hg.
      * erewrite TransformFacts.bind_ok;
          [|by apply VerifyCleaningFacts.cleaning_checks_ok].
        done.
      * by rewrite (TransformFacts.bind_error _ _ _ _ _ (cleaning_checks_missing _ _ _ Hg)).
    + by rewrite (TransformFacts.bind_error _ _ _ _ _ (cleaning_checks_missing _ _ _ Hy)).
Qed.

Lemma cleaning_a_missing_table_witness :
  run (Spec.clean Spec.Green) Samples.yellow_only = (inl CatalogError, Samples.yellow_only) ∧
  run verify_cleaning Samples.yellow_only = (inl CatalogError, Samples.yellow_only) ∧
  ∀ d0, (run verify_cleaning d0).2 = d0.
Proof.
  apply (cleaning_a_missing_table Spec.Green Samples.yellow_only). reflexivity.
Defined.

End CleanRuns.

(** ** transform.py as a whole *)

Module TransformRuns.
Import Model Py Engine Transform.

Lemma fault_free_S f n len : Outcome.fault_free f n (S len) → Outcome.fault_free f (S n) len.
Proof. destruct f; simpl; [lia|done]. Qed.

Lemma fault_free_le f n len len' : (len' ≤ len)%nat → Outcome.fault_free f n len → Outcome.fault_free f n len'.
Proof. destruct f; simpl; [lia|done]. Qed.

Lemma execute_runs {A : Type} (s : Stmt A) (d d' : Database) (n : nat)
    (f : option nat) (a : A) :
  Outcome.fault_free f n 1 →
  s d = inr (a, d') →
  execute s (mkConn d n f) = (inr a, mkConn d' (S n) f).
Proof.
  intros Hf Hs. unfold execute. simpl. rewrite Hs.
  rewrite decide_False; [done|]. destruct f; [|done]. simpl in Hf. intros [= ->]. lia.
Qed.

Lemma execute_raises {A : Type} (s : Stmt A) (d : Database) (n : nat)
    (f : option nat) (e : Exn) :
  Outcome.fault_free f n 1 →
  s d = inl e →
  execute s (mkConn d n f) = (inl e, mkConn d (S n) f).
Proof.
  intros Hf Hs. unfold execute. simpl. rewrite Hs.
  rewrite decide_False; [done|]. destruct f; [|done]. simpl in Hf. intros [= ->]. lia.
Qed.

Lemma execute_faults {A : Type} (s : Stmt A) (d : Database) (n : nat) :
  execute s (mkConn d n (Some n)) = (inl IOError, mkConn d (S n) (Some n)).
Proof. unfold execute. simpl. by rewrite decide_True. Qed.

Section loop.
Context (table key : string) (c : Z) (ves : list EmissionRow) (ieee : bool)
        (f : option nat).

(** The batches at the offsets [offs], when no fault is due while they run
    and the join finds the row [ve]. *)
Lemma update_batches_run (ve : EmissionRow) (rest : list EmissionRow) (offs : list Z) :
  emission_matches key ves = ve :: rest →
  ∀ (tables : gmap string TripTable) (n : nat) (t : TripTable),
    Outcome.fault_free f n (length offs) →
    tables !! table = Some t →
    all_derived_cols ⊆ derived_cols t →
    for_each offs (λ i, execute (update_batch table key c (i * c)))
      (mkConn (mkDatabase tables (Some ves) ieee) n f) =
      (inr tt,
       mkConn (mkDatabase
                 (<[table := with_rows t
                               (update_rows ieee ve
                                  (concat ((λ i, batch_rowids t c (i * c)) <$> offs))
                                  (rows t))]> tables)
                 (Some ves) ieee)
         (n + length offs) f).
Proof.
  intros Hmatch. induction offs as [|i offs IH]; intros tables n t Hf Ht Hcols.
  - simpl. unfold ret.
    rewrite TransformFacts.update_rows_nil, TransformFacts.with_rows_rows, insert_id by done.
    do 2 f_equal. lia.
  - rewrite TransformFacts.for_each_cons.
    erewrite execute_runs; last first.
    { unfold update_batch. simpl. rewrite Ht, Hmatch.
      rewrite decide_True by done. done. }
    { eapply fault_free_le; [|done]. simpl. lia. }
    unfold with_tables. simpl.
    erewrite IH; [|by apply fault_free_S|apply lookup_insert_eq|done].
    rewrite insert_insert_eq. simpl.
    rewrite TransformFacts.update_rows_app.
    do 3 f_equal; [|lia].
    do 2 f_equal. unfold with_rows. simpl. do 3 f_equal.
    apply list_fmap_ext. intros _ j _.
    apply (TransformFacts.batch_rowids_with_rows t).
    apply TransformFacts.update_rows_rowids.
Qed.

End loop.

Lemma add_column_runs (table : string) (c : DerivedCol)
    (tables : gmap string TripTable) (ves : option (list EmissionRow)) (ieee : bool)
    (n : nat) (f : option nat) (t : TripTable) :
  Outcome.fault_free f n 1 →
  tables !! table = Some t →
  execute (add_column_if_not_exists table c) (mkConn (mkDatabase tables ves ieee) n f) =
    (inr tt, mkConn (mkDatabase (<[table := add_column c t]> tables) ves ieee) (S n) f).
Proof.
  intros Hf Ht. apply execute_runs; [done|].
  unfold add_column_if_not_exists. simpl. by rewrite Ht.
Qed.

Lemma count_rows_with_derived_columns (t : TripTable) :
  Sql.count (rows (Spec.with_derived_columns t)) = Sql.count (rows t).
Proof.
  unfold Spec.with_derived_columns.
  by rewrite !TransformFacts.count_rows_add_column.
Qed.

(** The seven statements before the loop, when no fault is due in them:
    the six columns are added and the rows are counted. *)
Lemma transform_trips_prefix (c : Z) (table key : string)
    (tables : gmap string TripTable) (ves : option (list EmissionRow)) (ieee : bool)
    (n : nat) (f : option nat) (t : TripTable) :
  Outcome.fault_free f n 7 →
  tables !! table = Some t →
  transform_trips c table key (mkConn (mkDatabase tables ves ieee) n f) =
    Py.bind
      (for_each (range (batches (Sql.count (rows t)) c))
         (λ i, execute (update_batch table key c (i * c))))
      (λ _, execute (select_count_where table
                       (λ r, Sql.is_not_null (trip_co2_kgs r))))
      (mkConn (mkDatabase (<[table := Spec.with_derived_columns t]> tables) ves ieee)
         (n + 7) f).
Proof.
  intros Hf Ht. unfold transform_trips.
  assert (∀ n', (n ≤ n')%nat → (n' + 1 ≤ n + 7)%nat → Outcome.fault_free f n' 1)
    as Hsub.
  { intros n' Hle Hlt. destruct f; simpl in *; [lia|done]. }
  erewrite TransformFacts.bind_ok; [|apply add_column_runs; [apply Hsub; lia|done]].
  do 5 (erewrite TransformFacts.bind_ok;
        [|apply add_column_runs; [apply Hsub; lia|apply lookup_insert_eq]];
        rewrite insert_insert_eq).
  fold (Spec.with_derived_columns t).
  erewrite TransformFacts.bind_ok; last first.
  { apply execute_runs; [apply Hsub; lia|].
    unfold select_count. simpl. by rewrite lookup_insert_eq. }
  rewrite count_rows_with_derived_columns.
  by replace (S (S (S (S (S (S (S n))))))) with (n + 7)%nat by lia.
Qed.

Lemma run_transform_missing_table (c : Z) (table key : string) (d : Database) :
  trip_tables d !! table = None →
  run (transform_trips c table key) d = (inl CatalogError, d).
Proof.
  intros Ht. unfold run, connect, transform_trips.
  assert (execute (add_column_if_not_exists table TripCo2Kgs) (mkConn d 0 None) =
          (inl CatalogError, mkConn d 1 None)) as Hfirst.
  { apply TransformFacts.execute_error. unfold add_column_if_not_exists. by rewrite Ht. }
  by rewrite (TransformFacts.bind_error _ _ _ _ _ Hfirst).
Qed.

Lemma range_nonempty (n : Z) : 0 < n → ∃ rest, range n = 0 :: rest.
Proof.
  intros Hn. unfold range.
  destruct (Z.to_nat n) as [|m] eqn:Hm; [lia|]. simpl. eauto.
Qed.

Lemma batches_pos (n c : Z) : 0 < n → 0 < c → 0 < batches n c.
Proof.
  intros Hn Hc. pose proof (BatchFacts.batches_cover n c ltac:(lia) Hc). nia.
Qed.

Lemma batches_zero (c : Z) : 0 < c → batches 0 c = 0.
Proof. intros Hc. unfold batches. apply Z.div_small. lia. Qed.

Lemma run_transform_without_emissions (c : Z) (table key : string) (d : Database)
    (t : TripTable) :
  0 < c →
  trip_tables d !! table = Some t →
  vehicle_emissions d = None →
  run (transform_trips c table key) d =
    (if decide (rows t = []) then inr 0 else inl CatalogError,
     with_tables d (<[table := Spec.with_derived_columns t]> (trip_tables d))).
Proof.
  intros Hc Ht Hves. destruct d as [tables ves ieee]. simpl in *. subst ves.
  unfold run, connect. rewrite (transform_trips_prefix c table key tables None ieee 0 None t I Ht).
  case_decide as Hrows.
  - rewrite Hrows. change (Sql.count (@nil (Z * TripRow))) with 0.
    rewrite (batches_zero c Hc). change (range 0) with (@nil Z).
    unfold for_each, Py.bind, ret, execute, select_count_where. simpl.
    rewrite lookup_insert_eq. simpl.
    assert (rows (Spec.with_derived_columns t) = []) as Hrows'.
    { apply length_zero_iff_nil.
      pose proof (count_rows_with_derived_columns t) as Hcount.
      unfold Sql.count in Hcount. rewrite Hrows in Hcount. simpl in Hcount. lia. }
    unfold records. by rewrite Hrows'.
  - destruct (range_nonempty (batches (Sql.count (rows t)) c)) as [rest ->].
    { apply batches_pos; [|done]. unfold Sql.count.
      destruct (rows t); [done|simpl; lia]. }
    assert (∀ n tables', tables' !! table = Some (Spec.with_derived_columns t) →
              execute (update_batch table key c (0 * c))
                (mkConn (mkDatabase tables' None ieee) n None) =
              (inl CatalogError, mkConn (mkDatabase tables' None ieee) (S n) None))
      as Hupdate.
    { intros n tables' Ht'. apply TransformFacts.execute_error.
      unfold update_batch. simpl. by rewrite Ht'. }
    erewrite TransformFacts.bind_error; last first.
    { rewrite TransformFacts.for_each_cons.
      by rewrite (Hupdate _ _ (lookup_insert_eq _ _ _)). }
    done.
Qed.

Lemma verdict_keeps_connection (nulls : Z) (s sg : Stats) (c : Conn)
    (r : Exn + bool) (c' : Conn) :
  and_then (nulls =? 0)
    (Py.bind (ge (min_hour s) 0) (λ a,
       and_then a
         (Py.bind (le (max_hour s) 23) (λ b,
            and_then b
              (Py.bind (ge (min_hour sg) 0) (λ c,
                 and_then c (le (max_hour sg) 23))))))) c = (r, c') →
  c' = c.
Proof.
  unfold and_then, Py.bind, ge, le, ret, raise.
  destruct (nulls =? 0); [|by intros [= _ <-]].
  destruct (min_hour s) as [a1|]; [|by intros [= _ <-]].
  destruct (0 <=? a1); [|by intros [= _ <-]].
  destruct (max_hour s) as [a2|]; [|by intros [= _ <-]].
  destruct (a2 <=? 23); [|by intros [= _ <-]].
  destruct (min_hour sg) as [a3|]; [|by intros [= _ <-]].
  destruct (0 <=? a3); [|by intros [= _ <-]].
  destruct (max_hour sg) as [a4|]; by intros [= _ <-].
Qed.

Lemma verify_transformations_read_only (d : Database) :
  (run verify_transformations d).2 = d.
Proof.
  unfold run, connect, verify_transformations.
  destruct (table_report "yellow_trips" (mkConn d 0 None)) as [[e|yellow] c1] eqn:Hyellow.
  { rewrite (TransformFacts.bind_error _ _ _ _ _ Hyellow).
    destruct (VerifyTransformFacts.table_report_cases "yellow_trips" d 0) as [n Hcase].
    rewrite Hyellow in Hcase. by injection Hcase as _ ->. }
  rewrite (TransformFacts.bind_ok _ _ _ _ _ Hyellow).
  destruct (VerifyTransformFacts.table_report_cases "yellow_trips" d 0) as [n1 Hcase].
  rewrite Hyellow in Hcase. injection Hcase as _ ->.
  destruct (table_report "green_trips" (mkConn d n1 None)) as [[e|green] c2] eqn:Hgreen.
  { rewrite (TransformFacts.bind_error _ _ _ _ _ Hgreen).
    destruct (VerifyTransformFacts.table_report_cases "green_trips" d n1) as [n Hcase].
    rewrite Hgreen in Hcase. by injection Hcase as _ ->. }
  rewrite (TransformFacts.bind_ok _ _ _ _ _ Hgreen).
  destruct (VerifyTransformFacts.table_report_cases "green_trips" d n1) as [n2 Hcase].
  rewrite Hgreen in Hcase. injection Hcase as _ ->.
  cbn [fst snd].
  destruct (and_then _ _ _) as [r c3] eqn:Hverdict.
  by apply verdict_keeps_connection in Hverdict as ->.
Qed.

(** X6.  On a database without the category's trip table the transformation
    raises at its first statement and changes nothing, and
    [verify_transformations] raises too; whatever
    [verify_transformations] returns or raises, on any database, it leaves
    the database as it was. *)
Theorem transform_on_missing_table (c : Spec.Category) (d : Database) :
  trip_tables d !! Spec.trips_table c = None →
  run (Spec.transform c) d = (inl CatalogError, d) ∧
  (∃ e, run verify_transformations d = (inl e, d)) ∧
  ∀ d0, (run verify_transformations d0).2 = d0.
Proof.
  intros Ht. split; [|split; [|apply verify_transformations_read_only]].
  - rewrite TransformFacts.transform_unfold. by apply run_transform_missing_table.
  - pose proof (verify_transformations_read_only d) as Hsame.
    unfold run, connect, verify_transformations in *.
    destruct (VerifyTransformFacts.table_report_cases "yellow_trips" d 0) as [n1 Hyellow].
    destruct c; simpl in Ht.
    + rewrite Ht in Hyellow.
      rewrite (TransformFacts.bind_error _ _ _ _ _ Hyellow). eauto.
    + destruct (match trip_tables d !! "yellow_trips" with
                | Some _ => _ | None => _ end) as [e|yellow].
      * rewrite (TransformFacts.bind_error _ _ _ _ _ Hyellow). eauto.
      * rewrite (TransformFacts.bind_ok _ _ _ _ _ Hyellow).
        destruct (VerifyTransformFacts.table_report_cases "green_trips" d n1)
          as [n2 Hgreen].
        rewrite Ht in Hgreen.
        rewrite (TransformFacts.bind_error _ _ _ _ _ Hgreen). eauto.
Qed.

Lemma transform_on_missing_table_witness :
  run (Spec.transform Spec.Green) Samples.yellow_only =
    (inl CatalogError, Samples.yellow_only) ∧
  (∃ e, run verify_transformations Samples.yellow_only = (inl e, Samples.yellow_only)) ∧
  ∀ d0, (run verify_transformations d0).2 = d0.
Proof.
  apply (transform_on_missing_table Spec.Green Samples.yellow_only). reflexivity.
Defined.

(** X7.  Without a [vehicle_emissions] table the transformation still adds
    the six columns.  On a table with rows the first batch update then
    raises, and the table is left with the new columns and no row updated;
    on a table without rows no update is run and it returns 0. *)
Theorem transform_without_emissions (c : Spec.Category) (d : Database) (t : TripTable) :
  trip_tables d !! Spec.trips_table c = Some t →
  vehicle_emissions d = None →
  run (Spec.transform c) d =
    (if decide (rows t = []) then inr 0 else inl CatalogError,
     with_tables d (<[Spec.trips_table c := Spec.with_derived_columns t]> (trip_tables d))).
Proof.
  intros Ht Hves. rewrite TransformFacts.transform_unfold.
  by apply run_transform_without_emissions.
Qed.

Lemma transform_without_emissions_witness :
  run (Spec.transform Spec.Yellow) Samples.no_emissions =
    (inl CatalogError,
     with_tables Samples.no_emissions
       (<["yellow_trips" := Spec.with_derived_columns Examples.single_trip]>
          (trip_tables Samples.no_emissions))) ∧
  run (Spec.transform Spec.Green) Samples.no_emissions =
    (inr 0,
     with_tables Samples.no_emissions
       (<["green_trips" := Spec.with_derived_columns Examples.empty_table]>
          (trip_tables Samples.no_emissions))).
Proof.
  split.
  - exact (transform_without_emissions Spec.Yellow Samples.no_emissions
             Examples.single_trip eq_refl eq_refl).
  - exact (transform_without_emissions Spec.Green Samples.no_emissions
             Examples.empty_table eq_refl eq_refl).
Defined.

(** X8.  The batch size is only a matter of how the work is cut: for any
    two positive batch sizes the transformation returns or raises the same
    and leaves the same database. *)
Theorem batch_size_is_immaterial (c1 c2 : Z) (table key : string) (d : Database) :
  0 < c1 →
  0 < c2 →
  run (transform_trips c1 table key) d = run (transform_trips c2 table key) d.
Proof.
  intros Hc1 Hc2.
  destruct (trip_tables d !! table) as [t|] eqn:Ht.
  - destruct (vehicle_emissions d) as [ves|] eqn:Hves.
    + by rewrite !(TransformFacts.run_transform_trips _ _ _ d ves t).
    + by rewrite !(run_transform_without_emissions _ _ _ d t).
  - by rewrite !run_transform_missing_table.
Qed.

Lemma batch_size_is_immaterial_witness :
  run (transform_trips 2 "yellow_trips" "yellow_taxi") Examples.scenario =
  run (transform_trips batch_size "yellow_trips" "yellow_taxi") Examples.scenario.
Proof.
  apply (batch_size_is_immaterial 2 batch_size "yellow_trips" "yellow_taxi"
           Examples.scenario); reflexivity.
Defined.

Lemma for_each_app {A : Type} (xs ys : list A) (body : A → M unit) (c : Conn) :
  for_each (xs ++ ys) body c =
    Py.bind (for_each xs body) (λ _, for_each ys body) c.
Proof.
  revert c. induction xs as [|x xs IH]; intros c; [done|].
  simpl. unfold Py.bind in *.
  destruct (body x c) as [[e|[]] c1]; [done|]. apply IH.
Qed.

Lemma range_split (n : Z) (j : nat) :
  Z.of_nat j < n → ∃ tail, range n = range (Z.of_nat j) ++ Z.of_nat j :: tail.
Proof.
  intros Hj. unfold range. rewrite Nat2Z.id.
  replace (Z.to_nat n) with (j + S (Z.to_nat n - S j))%nat by lia.
  rewrite seq_app, fmap_app. simpl. eauto.
Qed.

Lemma length_range_nat (j : nat) : length (range (Z.of_nat j)) = j.
Proof. unfold range. by rewrite length_fmap, length_seq, Nat2Z.id. Qed.

Lemma all_derived_update_rows ieee ve (batch : list Z) (t : TripTable) :
  Spec.all_derived ieee ve (with_rows t (update_rows ieee ve batch (rows t))) =
  Spec.all_derived ieee ve t.
Proof.
  unfold Spec.all_derived, with_rows, update_rows. simpl. f_equal.
  rewrite <-list_fmap_compose. apply list_fmap_ext. intros _ [id r] _. simpl.
  by case_decide.
Qed.

(** Transforming a table of which some batches were already updated gives
    what transforming the table gives. *)
Lemma transformed_partial ieee key ves ve rest (batch : list Z) (t : TripTable) :
  emission_matches key ves = ve :: rest →
  Spec.transformed ieee key ves
    (with_rows (Spec.with_derived_columns t)
       (update_rows ieee ve batch (rows (Spec.with_derived_columns t)))) =
  Spec.transformed ieee key ves t.
Proof.
  intros Hmatch. unfold Spec.transformed. rewrite Hmatch.
  rewrite TransformFacts.with_derived_columns_present
    by apply TransformFacts.with_derived_columns_cols.
  apply all_derived_update_rows.
Qed.

(** A run stopped by a storage fault at the update of batch [j]: the six
    columns are there, the rows of the batches before [j] are updated, no
    other row is. *)
Lemma run_interrupted
    (c : Z) (table key : string) (d : Database) (t : TripTable)
    (ves : list EmissionRow) (ve : EmissionRow) (rest : list EmissionRow) (j : nat) :
  0 < c →
  trip_tables d !! table = Some t →
  vehicle_emissions d = Some ves →
  emission_matches key ves = ve :: rest →
  Z.of_nat j < batches (Sql.count (rows t)) c →
  run_with_fault (7 + j) (transform_trips c table key) d =
    (inl IOError,
     with_tables d
       (<[table :=
            with_rows (Spec.with_derived_columns t)
              (update_rows (ieee_floating_point_ops d) ve
                 (concat ((λ i, batch_rowids (Spec.with_derived_columns t) c (i * c))
                            <$> range (Z.of_nat j)))
                 (rows (Spec.with_derived_columns t)))]> (trip_tables d))).
Proof.
  intros Hc Ht Hves Hmatch Hj. destruct d as [tables ves' ieee].
  cbn [trip_tables vehicle_emissions ieee_floating_point_ops] in *. subst ves'.
  set (t1 := Spec.with_derived_columns t).
  set (partial := with_rows t1
                    (update_rows ieee ve
                       (concat ((λ i, batch_rowids t1 c (i * c)) <$> range (Z.of_nat j)))
                       (rows t1))).
  assert (transform_trips c table key
            (mkConn (mkDatabase tables (Some ves) ieee) 0 (Some (7 + j)%nat)) =
          (inl IOError,
           mkConn (mkDatabase (<[table := partial]> tables) (Some ves) ieee)
             (S (7 + j)) (Some (7 + j)%nat))) as Hrun.
  { rewrite (transform_trips_prefix c table key tables (Some ves) ieee 0
               (Some (7 + j)%nat) t); [|simpl; lia|done].
    destruct (range_split _ _ Hj) as [tail ->]. fold t1.
    apply TransformFacts.bind_error.
    rewrite for_each_app.
    erewrite TransformFacts.bind_ok; last first.
    { eapply update_batches_run with (t := t1);
        [done|simpl; rewrite length_range_nat; lia|apply lookup_insert_eq
        |apply TransformFacts.with_derived_columns_cols]. }
    rewrite TransformFacts.for_each_cons, length_range_nat, insert_insert_eq.
    fold partial.
    replace (0 + 7 + j)%nat with (7 + j)%nat by lia.
    apply TransformFacts.bind_error, execute_faults. }
  unfold run_with_fault. by rewrite Hrun.
Qed.

(** X9.  A storage fault at batch number [j] of the update loop stops the
    transformation with the rows of the earlier batches updated and the
    others untouched; run again on that database, the transformation gives
    what an uninterrupted run gives. *)
Theorem interrupted_transform_resumes
    (c : Z) (table key : string) (d : Database) (t : TripTable)
    (ves : list EmissionRow) (ve : EmissionRow) (rest : list EmissionRow) (j : nat) :
  0 < c →
  trip_tables d !! table = Some t →
  vehicle_emissions d = Some ves →
  emission_matches key ves = ve :: rest →
  Z.of_nat j < batches (Sql.count (rows t)) c →
  ∃ d1,
    run_with_fault (7 + j) (transform_trips c table key) d = (inl IOError, d1) ∧
    trip_tables d1 !! table =
      Some (with_rows (Spec.with_derived_columns t)
              (update_rows (ieee_floating_point_ops d) ve
                 (concat ((λ i, batch_rowids (Spec.with_derived_columns t) c (i * c))
                            <$> range (Z.of_nat j)))
                 (rows (Spec.with_derived_columns t)))) ∧
    run (transform_trips c table key) d1 = run (transform_trips c table key) d.
Proof.
  intros Hc Ht Hves Hmatch Hj.
  eexists. split; [by eapply run_interrupted|].
  unfold with_tables. cbn [trip_tables vehicle_emissions ieee_floating_point_ops].
  split; [apply lookup_insert_eq|].
  erewrite TransformFacts.run_transform_trips; [|done|apply lookup_insert_eq|done].
  erewrite (TransformFacts.run_transform_trips _ _ _ d); [|done..].
  cbn [trip_tables vehicle_emissions ieee_floating_point_ops].
  rewrite (transformed_partial _ _ _ _ _ _ _ Hmatch).
  unfold with_tables. cbn [trip_tables vehicle_emissions ieee_floating_point_ops].
  by rewrite insert_insert_eq.
Qed.

Lemma interrupted_transform_resumes_witness :
  ∃ d1,
    run_with_fault 8 (transform_trips 2 "yellow_trips" "yellow_taxi") Samples.three_yellow =
      (inl IOError, d1) ∧
    trip_tables d1 !! "yellow_trips" =
      Some (with_rows (Spec.with_derived_columns Samples.three_trips)
              (update_rows true
                 (mkEmissionRow (Some "yellow_taxi") (Some (Qc_of_Z 400)))
                 (concat ((λ i, batch_rowids (Spec.with_derived_columns Samples.three_trips)
                                  2 (i * 2)) <$> range 1))
                 (rows (Spec.with_derived_columns Samples.three_trips)))) ∧
    run (transform_trips 2 "yellow_trips" "yellow_taxi") d1 =
    run (transform_trips 2 "yellow_trips" "yellow_taxi") Samples.three_yellow.
Proof.
  apply (interrupted_transform_resumes 2 "yellow_trips" "yellow_taxi" Samples.three_yellow
           Samples.three_trips Examples.emissions
           (mkEmissionRow (Some "yellow_taxi") (Some (Qc_of_Z 400))) [] 1);
    reflexivity.
Defined.

(** With a fault at the second batch, the first two trips have their derived
    values and the third has none. *)
Example interrupted_after_one_batch :
  fmap (fmap (column_is_null TripCo2Kgs))
    (records <$>
       (trip_tables
          (run_with_fault 8 (transform_trips 2 "yellow_trips" "yellow_taxi")
             Samples.three_yellow).2 !! "yellow_trips"))
  = Some [false; false; true].
Proof. by vm_compute. Qed.

Lemma batch_rowids_with_derived_columns (t : TripTable) (c off : Z) :
  batch_rowids (Spec.with_derived_columns t) c off = batch_rowids t c off.
Proof.
  unfold batch_rowids. by rewrite TransformFacts.rowids_with_derived_columns.
Qed.

(** C2.  The batched update of [transform_yellow_trips] and
    [transform_green_trips], for any batch size [c > 0] and a table with
    [N] rows of distinct rowids, when the join finds a rate row.  The
    windows [LIMIT c OFFSET i * c] for [i] in [range((N + c - 1) // c)],
    taken over the rowids in increasing order, put end to end give every
    rowid once, in order, so each row lies in the window of exactly one
    batch.  The loop issues the UPDATE of batch [j] as call number [7 + j]
    of [con.execute], and when that call is reached the rows in the windows
    of the earlier batches have been updated and no other row has: each
    UPDATE changes the rows of its own window only.  The complete run
    leaves every row updated and none skipped. *)
Theorem batches_partition_the_table
    (c : Z) (table key : string) (d : Database) (t : TripTable)
    (ves : list EmissionRow) (ve : EmissionRow) (rest : list EmissionRow) :
  0 < c →
  trip_tables d !! table = Some t →
  NoDup (rowids t) →
  vehicle_emissions d = Some ves →
  emission_matches key ves = ve :: rest →
  let n := batches (Sql.count (rows t)) c in
  let window := λ i, batch_rowids t c (i * c) in
  let ieee := ieee_floating_point_ops d in
  concat (window <$> range n) = merge_sort Z.le (rowids t) ∧
  (∀ id, id ∈ rowids t →
     ∃ i, i ∈ range n ∧ id ∈ window i ∧
          ∀ j, j ∈ range n → id ∈ window j → j = i) ∧
  (∀ j : nat, Z.of_nat j < n →
     ∃ d1 t1,
       run_with_fault (7 + j) (transform_trips c table key) d = (inl IOError, d1) ∧
       trip_tables d1 !! table = Some t1 ∧
       rows t1 =
         (λ p, if decide (p.1 ∈ concat (window <$> range (Z.of_nat j)))
               then (p.1, derive ieee ve p.2) else p)
           <$> rows (Spec.with_derived_columns t)) ∧
  (∃ count t',
     run (transform_trips c table key) d =
       (inr count, with_tables d (<[table := t']> (trip_tables d))) ∧
     rows t' = prod_map id (derive ieee ve) <$> rows (Spec.with_derived_columns t)).
Proof.
  intros Hc Ht Hnd Hves Hmatch n window ieee.
  destruct (TransformFacts.windows_partition t c Hc Hnd) as [Hcat Honce].
  split; [exact Hcat|]. split; [exact Honce|]. split.
  - intros j Hj. eexists _, _.
    split; [by eapply run_interrupted|].
    unfold with_tables. cbn [trip_tables].
    split; [apply lookup_insert_eq|].
    cbn [rows with_rows]. unfold update_rows.
    apply list_fmap_ext. intros _ p _.
    replace ((λ i, batch_rowids (Spec.with_derived_columns t) c (i * c)) <$>
               range (Z.of_nat j))
      with (window <$> range (Z.of_nat j)); [done|].
    apply list_fmap_ext. intros _ i _. unfold window.
    by rewrite batch_rowids_with_derived_columns.
  - eexists _, _. split; [by apply TransformFacts.run_transform_trips|].
    unfold Spec.transformed. rewrite Hmatch.
    unfold Spec.all_derived, with_rows. cbn [rows].
    apply list_fmap_ext. by intros _ [id r] _.
Qed.

Lemma three_trips_distinct : NoDup (rowids Samples.three_trips).
Proof.
  refine (bool_decide_unpack (NoDup (rowids Samples.three_trips)) _).
  vm_compute. exact I.
Defined.

Lemma batches_partition_the_table_witness :
  let t := Samples.three_trips in
  let ve := mkEmissionRow (Some "yellow_taxi") (Some (Qc_of_Z 400)) in
  let n := batches (Sql.count (rows t)) 2 in
  let window := λ i, batch_rowids t 2 (i * 2) in
  concat (window <$> range n) = merge_sort Z.le (rowids t) ∧
  (∀ id, id ∈ rowids t →
     ∃ i, i ∈ range n ∧ id ∈ window i ∧
          ∀ j, j ∈ range n → id ∈ window j → j = i) ∧
  (∀ j : nat, Z.of_nat j < n →
     ∃ d1 t1,
       run_with_fault (7 + j) (transform_trips 2 "yellow_trips" "yellow_taxi")
         Samples.three_yellow = (inl IOError, d1) ∧
       trip_tables d1 !! "yellow_trips" = Some t1 ∧
       rows t1 =
         (λ p, if decide (p.1 ∈ concat (window <$> range (Z.of_nat j)))
               then (p.1, derive true ve p.2) else p)
           <$> rows (Spec.with_derived_columns t)) ∧
  (∃ count t',
     run (transform_trips 2 "yellow_trips" "yellow_taxi") Samples.three_yellow =
       (inr count,
        with_tables Samples.three_yellow
          (<["yellow_trips" := t']> (trip_tables Samples.three_yellow))) ∧
     rows t' = prod_map id (derive true ve) <$> rows (Spec.with_derived_columns t)).
Proof.
  apply (batches_partition_the_table 2 "yellow_trips" "yellow_taxi" Samples.three_yellow
           Samples.three_trips Examples.emissions
           (mkEmissionRow (Some "yellow_taxi") (Some (Qc_of_Z 400))) []);
    [lia | reflexivity | exact three_trips_distinct | reflexivity | reflexivity].
Defined.

(** Three trips in batches of two: the windows are the rowids 0, 1 and 2,
    and the first UPDATE sets the derived values of the rows 0 and 1 and
    leaves those of row 2 NULL. *)
Example three_trips_windows :
  (λ i, batch_rowids Samples.three_trips 2 (i * 2)) <$>
    range (batches (Sql.count (rows Samples.three_trips)) 2) = [[0; 1]; [2]].
Proof. reflexivity. Qed.

Lemma source_rows_add_column (c : DerivedCol) (t : TripTable) :
  prod_map id Outcome.source_columns <$> rows (add_column c t) =
  prod_map id Outcome.source_columns <$> rows t.
Proof.
  unfold add_column. case_decide; [done|]. simpl.
  rewrite <-list_fmap_compose. apply list_fmap_ext. intros _ [id r] _. by destruct c.
Qed.

Lemma source_rows_with_derived_columns (t : TripTable) :
  prod_map id Outcome.source_columns <$> rows (Spec.with_derived_columns t) =
  prod_map id Outcome.source_columns <$> rows t.
Proof. unfold Spec.with_derived_columns. by rewrite !source_rows_add_column. Qed.

Lemma source_rows_transformed ieee key ves (t : TripTable) :
  prod_map id Outcome.source_columns <$> rows (Spec.transformed ieee key ves t) =
  prod_map id Outcome.source_columns <$> rows t.
Proof.
  unfold Spec.transformed. destruct (emission_matches key ves) as [|ve rest].
  - apply source_rows_with_derived_columns.
  - etrans; [|apply source_rows_with_derived_columns].
    unfold Spec.all_derived, with_rows. cbn [rows].
    rewrite <-list_fmap_compose. by apply list_fmap_ext; intros _ [id r] _.
Qed.

(** X10.  Whether it returns or raises, a transformation of an existing
    table leaves each row under its rowid with the source columns it had,
    in the same order, and changes no other table nor [vehicle_emissions]. *)
Theorem transform_keeps_source_data (c : Spec.Category) (d : Database) (t : TripTable) :
  trip_tables d !! Spec.trips_table c = Some t →
  ∃ t',
    trip_tables (run (Spec.transform c) d).2 !! Spec.trips_table c = Some t' ∧
    prod_map id Outcome.source_columns <$> rows t' =
      prod_map id Outcome.source_columns <$> rows t ∧
    vehicle_emissions (run (Spec.transform c) d).2 = vehicle_emissions d ∧
    ∀ name, name ≠ Spec.trips_table c →
            trip_tables (run (Spec.transform c) d).2 !! name = trip_tables d !! name.
Proof.
  intros Ht. rewrite TransformFacts.transform_unfold.
  destruct (vehicle_emissions d) as [ves|] eqn:Hves.
  - rewrite (TransformFacts.run_transform_trips _ _ _ d ves t
               TransformFacts.batch_size_pos Ht Hves).
    eexists. cbn [snd]. split; [apply lookup_insert_eq|].
    split; [apply source_rows_transformed|]. split; [done|].
    intros name Hname. simpl. by rewrite lookup_insert_ne.
  - rewrite (run_transform_without_emissions _ _ _ d t
               TransformFacts.batch_size_pos Ht Hves).
    eexists. cbn [snd]. split; [apply lookup_insert_eq|].
    split; [apply source_rows_with_derived_columns|]. split; [done|].
    intros name Hname. simpl. by rewrite lookup_insert_ne.
Qed.

Lemma transform_keeps_source_data_witness :
  ∃ t',
    trip_tables (run (Spec.transform Spec.Yellow) Examples.scenario).2 !! "yellow_trips"
      = Some t' ∧
    prod_map id Outcome.source_columns <$> rows t' =
      prod_map id Outcome.source_columns <$> rows Examples.scenario_table ∧
    vehicle_emissions (run (Spec.transform Spec.Yellow) Examples.scenario).2 =
      vehicle_emissions Examples.scenario ∧
    ∀ name, name ≠ "yellow_trips" →
            trip_tables (run (Spec.transform Spec.Yellow) Examples.scenario).2 !! name =
            trip_tables Examples.scenario !! name.
Proof.
  apply (transform_keeps_source_data Spec.Yellow Examples.scenario Examples.scenario_table).
  reflexivity.
Defined.

(** X11.  Called on a table that lacks one of the six derived columns, as
    before any transformation, [verify_transformations] raises a
    [BinderError] and returns no verdict. *)
Theorem verify_transformations_needs_the_columns (d : Database) (y : TripTable) :
  trip_tables d !! "yellow_trips" = Some y →
  ¬ all_derived_cols ⊆ derived_cols y →
  run verify_transformations d = (inl BinderError, d).
Proof.
  intros Hy Hcols. unfold run, connect, verify_transformations.
  destruct (VerifyTransformFacts.table_report_cases "yellow_trips" d 0) as [n Hcase].
  rewrite Hy, decide_False in Hcase by done.
  by rewrite (TransformFacts.bind_error _ _ _ _ _ Hcase).
Qed.

Lemma verify_transformations_needs_the_columns_witness :
  run verify_transformations Examples.scenario = (inl BinderError, Examples.scenario).
Proof.
  apply (verify_transformations_needs_the_columns Examples.scenario
           Examples.scenario_table eq_refl).
  intros Hsub. specialize (Hsub TripCo2Kgs (list_elem_of_here _ _)).
  by apply elem_of_nil in Hsub.
Defined.

(** The verification does the same from any point of a connection. *)
Lemma verify_transformations_anywhere (d : Database) (n : nat) :
  ∃ m, verify_transformations (mkConn d n None) =
         ((run verify_transformations d).1, mkConn d m None).
Proof.
  unfold run, connect, verify_transformations.
  destruct (VerifyTransformFacts.table_report_cases "yellow_trips" d n) as [n1 Hy].
  destruct (VerifyTransformFacts.table_report_cases "yellow_trips" d 0) as [n1' Hy'].
  destruct (match trip_tables d !! "yellow_trips" with
            | Some _ => _ | None => _ end) as [e|yellow].
  { rewrite (TransformFacts.bind_error _ _ _ _ _ Hy),
      (TransformFacts.bind_error _ _ _ _ _ Hy'). eauto. }
  rewrite (TransformFacts.bind_ok _ _ _ _ _ Hy), (TransformFacts.bind_ok _ _ _ _ _ Hy').
  destruct (VerifyTransformFacts.table_report_cases "green_trips" d n1) as [n2 Hg].
  destruct (VerifyTransformFacts.table_report_cases "green_trips" d n1') as [n2' Hg'].
  destruct (match trip_tables d !! "green_trips" with
            | Some _ => _ | None => _ end) as [e|green].
  { rewrite (TransformFacts.bind_error _ _ _ _ _ Hg),
      (TransformFacts.bind_error _ _ _ _ _ Hg'). eauto. }
  rewrite (TransformFacts.bind_ok _ _ _ _ _ Hg), (TransformFacts.bind_ok _ _ _ _ _ Hg').
  cbn [fst snd].
  destruct (and_then _ _ (mkConn d n2 None)) as [r c] eqn:Hv.
  destruct (and_then _ _ (mkConn d n2' None)) as [r' c'] eqn:Hv'.
  pose proof (verdict_keeps_connection _ _ _ _ _ _ Hv) as ->.
  pose proof (verdict_keeps_connection _ _ _ _ _ _ Hv') as ->.
  exists n2. cbn [fst]. f_equal.
  revert Hv Hv'. unfold and_then, Py.bind, ge, le, ret, raise.
  repeat case_match; congruence.
Qed.

(** What [transform_data] does on a database that has both trip tables and
    the emission rates. *)
Lemma run_transform_data (d : Database) (y g : TripTable) (ves : list EmissionRow) :
  trip_tables d !! "yellow_trips" = Some y →
  trip_tables d !! "green_trips" = Some g →
  vehicle_emissions d = Some ves →
  run transform_data d =
    (match (run verify_transformations (Outcome.transformed_database d y g ves)).1 with
     | inl e => inl e
     | inr _ => inr tt
     end,
     Outcome.transformed_database d y g ves).
Proof.
  intros Hy Hg Hves. destruct d as [tables ves' ieee].
  cbn [trip_tables vehicle_emissions ieee_floating_point_ops] in *. subst ves'.
  unfold Outcome.transformed_database, with_tables.
  cbn [trip_tables vehicle_emissions ieee_floating_point_ops].
  unfold run at 1.
  unfold connect, transform_data, transform_yellow_trips, transform_green_trips.
  do 5 (erewrite TransformFacts.bind_ok; [|by apply TransformFacts.execute_ok]).
  destruct (TransformFacts.transform_trips_ok batch_size "yellow_trips" "yellow_taxi"
              tables ves ieee 5 y TransformFacts.batch_size_pos Hy) as [m1 Hyellow].
  rewrite (TransformFacts.bind_ok _ _ _ _ _ Hyellow).
  destruct (TransformFacts.transform_trips_ok batch_size "green_trips" "green_taxi"
              (<["yellow_trips" := Spec.transformed ieee "yellow_taxi" ves y]> tables)
              ves ieee m1 g TransformFacts.batch_size_pos) as [m2 Hgreen].
  { by rewrite lookup_insert_ne. }
  rewrite (TransformFacts.bind_ok _ _ _ _ _ Hgreen).
  destruct (verify_transformations_anywhere
              (mkDatabase
                 (<["green_trips" := Spec.transformed ieee "green_taxi" ves g]>
                    (<["yellow_trips" := Spec.transformed ieee "yellow_taxi" ves y]> tables))
                 (Some ves) ieee) m2) as [m3 Hverify].
  unfold Py.bind at 1. rewrite Hverify.
  by destruct (run verify_transformations _).1.
Qed.

Lemma derived_in_range_checked (r : TripRow) :
  Spec.derived_in_range r → Spec.checked r.
Proof.
  intros ((q1 & H1 & _) & (q2 & H2 & _) & (h & H3 & Hh) & (w & H4 & _)
          & (w' & H5 & _) & (m & H6 & _)).
  split.
  - intros []; unfold column_is_null; by rewrite ?H1, ?H2, ?H3, ?H4, ?H5, ?H6.
  - intros h' Hh'. rewrite H3 in Hh'. by injection Hh' as <-.
Qed.

Lemma agg_avg_is_Some (l : list (option double)) (v : double) :
  Some v ∈ l → is_Some (agg_avg l).
Proof.
  intros Hin. unfold agg_avg. destruct (omap id l) as [|a vs] eqn:E.
  - assert (v ∈ omap id l) as Hv by (apply list_elem_of_omap; by exists (Some v)).
    rewrite E in Hv. by apply elem_of_nil in Hv.
  - case_decide; eauto.
Qed.

Lemma table_stats_present (t : TripTable) :
  records t ≠ [] →
  Forall Spec.derived_present (records t) →
  is_Some (avg_co2 (table_stats t)) ∧ is_Some (avg_speed (table_stats t)).
Proof.
  intros Hne Hall. unfold table_stats. cbn [avg_co2 avg_speed].
  destruct (records t) as [|r rs]; [done|].
  apply Forall_cons in Hall as [Hr _].
  pose proof (Hr TripCo2Kgs) as H1. pose proof (Hr AvgMph) as H2.
  unfold column_is_null in H1, H2.
  destruct (trip_co2_kgs r) as [v1|] eqn:E1; [|done].
  destruct (avg_mph r) as [v2|] eqn:E2; [|done].
  split.
  - apply (agg_avg_is_Some _ v1). rewrite fmap_cons, E1. left.
  - apply (agg_avg_is_Some _ v2). rewrite fmap_cons, E2. left.
Qed.

Lemma table_report_checked (table : string) (d : Database) (n : nat) (t : TripTable) :
  trip_tables d !! table = Some t →
  all_derived_cols ⊆ derived_cols t →
  records t ≠ [] →
  Forall Spec.checked (records t) →
  ∃ n', table_report table (mkConn d n None) =
          (inr (0, table_stats t), mkConn d n' None).
Proof.
  intros Ht Hcols Hne Hall.
  apply Forall_and in Hall as [Hpresent _].
  destruct (VerifyTransformFacts.table_report_cases table d n) as [n' Hrep].
  rewrite Ht, decide_True in Hrep by done.
  destruct (table_stats_present t Hne Hpresent) as [[a Ha] [b Hb]].
  rewrite Ha, Hb in Hrep.
  assert (Spec.null_total t = 0) as Hnull
    by by apply VerifyTransformFacts.null_total_zero.
  rewrite Hnull in Hrep. by exists n'.
Qed.

(** The verification returns true on two non-empty tables that have the six
    columns with no value NULL and every hour in 0..23. *)
Lemma verify_transformations_checked (d : Database) (y g : TripTable) :
  trip_tables d !! "yellow_trips" = Some y →
  trip_tables d !! "green_trips" = Some g →
  all_derived_cols ⊆ derived_cols y →
  all_derived_cols ⊆ derived_cols g →
  records y ≠ [] → records g ≠ [] →
  Forall Spec.checked (records y) →
  Forall Spec.checked (records g) →
  run verify_transformations d = (inr true, d).
Proof.
  intros Hy Hg Hcy Hcg Hny Hng Hry Hrg.
  unfold run, connect, verify_transformations.
  destruct (table_report_checked "yellow_trips" d 0 y Hy Hcy Hny Hry) as [n1 Hyellow].
  rewrite (TransformFacts.bind_ok _ _ _ _ _ Hyellow).
  destruct (table_report_checked "green_trips" d n1 g Hg Hcg Hng Hrg) as [n2 Hgreen].
  rewrite (TransformFacts.bind_ok _ _ _ _ _ Hgreen).
  cbn [fst snd]. change (0 + 0 =? 0) with true.
  assert (∀ t, records t ≠ [] → Forall Spec.checked (records t) →
               (∃ x, min_hour (table_stats t) = Some x ∧ 0 ≤ x) ∧
               (∃ x, max_hour (table_stats t) = Some x ∧ x ≤ 23)) as Hhours.
  { intros t Hne Hall. apply Forall_and in Hall as [Hpresent Hhour].
    apply VerifierFacts.hours_bounds; [|done..].
    by apply table_stats_present. }
  destruct (Hhours y Hny Hry) as [(x1 & -> & L1) (x2 & -> & L2)].
  destruct (Hhours g Hng Hrg) as [(x3 & -> & L3) (x4 & -> & L4)].
  unfold and_then, Py.bind, ge, le, ret.
  by rewrite (proj2 (Z.leb_le 0 x1) L1), (proj2 (Z.leb_le x2 23) L2),
    (proj2 (Z.leb_le 0 x3) L3), (proj2 (Z.leb_le x4 23) L4).
Qed.

Lemma transformed_checked ieee (key : string) (ves : list EmissionRow)
    (ve : EmissionRow) (rest : list EmissionRow) (rate : Qc) (t : TripTable) :
  emission_matches key ves = ve :: rest →
  co2_grams_per_mile ve = Some rate →
  Forall Spec.valid_trip (records t) →
  Forall Spec.checked (records (Spec.transformed ieee key ves t)) ∧
  length (records (Spec.transformed ieee key ves t)) = length (records t).
Proof.
  intros Hmatch Hrate Hvalid.
  assert (rows (Spec.transformed ieee key ves t)
          = prod_map id (derive ieee ve) <$> rows t) as Hrows.
  { unfold Spec.transformed. rewrite Hmatch. apply TransformFacts.rows_all_derived. }
  unfold records in *. rewrite Hrows, <-list_fmap_compose. split.
  - rewrite Forall_fmap in Hvalid. apply Forall_fmap.
    eapply Forall_impl; [done|]. intros [id r] Hr. simpl in *.
    by eapply TransformFacts.derive_checked.
  - by rewrite !length_fmap.
Qed.

(** X12.  On a database with both trip tables and [vehicle_emissions],
    [transform_data] transforms the yellow and then the green table and
    runs the verification on the result.  It raises exactly what the
    verification raises, and returns normally whenever the verification
    returns, with true or with false: a failed verification is printed, not
    raised.  In every case both tables are left transformed. *)
Theorem transform_data_outcome (d : Database) (y g : TripTable) (ves : list EmissionRow) :
  trip_tables d !! "yellow_trips" = Some y →
  trip_tables d !! "green_trips" = Some g →
  vehicle_emissions d = Some ves →
  let d' := Outcome.transformed_database d y g ves in
  (run transform_data d).2 = d' ∧
  (∀ e, (run verify_transformations d').1 = inl e ↔ (run transform_data d).1 = inl e) ∧
  (∀ b, (run verify_transformations d').1 = inr b → (run transform_data d).1 = inr tt).
Proof.
  intros Hy Hg Hves d'. subst d'. rewrite (run_transform_data d y g ves Hy Hg Hves).
  cbn [fst snd]. split; [done|]. split.
  - intros e. destruct (run verify_transformations _).1 as [e0|b];
      split; intros [=]; by subst.
  - intros b Hb. by rewrite Hb.
Qed.

Lemma transform_data_outcome_witness :
  let d' := Outcome.transformed_database Examples.zero_duration
              (Examples.loaded [Examples.row_Z]) Examples.single_trip
              Examples.emissions in
  (run transform_data Examples.zero_duration).2 = d' ∧
  (∀ e, (run verify_transformations d').1 = inl e ↔
        (run transform_data Examples.zero_duration).1 = inl e) ∧
  (∀ b, (run verify_transformations d').1 = inr b →
        (run transform_data Examples.zero_duration).1 = inr tt).
Proof.
  apply (transform_data_outcome Examples.zero_duration
           (Examples.loaded [Examples.row_Z]) Examples.single_trip Examples.emissions);
    reflexivity.
Defined.

(** The verification of two non-empty tables of valid trips, transformed
    with a rate for both vehicle types. *)
Lemma verify_transformed_tables
    (d : Database) (y g : TripTable) (ves : list EmissionRow)
    (vy vg : EmissionRow) (ry rg : list EmissionRow) (qy qg : Qc) :
  emission_matches "yellow_taxi" ves = vy :: ry →
  emission_matches "green_taxi" ves = vg :: rg →
  co2_grams_per_mile vy = Some qy →
  co2_grams_per_mile vg = Some qg →
  rows y ≠ [] → rows g ≠ [] →
  Forall Spec.valid_trip (records y) →
  Forall Spec.valid_trip (records g) →
  run verify_transformations (Outcome.transformed_database d y g ves) =
    (inr true, Outcome.transformed_database d y g ves).
Proof.
  intros Hmy Hmg Hqy Hqg Hny Hng Hvy Hvg.
  destruct (transformed_checked (ieee_floating_point_ops d) _ _ _ _ _ y Hmy Hqy Hvy)
    as [Hry Hly].
  destruct (transformed_checked (ieee_floating_point_ops d) _ _ _ _ _ g Hmg Hqg Hvg)
    as [Hrg Hlg].
  eapply verify_transformations_checked; [| |
    apply TransformFacts.transformed_cols | apply TransformFacts.transformed_cols
    | | | exact Hry | exact Hrg].
  - unfold Outcome.transformed_database, with_tables. cbn [trip_tables].
    rewrite lookup_insert_ne by done. apply lookup_insert_eq.
  - unfold Outcome.transformed_database, with_tables. cbn [trip_tables].
    apply lookup_insert_eq.
  - intros Hnil. apply (f_equal length) in Hnil. rewrite Hly in Hnil.
    unfold records in Hnil. rewrite length_fmap in Hnil.
    by destruct (rows y).
  - intros Hnil. apply (f_equal length) in Hnil. rewrite Hlg in Hnil.
    unfold records in Hnil. rewrite length_fmap in Hnil.
    by destruct (rows g).
Qed.

(** X13.  On two non-empty tables whose rows all pass the quality filter,
    with a non-null, non-negative rate for both vehicle types,
    [transform_data] runs to its end and the verification it runs on the two
    transformed tables returns true. *)
Theorem transform_data_verifies_clean_tables
    (d : Database) (y g : TripTable) (ves : list EmissionRow)
    (vy vg : EmissionRow) (ry rg : list EmissionRow) (qy qg : Qc) :
  trip_tables d !! "yellow_trips" = Some y →
  trip_tables d !! "green_trips" = Some g →
  vehicle_emissions d = Some ves →
  emission_matches "yellow_taxi" ves = vy :: ry →
  emission_matches "green_taxi" ves = vg :: rg →
  co2_grams_per_mile vy = Some qy → (0 ≤ qy)%Qc →
  co2_grams_per_mile vg = Some qg → (0 ≤ qg)%Qc →
  rows y ≠ [] → rows g ≠ [] →
  Forall Spec.valid_trip (records y) →
  Forall Spec.valid_trip (records g) →
  let d' := Outcome.transformed_database d y g ves in
  run transform_data d = (inr tt, d') ∧
  run verify_transformations d' = (inr true, d').
Proof.
  intros Hy Hg Hves Hmy Hmg Hqy Hpy Hqg Hpg Hny Hng Hvy Hvg d'.
  pose proof (verify_transformed_tables d y g ves vy vg ry rg qy qg
                Hmy Hmg Hqy Hqg Hny Hng Hvy Hvg) as Hverify.
  fold d' in Hverify. split; [|done].
  rewrite (run_transform_data d y g ves Hy Hg Hves). fold d'. by rewrite Hverify.
Qed.

Lemma transform_data_verifies_clean_tables_witness :
  let d' := Outcome.transformed_database Examples.single_trips
              Examples.single_trip Examples.single_trip Examples.emissions in
  run transform_data Examples.single_trips = (inr tt, d') ∧
  run verify_transformations d' = (inr true, d').
Proof.
  apply (transform_data_verifies_clean_tables Examples.single_trips
           Examples.single_trip Examples.single_trip Examples.emissions
           (mkEmissionRow (Some "yellow_taxi") (Some (Qc_of_Z 400)))
           (mkEmissionRow (Some "green_taxi") (Some (Qc_of_Z 350)))
           [] [] (Qc_of_Z 400) (Qc_of_Z 350));
    try reflexivity; try done;
    try (apply (proj1 (Z2Qc_inj_le 0 _)); lia);
    exact TransformFacts.single_trip_valid.
Defined.

End TransformRuns.

(** ** Runs of load.py *)

Module LoadRuns.
Import Model Py Engine Load.

Lemma append_nil (t : TripTable) : append t [] = t.
Proof. unfold append, with_rows. simpl. rewrite app_nil_r. by destruct t. Qed.

Lemma append_app (t : TripTable) (a b : list TripRow) :
  append (append t a) b = append t (a ++ b).
Proof.
  unfold append, with_rows. cbn [rows derived_cols]. f_equal.
  rewrite imap_app, <-app_assoc. do 2 f_equal.
  rewrite length_app, length_imap. apply imap_ext. intros i r _. simpl.
  f_equal. lia.
Qed.

Lemma append_empty (rs : list TripRow) :
  append (mkTripTable [] []) rs = mkTripTable [] (number_rows rs).
Proof. done. Qed.

Lemma try_except_ok (body : M unit) (c c' : Conn) (r : Exn + unit) :
  body c = (r, c') → try_except body c = (inr tt, c').
Proof. intros Hbody. unfold try_except. rewrite Hbody. by destruct r as [e|[]]. Qed.

(** The loop over the months of a year appends the rows of the files that
    could be inserted, and skips the others. *)
Lemma months_loop (remote : Remote) (color : Spec.Category) (year : Z)
    (ves : option (list EmissionRow)) (ieee : bool) (ms : list Z) :
  ∀ (tables : gmap string TripTable) (n : nat) (t : TripTable),
    tables !! Spec.trips_table color = Some t →
    ∃ m,
      for_each ms (λ month, try_except (execute (insert_file remote color year month)))
        (mkConn (mkDatabase tables ves ieee) n None) =
      (inr tt,
       mkConn (mkDatabase
                 (<[Spec.trips_table color :=
                      append t (trip_of <$> concat (omap (file remote color year) ms))]>
                    tables) ves ieee) m None).
Proof.
  induction ms as [|month ms IH]; intros tables n t Ht.
  - exists n. simpl. unfold ret. rewrite append_nil. by rewrite insert_id.
  - rewrite TransformFacts.for_each_cons.
    destruct (file remote color year month) as [rs|] eqn:Hfile.
    + erewrite try_except_ok; last first.
      { apply TransformFacts.execute_ok. unfold insert_file.
        cbn [trip_tables]. by rewrite Ht, Hfile. }
      unfold with_tables. cbn [trip_tables vehicle_emissions ieee_floating_point_ops].
      destruct (IH (<[Spec.trips_table color := append t (trip_of <$> rs)]> tables)
                  (S n) (append t (trip_of <$> rs)) (lookup_insert_eq _ _ _)) as [m Hm].
      exists m. rewrite Hm. rewrite insert_insert_eq, append_app.
      replace (omap (file remote color year) (month :: ms))
        with (rs :: omap (file remote color year) ms) by (simpl; by rewrite Hfile).
      by rewrite concat_cons, fmap_app.
    + erewrite try_except_ok; last first.
      { apply TransformFacts.execute_error. unfold insert_file.
        cbn [trip_tables]. by rewrite Ht, Hfile. }
      destruct (IH tables (S n) t Ht) as [m Hm]. exists m. rewrite Hm.
      replace (omap (file remote color year) (month :: ms))
        with (omap (file remote color year) ms) by (simpl; by rewrite Hfile).
      done.
Qed.

(** The loop over the years does the same, year after year. *)
Lemma years_loop (remote : Remote) (color : Spec.Category)
    (ves : option (list EmissionRow)) (ieee : bool) (ys : list Z) :
  ∀ (tables : gmap string TripTable) (n : nat) (t : TripTable),
    tables !! Spec.trips_table color = Some t →
    ∃ m,
      for_each ys (λ year,
        for_each months (λ month,
          try_except (execute (insert_file remote color year month))))
        (mkConn (mkDatabase tables ves ieee) n None) =
      (inr tt,
       mkConn (mkDatabase
                 (<[Spec.trips_table color :=
                      append t (concat (Loaded.year_rows remote color <$> ys))]>
                    tables) ves ieee) m None).
Proof.
  induction ys as [|year ys IH]; intros tables n t Ht.
  - exists n. simpl. unfold ret. rewrite append_nil. by rewrite insert_id.
  - rewrite TransformFacts.for_each_cons.
    destruct (months_loop remote color year ves ieee months tables n t Ht) as [m1 ->].
    destruct (IH (<[Spec.trips_table color := append t (Loaded.year_rows remote color year)]>
                    tables) m1 (append t (Loaded.year_rows remote color year))
                (lookup_insert_eq _ _ _)) as [m Hm].
    exists m. unfold Loaded.year_rows at 1 in Hm. rewrite Hm.
    rewrite insert_insert_eq, append_app. by rewrite fmap_cons, concat_cons.
Qed.

(** What [load_parquet_files] does when both schema reads succeed. *)
Lemma run_load_parquet_files (remote : Remote) (d : Database) :
  sample remote Spec.Yellow = true →
  sample remote Spec.Green = true →
  run (load_parquet_files remote) d = (inr tt, Loaded.loaded_database remote d).
Proof.
  intros Hy Hg. destruct d as [tables ves ieee].
  unfold run, connect, load_parquet_files.
  erewrite TransformFacts.bind_ok; last first.
  { apply TransformFacts.execute_ok. unfold create_empty. by rewrite Hy. }
  erewrite TransformFacts.bind_ok; last first.
  { apply TransformFacts.execute_ok. unfold create_empty. by rewrite Hg. }
  unfold with_tables. cbn [trip_tables vehicle_emissions ieee_floating_point_ops].
  unfold colors. rewrite TransformFacts.for_each_cons.
  destruct (years_loop remote Spec.Yellow ves ieee years
              (<[Spec.trips_table Spec.Green := mkTripTable [] []]>
                 (<[Spec.trips_table Spec.Yellow := mkTripTable [] []]> tables))
              2 (mkTripTable [] [])) as [m1 ->].
  { rewrite lookup_insert_ne by done. apply lookup_insert_eq. }
  rewrite TransformFacts.for_each_cons.
  destruct (years_loop remote Spec.Green ves ieee years
              (<[Spec.trips_table Spec.Yellow :=
                   append (mkTripTable [] [])
                     (concat (Loaded.year_rows remote Spec.Yellow <$> years))]>
                 (<[Spec.trips_table Spec.Green := mkTripTable [] []]>
                    (<[Spec.trips_table Spec.Yellow := mkTripTable [] []]> tables)))
              m1 (mkTripTable [] [])) as [m2 ->].
  { rewrite lookup_insert_ne by done. apply lookup_insert_eq. }
  cbn [for_each]. unfold ret, Loaded.loaded_database, with_tables.
  cbn [database trip_tables vehicle_emissions ieee_floating_point_ops Spec.trips_table].
  do 2 f_equal. rewrite !append_empty.
  unfold Loaded.loaded_table, Loaded.loaded_rows.
  rewrite (insert_insert_ne _ "yellow_trips" "green_trips") by done.
  by rewrite !insert_insert_eq.
Qed.

Lemma rowids_number_rows (rs : list TripRow) :
  (number_rows rs).*1 = range (Sql.count rs).
Proof.
  unfold number_rows, range, Sql.count. rewrite Nat2Z.id, fmap_imap.
  induction rs as [|r rs IH] using rev_ind; [done|].
  rewrite imap_app, IH, length_app. simpl.
  rewrite Nat.add_1_r, seq_S, fmap_app. simpl. by rewrite Nat.add_0_r.
Qed.

Lemma loaded_lookup (remote : Remote) (d : Database) (color : Spec.Category) :
  trip_tables (Loaded.loaded_database remote d) !! Spec.trips_table color =
    Some (Loaded.loaded_table remote color).
Proof.
  unfold Loaded.loaded_database, with_tables. cbn [trip_tables].
  destruct color; cbn [Spec.trips_table].
  - rewrite lookup_insert_ne by done. apply lookup_insert_eq.
  - apply lookup_insert_eq.
Qed.

(** X14.  When the two reads that give the tables their schema succeed,
    [load_parquet_files] returns normally whatever files fail afterwards.
    Each trip table is left without derived columns, holding exactly the
    rows of the files that could be inserted, in the order of the loop
    (years 2015..2024, months 1..12) and with the rowids 0, 1, 2, ...;
    what the two tables held before is gone, and the other tables and
    [vehicle_emissions] are as they were. *)
Theorem load_keeps_the_files_that_load (remote : Remote) (d : Database) :
  sample remote Spec.Yellow = true →
  sample remote Spec.Green = true →
  ∃ d',
    run (load_parquet_files remote) d = (inr tt, d') ∧
    (∀ color, ∃ t,
       trip_tables d' !! Spec.trips_table color = Some t ∧
       derived_cols t = [] ∧
       records t = Loaded.loaded_rows remote color ∧
       rowids t = range (Sql.count (Loaded.loaded_rows remote color))) ∧
    (∀ name, name ≠ "yellow_trips" → name ≠ "green_trips" →
             trip_tables d' !! name = trip_tables d !! name) ∧
    vehicle_emissions d' = vehicle_emissions d.
Proof.
  intros Hy Hg. exists (Loaded.loaded_database remote d).
  split; [by apply run_load_parquet_files|]. split; [|split; [|done]].
  - intros color. exists (Loaded.loaded_table remote color).
    split; [apply loaded_lookup|]. split; [done|]. split.
    + apply CleanFacts.records_number_rows.
    + apply rowids_number_rows.
  - intros name Hny Hng. unfold Loaded.loaded_database, with_tables.
    cbn [trip_tables]. by rewrite !lookup_insert_ne.
Qed.

Lemma load_keeps_the_files_that_load_witness :
  ∃ d',
    run (load_parquet_files Loaded.january_only) Examples.scenario = (inr tt, d') ∧
    (∀ color, ∃ t,
       trip_tables d' !! Spec.trips_table color = Some t ∧
       derived_cols t = [] ∧
       records t = Loaded.loaded_rows Loaded.january_only color ∧
       rowids t = range (Sql.count (Loaded.loaded_rows Loaded.january_only color))) ∧
    (∀ name, name ≠ "yellow_trips" → name ≠ "green_trips" →
             trip_tables d' !! name = trip_tables Examples.scenario !! name) ∧
    vehicle_emissions d' = vehicle_emissions Examples.scenario.
Proof.
  apply (load_keeps_the_files_that_load Loaded.january_only Examples.scenario);
    reflexivity.
Defined.

(** Of the 240 files only one per colour loads: each table holds one trip. *)
Example january_only_loads_one_trip :
  Sql.count (Loaded.loaded_rows Loaded.january_only Spec.Yellow) = 1 ∧
  Sql.count (Loaded.loaded_rows Loaded.january_only Spec.Green) = 1.
Proof. by vm_compute. Qed.

(** A loop whose body never raises and makes [k] calls runs them all. *)
Lemma for_each_attempts {A : Type} (k : nat) (body : A → M unit) (xs : list A) :
  (∀ x c, ∃ c', body x c = (inr tt, c') ∧
                executed c' = (executed c + k)%nat ∧ fault_at c' = fault_at c) →
  ∀ c, ∃ c', for_each xs body c = (inr tt, c') ∧
             executed c' = (executed c + length xs * k)%nat ∧
             fault_at c' = fault_at c.
Proof.
  intros Hbody. induction xs as [|x xs IH]; intros c.
  - exists c. simpl. unfold ret. split; [done|]. split; [lia|done].
  - rewrite TransformFacts.for_each_cons.
    destruct (Hbody x c) as (c1 & -> & Hn1 & Hf1).
    destruct (IH c1) as (c2 & -> & Hn2 & Hf2).
    exists c2. split; [done|]. simpl. split; [lia|congruence].
Qed.

Lemma try_execute_attempts (s : Stmt unit) (c : Conn) :
  ∃ c', try_except (execute s) c = (inr tt, c') ∧
        executed c' = (executed c + 1)%nat ∧ fault_at c' = fault_at c.
Proof.
  unfold try_except, execute. case_decide.
  - eexists. split; [done|]. simpl. split; [lia|done].
  - destruct (s (database c)) as [e|[[] d']];
      (eexists; split; [done|]; simpl; split; [lia|done]).
Qed.

(** X15.  No failure of an [INSERT] is fatal, be it a file that cannot be
    read or a storage fault: once the two tables are created,
    [load_parquet_files] returns normally and has made all 242 calls of
    [con.execute], the 240 inserts included. *)
Theorem load_attempts_every_file (remote : Remote) (d : Database) (f : option nat) :
  sample remote Spec.Yellow = true →
  sample remote Spec.Green = true →
  Outcome.fault_free f 0 2 →
  ∃ c', load_parquet_files remote (mkConn d 0 f) = (inr tt, c') ∧
        executed c' = 242%nat.
Proof.
  intros Hy Hg Hf. unfold load_parquet_files.
  erewrite TransformFacts.bind_ok; last first.
  { apply TransformRuns.execute_runs.
    - destruct f; [|done]. simpl in *. lia.
    - unfold create_empty. by rewrite Hy. }
  erewrite TransformFacts.bind_ok; last first.
  { apply TransformRuns.execute_runs.
    - destruct f; [|done]. simpl in *. lia.
    - unfold create_empty. by rewrite Hg. }
  edestruct (for_each_attempts 120
               (λ color, for_each years (λ year, for_each months (λ month,
                  try_except (execute (insert_file remote color year month)))))
               colors) as (c' & Hrun & Hn & _).
  { intros color c. apply (for_each_attempts 12 _ years).
    intros year c0. apply (for_each_attempts 1 _ months).
    intros month c1. apply try_execute_attempts. }
  exists c'. split; [exact Hrun|]. rewrite Hn. reflexivity.
Qed.

Lemma load_attempts_every_file_witness :
  ∃ c', load_parquet_files Loaded.no_yellow_files (mkConn Examples.scenario 0 (Some 7%nat))
          = (inr tt, c') ∧
        executed c' = 242%nat.
Proof.
  apply (load_attempts_every_file Loaded.no_yellow_files Examples.scenario (Some 7%nat));
    [reflexivity | reflexivity | simpl; lia].
Defined.

Lemma run_load_without_yellow_schema (remote : Remote) (d : Database) :
  sample remote Spec.Yellow = false →
  run (load_parquet_files remote) d = (inl IOError, d).
Proof.
  intros Hy. destruct d as [tables ves ieee].
  unfold run, connect, load_parquet_files.
  erewrite TransformFacts.bind_error; last first.
  { apply TransformFacts.execute_error. unfold create_empty. by rewrite Hy. }
  done.
Qed.

Lemma run_load_without_green_schema (remote : Remote) (d : Database) :
  sample remote Spec.Yellow = true →
  sample remote Spec.Green = false →
  run (load_parquet_files remote) d =
    (inl IOError,
     with_tables d (<["yellow_trips" := mkTripTable [] []]> (trip_tables d))).
Proof.
  intros Hy Hg. destruct d as [tables ves ieee].
  unfold run, connect, load_parquet_files.
  erewrite TransformFacts.bind_ok; last first.
  { apply TransformFacts.execute_ok. unfold create_empty. by rewrite Hy. }
  erewrite TransformFacts.bind_error; last first.
  { apply TransformFacts.execute_error. unfold create_empty. by rewrite Hg. }
  done.
Qed.

(** X16.  When the schema read for the green table fails after the one for
    the yellow table succeeded, [load_parquet_files] raises with
    [yellow_trips] already replaced by an empty table: the rows it held are
    lost, [green_trips] is as it was, and the main block ends with exit
    status 1. *)
Theorem failed_green_schema_empties_yellow
    (remote : Remote) (csv : option (list EmissionRow)) (d : Database) :
  sample remote Spec.Yellow = true →
  sample remote Spec.Green = false →
  ∃ d',
    run (load_parquet_files remote) d = (inl IOError, d') ∧
    load_main remote csv d = (1, d') ∧
    rows <$> trip_tables d' !! "yellow_trips" = Some [] ∧
    trip_tables d' !! "green_trips" = trip_tables d !! "green_trips".
Proof.
  intros Hy Hg. eexists. split; [by apply run_load_without_green_schema|].
  split; [|split].
  - unfold load_main. by rewrite run_load_without_green_schema.
  - unfold with_tables. cbn [trip_tables]. by rewrite lookup_insert_eq.
  - unfold with_tables. cbn [trip_tables]. by rewrite lookup_insert_ne.
Qed.

Lemma failed_green_schema_empties_yellow_witness :
  ∃ d',
    run (load_parquet_files Loaded.no_green_schema) Examples.scenario = (inl IOError, d') ∧
    load_main Loaded.no_green_schema (Some Examples.emissions) Examples.scenario = (1, d') ∧
    rows <$> trip_tables d' !! "yellow_trips" = Some [] ∧
    trip_tables d' !! "green_trips" = trip_tables Examples.scenario !! "green_trips".
Proof.
  apply (failed_green_schema_empties_yellow Loaded.no_green_schema
           (Some Examples.emissions) Examples.scenario); reflexivity.
Defined.

Lemma omap_id_nonempty {A : Type} (l : list (option A)) :
  omap id l ≠ [] ↔ ∃ v, Some v ∈ l.
Proof.
  split.
  - destruct (omap id l) as [|a vs] eqn:E; [done|]. intros _. exists a.
    assert (a ∈ omap id l) as Ha by (rewrite E; left).
    apply list_elem_of_omap in Ha as (y & Hy & Heq). unfold id in Heq. by subst y.
  - intros [v Hv] Hnil.
    assert (v ∈ omap id l) as Ha by (apply list_elem_of_omap; by exists (Some v)).
    rewrite Hnil in Ha. by apply elem_of_nil in Ha.
Qed.

Lemma agg_avg_is_Some_iff (l : list (option double)) :
  is_Some (Transform.agg_avg l) ↔ omap id l ≠ [].
Proof.
  unfold Transform.agg_avg. destruct (omap id l) as [|a vs].
  - split; [by intros [? [=]]|done].
  - split; [done|]. intros _. case_decide; eauto.
Qed.

Lemma agg_sum_is_Some_iff (l : list (option Qc)) :
  is_Some (agg_sum l) ↔ omap id l ≠ [].
Proof.
  unfold agg_sum. destruct (omap id l) as [|a vs].
  - split; [by intros [? [=]]|done].
  - split; [done|eauto].
Qed.

Lemma avg_distance_is_Some (t : TripTable) :
  is_Some (avg_distance (table_summary t)) ↔ Loaded.has_distance t.
Proof.
  unfold table_summary. cbn [avg_distance].
  rewrite agg_avg_is_Some_iff, omap_id_nonempty. unfold Loaded.has_distance. split.
  - intros (v & Hv). apply list_elem_of_fmap in Hv as (r & Heq & Hr).
    exists r. split; [done|]. destruct (trip_distance r); [eauto|done].
  - intros (r & Hr & [q Hq]). exists (Finite q).
    apply list_elem_of_fmap. exists r. by rewrite Hq.
Qed.

Lemma total_distance_is_Some (t : TripTable) :
  is_Some (total_distance (table_summary t)) ↔ Loaded.has_distance t.
Proof.
  unfold table_summary. cbn [total_distance].
  rewrite agg_sum_is_Some_iff, omap_id_nonempty. unfold Loaded.has_distance. split.
  - intros (v & Hv). apply list_elem_of_fmap in Hv as (r & Heq & Hr).
    exists r. split; [done|]. rewrite <-Heq. eauto.
  - intros (r & Hr & [q Hq]). exists q.
    apply list_elem_of_fmap. exists r. by rewrite Hq.
Qed.

(** The summary on a database that has the three tables. *)
Lemma run_basic_data_summarization (d : Database) (y g : TripTable)
    (ves : list EmissionRow) :
  trip_tables d !! "yellow_trips" = Some y →
  trip_tables d !! "green_trips" = Some g →
  vehicle_emissions d = Some ves →
  run basic_data_summarization d =
    (match avg_distance (table_summary y), avg_distance (table_summary g) with
     | Some _, Some _ => inr tt
     | _, _ => inl TypeError
     end, d).
Proof.
  intros Hy Hg Hves. unfold run, connect, basic_data_summarization.
  erewrite TransformFacts.bind_ok; last first.
  { apply TransformFacts.execute_ok. unfold select_summary. by rewrite Hy. }
  erewrite TransformFacts.bind_ok; last first.
  { apply TransformFacts.execute_ok. unfold select_summary. by rewrite Hg. }
  erewrite TransformFacts.bind_ok; last first.
  { apply TransformFacts.execute_ok. unfold select_emissions_count. by rewrite Hves. }
  pose proof (avg_distance_is_Some y) as Hay.
  pose proof (total_distance_is_Some y) as Hty.
  pose proof (avg_distance_is_Some g) as Hag.
  pose proof (total_distance_is_Some g) as Htg.
  destruct (avg_distance (table_summary y)) as [ay|].
  - destruct (proj2 Hty (proj1 Hay (mk_is_Some _ _ eq_refl))) as [ty ->].
    destruct (avg_distance (table_summary g)) as [ag|]; [|done].
    by destruct (proj2 Htg (proj1 Hag (mk_is_Some _ _ eq_refl))) as [tg ->].
  - done.
Qed.

(** X17.  On a database that has the two trip tables and
    [vehicle_emissions], [basic_data_summarization] changes nothing and
    returns normally exactly when each trip table has a row with a
    non-null [trip_distance]; otherwise, so on an empty table, formatting
    the NULL average raises a [TypeError]. *)
Theorem summary_needs_a_distance (d : Database) (y g : TripTable)
    (ves : list EmissionRow) :
  trip_tables d !! "yellow_trips" = Some y →
  trip_tables d !! "green_trips" = Some g →
  vehicle_emissions d = Some ves →
  (run basic_data_summarization d = (inr tt, d) ↔
   Loaded.has_distance y ∧ Loaded.has_distance g) ∧
  (run basic_data_summarization d = (inr tt, d) ∨
   run basic_data_summarization d = (inl TypeError, d)).
Proof.
  intros Hy Hg Hves. rewrite (run_basic_data_summarization d y g ves Hy Hg Hves).
  rewrite <-(avg_distance_is_Some y), <-(avg_distance_is_Some g).
  destruct (avg_distance (table_summary y)) as [ay|],
    (avg_distance (table_summary g)) as [ag|]; (split; [|by auto]).
  - split; [by eauto|done].
  - split; [done|]. by intros [_ [? [=]]].
  - split; [done|]. by intros [[? [=]] _].
  - split; [done|]. by intros [[? [=]] _].
Qed.

Lemma summary_needs_a_distance_witness :
  (run basic_data_summarization Examples.empty_tables = (inr tt, Examples.empty_tables) ↔
   Loaded.has_distance Examples.empty_table ∧ Loaded.has_distance Examples.empty_table) ∧
  (run basic_data_summarization Examples.empty_tables = (inr tt, Examples.empty_tables) ∨
   run basic_data_summarization Examples.empty_tables = (inl TypeError, Examples.empty_tables)).
Proof.
  apply (summary_needs_a_distance Examples.empty_tables Examples.empty_table
           Examples.empty_table Examples.emissions); reflexivity.
Defined.

(** The main block when both schema reads succeed and the CSV is read. *)
Lemma run_load_main (remote : Remote) (rs : list EmissionRow) (d : Database) :
  sample remote Spec.Yellow = true →
  sample remote Spec.Green = true →
  load_main remote (Some rs) d =
    (match avg_distance (table_summary (Loaded.loaded_table remote Spec.Yellow)),
           avg_distance (table_summary (Loaded.loaded_table remote Spec.Green)) with
     | Some _, Some _ => 0
     | _, _ => 1
     end,
     mkDatabase (trip_tables (Loaded.loaded_database remote d)) (Some rs)
       (ieee_floating_point_ops d)).
Proof.
  intros Hy Hg. unfold load_main. rewrite run_load_parquet_files by done.
  assert (run (load_emissions_data (Some rs)) (Loaded.loaded_database remote d) =
            (inr tt, mkDatabase (trip_tables (Loaded.loaded_database remote d)) (Some rs)
                       (ieee_floating_point_ops d))) as ->.
  { unfold run, connect, load_emissions_data.
    erewrite TransformFacts.bind_ok; [|by apply TransformFacts.execute_ok].
    erewrite TransformFacts.bind_ok; [|by apply TransformFacts.execute_ok].
    done. }
  rewrite (run_basic_data_summarization _ (Loaded.loaded_table remote Spec.Yellow)
             (Loaded.loaded_table remote Spec.Green) rs);
    [|apply (loaded_lookup remote d Spec.Yellow)
     |apply (loaded_lookup remote d Spec.Green)|done].
  by destruct (avg_distance (table_summary (Loaded.loaded_table remote Spec.Yellow))),
    (avg_distance (table_summary (Loaded.loaded_table remote Spec.Green))).
Qed.

(** X18.  The main block of load.py ends with exit status 0 exactly when
    both schema reads succeed, the CSV of the emission rates can be read,
    and for each colour some file that could be inserted has a row with a
    non-null [trip_distance]; in every other case it ends with status 1.
    So when every file of a colour fails to load, [load_parquet_files]
    raises nothing and it is the summary that ends the process. *)
Theorem load_main_exit_status (remote : Remote) (csv : option (list EmissionRow))
    (d : Database) :
  ((load_main remote csv d).1 = 0 ↔
   sample remote Spec.Yellow = true ∧ sample remote Spec.Green = true ∧
   is_Some csv ∧
   Loaded.has_distance (Loaded.loaded_table remote Spec.Yellow) ∧
   Loaded.has_distance (Loaded.loaded_table remote Spec.Green)) ∧
  ((load_main remote csv d).1 = 0 ∨ (load_main remote csv d).1 = 1).
Proof.
  unfold load_main.
  destruct (sample remote Spec.Yellow) eqn:Hy.
  2: { rewrite run_load_without_yellow_schema by done. cbn [fst].
       split; [|by right]. split; [done|]. by intros [[=] _]. }
  destruct (sample remote Spec.Green) eqn:Hg.
  2: { rewrite run_load_without_green_schema by done. cbn [fst].
       split; [|by right]. split; [done|]. by intros (_ & [=] & _). }
  destruct csv as [rs|].
  2: { rewrite run_load_parquet_files by done.
       split; [|by right]. split; [done|]. by intros (_ & _ & [? [=]] & _). }
  fold (load_main remote (Some rs) d). rewrite run_load_main by done. cbn [fst].
  rewrite <-(avg_distance_is_Some (Loaded.loaded_table remote Spec.Yellow)),
    <-(avg_distance_is_Some (Loaded.loaded_table remote Spec.Green)).
  destruct (avg_distance (table_summary (Loaded.loaded_table remote Spec.Yellow))) as [ay|],
    (avg_distance (table_summary (Loaded.loaded_table remote Spec.Green))) as [ag|];
    (split; [|by auto]).
  - split; [by eauto 10|done].
  - split; [done|]. by intros (_ & _ & _ & _ & [? [=]]).
  - split; [done|]. by intros (_ & _ & _ & [? [=]] & _).
  - split; [done|]. by intros (_ & _ & _ & [? [=]] & _).
Qed.

(** With no yellow file the loader raises nothing, and the process still
    ends with status 1; with the files of January 2024 it ends with 0. *)
Example exit_status_samples :
  (run (load_parquet_files Loaded.no_yellow_files) Examples.scenario).1 = inr tt ∧
  (load_main Loaded.no_yellow_files (Some Examples.emissions) Examples.scenario).1 = 1 ∧
  (load_main Loaded.january_only (Some Examples.emissions) Examples.scenario).1 = 0.
Proof. by vm_compute. Qed.

End LoadRuns.

(** ** The three scripts in sequence *)

Module PipelineRuns.
Import Model Py Engine.

(** A table with a valid trip is not empty after cleaning, and holds only
    valid trips. *)
Lemma cleaned_table_valid (t : TripTable) (r : TripRow) :
  r ∈ records t → Spec.valid_trip r →
  rows (Clean.cleaned_table t) ≠ [] ∧
  Forall Spec.valid_trip (records (Clean.cleaned_table t)).
Proof.
  intros Hr Hvalid. split.
  - intros Hnil.
    assert (r ∈ records (Clean.cleaned_table t)) as Hin.
    { rewrite CleanFacts.records_cleaned_table.
      by apply CleanFacts.elem_of_cleaned_rows. }
    unfold records in Hin. rewrite Hnil in Hin. by apply elem_of_nil in Hin.
  - rewrite CleanFacts.records_cleaned_table. apply Forall_forall.
    intros r' Hr'. by apply CleanFacts.elem_of_cleaned_rows in Hr' as [_ ?].
Qed.

Lemma valid_trip_has_distance (t : TripTable) (r : TripRow) :
  r ∈ records t → Spec.valid_trip r → Loaded.has_distance t.
Proof.
  intros Hr (_ & (x & Hx & _) & _). exists r. split; [done|]. by rewrite Hx.
Qed.

(** X19.  The three scripts in sequence.  When both schema reads succeed,
    the CSV gives a non-null, non-negative rate for both vehicle types, and
    for each colour some file that could be inserted holds a trip that
    passes the quality filter, then load.py ends with exit status 0, the
    main block of clean.py returns normally on the database it leaves, and
    [transform_data] returns normally on the cleaned database, its
    verification returning true. *)
Theorem pipeline_on_valid_files
    (remote : Load.Remote) (ves : list EmissionRow) (d : Database)
    (vy vg : EmissionRow) (ry rg : list EmissionRow) (qy qg : Qc) :
  Load.sample remote Spec.Yellow = true →
  Load.sample remote Spec.Green = true →
  Transform.emission_matches "yellow_taxi" ves = vy :: ry →
  Transform.emission_matches "green_taxi" ves = vg :: rg →
  co2_grams_per_mile vy = Some qy → (0 ≤ qy)%Qc →
  co2_grams_per_mile vg = Some qg → (0 ≤ qg)%Qc →
  (∃ r, r ∈ Loaded.loaded_rows remote Spec.Yellow ∧ Spec.valid_trip r) →
  (∃ r, r ∈ Loaded.loaded_rows remote Spec.Green ∧ Spec.valid_trip r) →
  ∃ d1 d2 d3,
    Load.load_main remote (Some ves) d = (0, d1) ∧
    run Clean.clean_main d1 = (inr tt, d2) ∧
    run Transform.transform_data d2 = (inr tt, d3) ∧
    run Transform.verify_transformations d3 = (inr true, d3).
Proof.
  intros Hsy Hsg Hmy Hmg Hqy Hpy Hqg Hpg (r1 & Hr1 & Hv1) (r2 & Hr2 & Hv2).
  set (Y := Loaded.loaded_table remote Spec.Yellow).
  set (G := Loaded.loaded_table remote Spec.Green).
  assert (r1 ∈ records Y) as Hin1.
  { unfold Y, Loaded.loaded_table, records. cbn [rows].
    by rewrite CleanFacts.records_number_rows. }
  assert (r2 ∈ records G) as Hin2.
  { unfold G, Loaded.loaded_table, records. cbn [rows].
    by rewrite CleanFacts.records_number_rows. }
  set (d1 := mkDatabase (trip_tables (Loaded.loaded_database remote d)) (Some ves)
               (ieee_floating_point_ops d)).
  assert (trip_tables d1 !! "yellow_trips" = Some Y) as Hy1
    by apply (LoadRuns.loaded_lookup remote d Spec.Yellow).
  assert (trip_tables d1 !! "green_trips" = Some G) as Hg1
    by apply (LoadRuns.loaded_lookup remote d Spec.Green).
  set (d2 := Outcome.cleaned_database d1 Y G).
  destruct (CleanRuns.cleaned_database_lookups d1 Y G) as [Hy2 Hg2]. fold d2 in Hy2, Hg2.
  destruct (cleaned_table_valid Y r1 Hin1 Hv1) as [Hny Hvy].
  destruct (cleaned_table_valid G r2 Hin2 Hv2) as [Hng Hvg].
  pose proof (TransformRuns.verify_transformed_tables d2 _ _ ves vy vg ry rg qy qg
                Hmy Hmg Hqy Hqg Hny Hng Hvy Hvg) as Hverify.
  exists d1, d2, (Outcome.transformed_database d2 (Clean.cleaned_table Y)
                    (Clean.cleaned_table G) ves).
  split; [|split; [|split]].
  - rewrite LoadRuns.run_load_main by done. fold Y G d1.
    destruct (proj2 (LoadRuns.avg_distance_is_Some Y)
                (valid_trip_has_distance Y r1 Hin1 Hv1)) as [ay ->].
    by destruct (proj2 (LoadRuns.avg_distance_is_Some G)
                   (valid_trip_has_distance G r2 Hin2 Hv2)) as [ag ->].
  - by apply CleanRuns.run_clean_main.
  - rewrite (TransformRuns.run_transform_data d2 _ _ ves Hy2 Hg2 eq_refl).
    by rewrite Hverify.
  - exact Hverify.
Qed.

Lemma january_trip_valid (color : Spec.Category) :
  ∃ r, r ∈ Loaded.loaded_rows Loaded.january_only color ∧ Spec.valid_trip r.
Proof.
  exists Examples.row_F. split.
  - destruct color; vm_compute; left.
  - apply CleanFacts.quality_filter_valid. vm_compute. reflexivity.
Defined.

Lemma pipeline_on_valid_files_witness :
  ∃ d1 d2 d3,
    Load.load_main Loaded.january_only (Some Examples.emissions) Examples.empty_tables
      = (0, d1) ∧
    run Clean.clean_main d1 = (inr tt, d2) ∧
    run Transform.transform_data d2 = (inr tt, d3) ∧
    run Transform.verify_transformations d3 = (inr true, d3).
Proof.
  apply (pipeline_on_valid_files Loaded.january_only Examples.emissions
           Examples.empty_tables
           (mkEmissionRow (Some "yellow_taxi") (Some (Qc_of_Z 400)))
           (mkEmissionRow (Some "green_taxi") (Some (Qc_of_Z 350)))
           [] [] (Qc_of_Z 400) (Qc_of_Z 350));
    try reflexivity;
    try (apply (proj1 (Z2Qc_inj_le 0 _)); lia);
    apply january_trip_valid.
Defined.

End PipelineRuns.
